(** * LVU for Qwen2.5-VL: a shallow embedding of [lvu/models/qwen25_vl.py]

    The development follows the Python module top to bottom:

    - [Py]: exceptions and the result monad;
    - [PyNum]: Python's [int] and [float] (IEEE binary64) with the
      operations the module uses (true division, product, comparison,
      [min], [max], [round], [math.floor], [math.ceil], [int]);
    - [Dict]: dicts with string keys, in insertion order;
    - [Vision]: [smart_nframes] and the rounding helpers it calls;
    - [Layer]: [lvu_qwen25_vl_decoder_layer_forward];
    - [Install]: the layer configurations [init_lvu_model] attaches;
    - [CachePos]: [_get_initial_cache_position];
    - [Driver]: [run_lvu_model] and [chat_lvu_model], over a world that
      holds the shared configuration, the cache files and a trace of the
      calls made;
    - [Fixture], [LayerFixture], [Scenario]: a small stand-in model and
      the inputs the properties are evaluated on.

    The model, the processor, the tokenizer and [post_process_kv_cache]
    are parameters. The properties come last. *)

From Stdlib Require Import ZArith List Bool String Ascii Lia.
From Stdlib Require Import Floats.SpecFloat.
From stdpp Require Import base option list strings pretty gmap.

Set Default Proof Using "Type".
Local Open Scope Z_scope.

(* ===================================================================== *)
(** * Exceptions and the result monad                                     *)
(* ===================================================================== *)

Module Py.

(** The exception classes the module raises or lets through. *)
Inductive exn : Type :=
| AssertionError (msg : string)
| ValueError (msg : string)
| TypeError
| ZeroDivisionError
| OverflowError
| KeyError (key : string)
| IndexError
| RuntimeError (msg : string).

Inductive result (A : Type) : Type :=
| Ok (a : A)
| Raise (e : exn).
Arguments Ok {A} a.
Arguments Raise {A} e.

#[export] Instance result_ret : MRet result := fun A a => Ok a.
#[export] Instance result_bind : MBind result := fun A B f m =>
  match m with
  | Ok a => f a
  | Raise e => Raise e
  end.
#[export] Instance result_fmap : FMap result := fun A B f m =>
  match m with
  | Ok a => Ok (f a)
  | Raise e => Raise e
  end.

Definition is_ok {A} (r : result A) : bool :=
  match r with Ok _ => true | Raise _ => false end.

(** [assert cond, msg] *)
Definition py_assert (cond : bool) (msg : string) : result unit :=
  if cond then Ok tt else Raise (AssertionError msg).

End Py.
Export Py.

(* ===================================================================== *)
(** * Python numbers                                                      *)
(* ===================================================================== *)

Module PyNum.

(** CPython's [float] is IEEE 754 binary64. *)
Definition prec : Z := 53.
Definition emax : Z := 1024.

Inductive pynum : Type :=
| PInt (z : Z)
| PFloat (f : spec_float).

(** [float(z)]: correctly rounded, [OverflowError] beyond the range. *)
Definition float_of_int (z : Z) : result spec_float :=
  match binary_normalize prec emax z 0 false with
  | S754_infinity _ => Raise OverflowError
  | f => Ok f
  end.

Definition float_is_zero (f : spec_float) : bool :=
  match f with S754_zero _ => true | _ => false end.

(** An integer as an (unnormalised) significand with exponent 0. *)
Definition raw_of_int (z : Z) : spec_float :=
  match z with
  | Z0 => S754_zero false
  | Zpos p => S754_finite false p 0
  | Zneg p => S754_finite true p 0
  end.

(** [a / b] on two ints: the quotient is rounded once, from the exact
    integers ([long_true_divide]). *)
Definition truediv_int (a b : Z) : result spec_float :=
  if b =? 0 then Raise ZeroDivisionError
  else match a with
       | Z0 => Ok (S754_zero (b <? 0))
       | _ => match SFdiv prec emax (raw_of_int a) (raw_of_int b) with
              | S754_infinity _ => Raise OverflowError
              | f => Ok f
              end
       end.

(** [x / y] on two floats ([float_div]). *)
Definition truediv_float (x y : spec_float) : result spec_float :=
  if float_is_zero y then Raise ZeroDivisionError
  else Ok (SFdiv prec emax x y).

Definition to_float (a : pynum) : result spec_float :=
  match a with
  | PInt z => float_of_int z
  | PFloat f => Ok f
  end.

(** [a / b]: always a float. *)
Definition truediv (a b : pynum) : result spec_float :=
  match a, b with
  | PInt x, PInt y => truediv_int x y
  | _, _ => x ← to_float a; y ← to_float b; truediv_float x y
  end.

(** [a * b] *)
Definition mul (a b : pynum) : result pynum :=
  match a, b with
  | PInt x, PInt y => Ok (PInt (x * y))
  | _, _ => x ← to_float a; y ← to_float b; Ok (PFloat (SFmul prec emax x y))
  end.

(** The exact value of a number: NaN, an infinity, or [m * 2^e]. *)
Inductive xval : Type :=
| XNaN
| XInf (neg : bool)
| XFin (m e : Z).

Definition xval_of_float (f : spec_float) : xval :=
  match f with
  | S754_nan => XNaN
  | S754_infinity s => XInf s
  | S754_zero _ => XFin 0 0
  | S754_finite s m e => XFin (cond_Zopp s (Zpos m)) e
  end.

Definition xval_of (a : pynum) : xval :=
  match a with
  | PInt z => XFin z 0
  | PFloat f => xval_of_float f
  end.

(** Exact three-way comparison; [None] when a NaN is involved. Python
    compares an int with a float by value, without rounding the int. *)
Definition xcompare (x y : xval) : option comparison :=
  match x, y with
  | XNaN, _ | _, XNaN => None
  | XInf s1, XInf s2 =>
      Some (match s1, s2 with
            | true, false => Lt
            | false, true => Gt
            | _, _ => Eq
            end)
  | XInf s, XFin _ _ => Some (if s then Lt else Gt)
  | XFin _ _, XInf s => Some (if s then Gt else Lt)
  | XFin m1 e1, XFin m2 e2 =>
      let e := Z.min e1 e2 in
      Some ((m1 * 2 ^ (e1 - e)) ?= (m2 * 2 ^ (e2 - e)))
  end.

Definition compare (a b : pynum) : option comparison :=
  xcompare (xval_of a) (xval_of b).

(** [a < b], [a > b], [a <= b] *)
Definition ltb (a b : pynum) : bool :=
  match compare a b with Some Lt => true | _ => false end.
Definition gtb (a b : pynum) : bool := ltb b a.
Definition leb (a b : pynum) : bool :=
  match compare a b with Some (Lt | Eq) => true | _ => false end.

(** [min(a, b)] keeps its first argument unless the second is smaller;
    [max(a, b)] keeps its first argument unless the second is larger. *)
Definition min (a b : pynum) : pynum := if ltb b a then b else a.
Definition max (a b : pynum) : pynum := if gtb b a then b else a.

(** Rounding a finite [m * 2^e] to an integer. *)
Definition floor_fin (m e : Z) : Z :=
  if 0 <=? e then m * 2 ^ e else m / 2 ^ (- e).
Definition ceil_fin (m e : Z) : Z :=
  if 0 <=? e then m * 2 ^ e else - ((- m) / 2 ^ (- e)).
Definition trunc_fin (m e : Z) : Z :=
  if 0 <=? e then m * 2 ^ e else m ÷ 2 ^ (- e).
Definition round_half_even_fin (m e : Z) : Z :=
  if 0 <=? e then m * 2 ^ e
  else let d := 2 ^ (- e) in
       let q := m / d in
       let r := m mod d in
       match 2 * r ?= d with
       | Lt => q
       | Gt => q + 1
       | Eq => if Z.even q then q else q + 1
       end.

Definition to_int_with (rnd : Z -> Z -> Z) (a : pynum) : result Z :=
  match a with
  | PInt z => Ok z
  | PFloat f =>
      match xval_of_float f with
      | XNaN => Raise (ValueError "cannot convert float NaN to integer")
      | XInf _ => Raise OverflowError
      | XFin m e => Ok (rnd m e)
      end
  end.

(** [math.floor], [math.ceil], [int] and one-argument [round]. *)
Definition floor : pynum -> result Z := to_int_with floor_fin.
Definition ceil : pynum -> result Z := to_int_with ceil_fin.
Definition trunc : pynum -> result Z := to_int_with trunc_fin.
Definition round : pynum -> result Z := to_int_with round_half_even_fin.

(** Some float literals. *)
Definition f64 (m e : Z) : spec_float := binary_normalize prec emax m e false.

End PyNum.
Export PyNum(pynum, PInt, PFloat).

(* ===================================================================== *)
(** * Dicts                                                               *)
(* ===================================================================== *)

Module Dict.

(** A Python dict with string keys: the entries in insertion order, keys
    pairwise distinct. The order is observable ([items()] in the cache
    key of [chat_lvu_model]), so the entries are kept as a list. *)
Definition dict (V : Type) : Type := list (string * V).

Section Ops.
Context {V : Type}.

(** [d.get(k)] *)
Fixpoint get (k : string) (d : dict V) : option V :=
  match d with
  | [] => None
  | (k', v) :: d' => if String.eqb k k' then Some v else get k d'
  end.

(** [k in d] *)
Definition mem (k : string) (d : dict V) : bool :=
  match get k d with Some _ => true | None => false end.

(** [d.get(k, default)] *)
Definition get_default (k : string) (default : V) (d : dict V) : V :=
  match get k d with Some v => v | None => default end.

(** [d[k]] *)
Definition getitem (k : string) (d : dict V) : result V :=
  match get k d with Some v => Ok v | None => Raise (KeyError k) end.

(** [d[k] = v]: overwrite in place, or append a new entry. *)
Fixpoint set (k : string) (v : V) (d : dict V) : dict V :=
  match d with
  | [] => [(k, v)]
  | (k', v') :: d' =>
      if String.eqb k k' then (k, v) :: d' else (k', v') :: set k v d'
  end.
End Ops.

End Dict.
Export Dict(dict).

(** The values found in a vision-info entry and in the configuration. *)
Inductive value : Type :=
| VNone
| VStr (s : string)
| VNum (n : pynum).

(** Arithmetic on a value that is not a number is a [TypeError]. *)
Definition as_num (v : value) : result pynum :=
  match v with
  | VNum n => Ok n
  | _ => Raise TypeError
  end.

(* ===================================================================== *)
(** * Frame-count selection                                               *)
(* ===================================================================== *)

Module Vision.

(** The module-level constants of [qwen_vl_utils.vision_process] that the
    star-import brings into scope. *)
Record vision_consts : Type := {
  FRAME_FACTOR : Z;
  FPS : pynum;
  FPS_MIN_FRAMES : Z;
  FPS_MAX_FRAMES : Z;
}.

(** Their values in the library: [FRAME_FACTOR = 2], [FPS = 2.0],
    [FPS_MIN_FRAMES = 4], [FPS_MAX_FRAMES = 768]. *)
Definition qwen_vl_utils_consts : vision_consts := {|
  FRAME_FACTOR := 2;
  FPS := PFloat (PyNum.f64 2 0);
  FPS_MIN_FRAMES := 4;
  FPS_MAX_FRAMES := 768;
|}.

(** The library's rounding helpers:
    [round_by_factor(number, factor) = round(number / factor) * factor],
    [ceil_by_factor(number, factor) = math.ceil(number / factor) * factor],
    [floor_by_factor(number, factor) = math.floor(number / factor) * factor]. *)
Definition round_by_factor (number : pynum) (factor : Z) : result Z :=
  q ← PyNum.truediv number (PInt factor);
  r ← PyNum.round (PFloat q);
  Ok (r * factor).

Definition ceil_by_factor (number : pynum) (factor : Z) : result Z :=
  q ← PyNum.truediv number (PInt factor);
  r ← PyNum.ceil (PFloat q);
  Ok (r * factor).

Definition floor_by_factor (number : pynum) (factor : Z) : result Z :=
  q ← PyNum.truediv number (PInt factor);
  r ← PyNum.floor (PFloat q);
  Ok (r * factor).

Section SmartNframes.
Variable c : vision_consts.

(** The final range check of [smart_nframes]. *)
Definition check_range (nframes total_frames : Z) : result Z :=
  if negb ((FRAME_FACTOR c <=? nframes) && (nframes <=? total_frames))
  then Raise (ValueError "nframes should in interval [FRAME_FACTOR, total_frames]")
  else Ok nframes.

(** The [nframes] branch. *)
Definition nframes_branch (ele : dict value) (total_frames : Z) : result Z :=
  v ← Dict.getitem "nframes" ele;
  number ← as_num v;
  nframes ← round_by_factor number (FRAME_FACTOR c);
  Ok (Z.min nframes total_frames).

(** The [fps] branch. The warning logged when the raw count exceeds
    [total_frames] does not change the result and is left out. *)
Definition fps_branch (ele : dict value) (total_frames : Z)
    (video_fps : pynum) : result Z :=
  let fps := Dict.get_default "fps" (VNum (FPS c)) ele in
  lo ← as_num (Dict.get_default "min_frames" (VNum (PInt (FPS_MIN_FRAMES c))) ele);
  min_frames ← ceil_by_factor lo (FRAME_FACTOR c);
  hi ← as_num (Dict.get_default "max_frames"
                 (VNum (PInt (Z.min (FPS_MAX_FRAMES c) total_frames))) ele);
  max_frames ← floor_by_factor hi (FRAME_FACTOR c);
  per_fps ← PyNum.truediv (PInt total_frames) video_fps;
  fps ← as_num fps;
  nframes ← PyNum.mul (PFloat per_fps) fps;
  let nframes :=
    PyNum.min (PyNum.min (PyNum.max nframes (PInt min_frames)) (PInt max_frames))
              (PInt total_frames) in
  floor_by_factor nframes (FRAME_FACTOR c).

Definition smart_nframes (ele : dict value) (total_frames : Z)
    (video_fps : pynum) : result Z :=
  _ ← py_assert (negb (Dict.mem "fps" ele && Dict.mem "nframes" ele))
        "Only accept either `fps` or `nframes`";
  nframes ← (if Dict.mem "nframes" ele
             then nframes_branch ele total_frames
             else fps_branch ele total_frames video_fps);
  check_range nframes total_frames.
End SmartNframes.

End Vision.

(* ===================================================================== *)
(** * Configuration                                                       *)
(* ===================================================================== *)

(** [LVUConfig], the process-wide settings: the fields the module reads
    or writes, and the remaining fields of the dataclass kept as a dict. *)
Record LVUConfig : Type := {
  enable : bool;
  do_top_k_for_query : bool;
  fps : option pynum;
  num_frames : option pynum;
  extra_kwargs : option (dict value);
  cache_dir : option string;
  video_group_size : option Z;
  adaptive_local_attention : bool;
  use_tqdm : bool;
  other_fields : dict value;
}.

(** [lvu_config.enable = b] *)
Definition set_enable (b : bool) (cfg : LVUConfig) : LVUConfig := {|
  enable := b;
  do_top_k_for_query := do_top_k_for_query cfg;
  fps := fps cfg;
  num_frames := num_frames cfg;
  extra_kwargs := extra_kwargs cfg;
  cache_dir := cache_dir cfg;
  video_group_size := video_group_size cfg;
  adaptive_local_attention := adaptive_local_attention cfg;
  use_tqdm := use_tqdm cfg;
  other_fields := other_fields cfg;
|}.

(** [LVULayerConfig], one per decoder layer, written once by
    [init_lvu_model] and read afterwards. [lvu_config] is the shared
    configuration the layer refers to, read at the time of the call
    ([None] when the attribute is missing). *)
Record LVULayerConfig : Type := {
  layer_idx : Z;
  is_last_layer : bool;
  prune_for_next_layer : bool;
  lvu_config : option LVUConfig;
}.

(* ===================================================================== *)
(** * The patched decoder-layer forward                                   *)
(* ===================================================================== *)

Module Layer.

Section Forward.
(** Tensors are opaque: hidden states, attention mask, position ids,
    cache position, rotary embeddings, attention weights and the
    layer's key/value cache. *)
Context {T Mask Pos CPos PEmb AttnW KV : Type}.

(** What a layer receives and what it hands on as [hidden_states]:
    a plain tensor, or the 5-tuple left by a layer that pruned. *)
Inductive hidden : Type :=
| Plain (h : T)
| Pruned (h : T) (attention_mask : option Mask) (position_ids : option Pos)
         (cache_position : option CPos) (position_embeddings : option PEmb).

(** The elements of the returned tuple. *)
Inductive out_item : Type :=
| OHidden (h : hidden)
| OAttn (w : option AttnW)
| OPresent (kv : option KV).

(** The sublayers of the decoder layer, the residual addition, and
    [post_process_kv_cache] of [lvu.utils]. *)
Record sublayers : Type := {
  input_layernorm : T -> result T;
  self_attn :
    T -> option Mask -> option Pos -> option KV -> bool -> bool ->
    option CPos -> option PEmb -> result (T * option AttnW * option KV);
  add : T -> T -> result T;
  post_process_kv_cache :
    T -> option Mask -> option Pos -> option CPos -> option PEmb ->
    option AttnW -> option KV -> LVULayerConfig ->
    result (T * option Mask * option Pos * option CPos * option PEmb * option KV);
  post_attention_layernorm : T -> result T;
  mlp : T -> result T;
}.

Variable self : sublayers.

Definition lvu_qwen25_vl_decoder_layer_forward
    (self_lvu_layer_config : option LVULayerConfig)
    (hidden_states : hidden)
    (attention_mask : option Mask)
    (position_ids : option Pos)
    (past_key_value : option KV)
    (output_attentions use_cache : bool)
    (cache_position : option CPos)
    (position_embeddings : option PEmb) : result (list out_item) :=
  match self_lvu_layer_config ≫= lvu_config,
        self_lvu_layer_config with
  | Some lvu_config, Some lvu_layer_config =>
      let '(hidden_states, attention_mask, position_ids, cache_position,
            position_embeddings) :=
        match hidden_states with
        | Pruned h m p cp pe => (h, m, p, cp, pe)
        | Plain h =>
            (h, attention_mask, position_ids, cache_position, position_embeddings)
        end in
      let residual := hidden_states in
      hidden_states ← input_layernorm self hidden_states;
      '(hidden_states, self_attn_weights, present_key_value) ←
        self_attn self hidden_states attention_mask position_ids
          past_key_value output_attentions use_cache cache_position
          position_embeddings;
      hidden_states ← add self residual hidden_states;
      '(hidden_states, attention_mask, position_ids, cache_position,
        position_embeddings, present_key_value) ←
        post_process_kv_cache self hidden_states attention_mask position_ids
          cache_position position_embeddings self_attn_weights
          present_key_value lvu_layer_config;
      let residual := hidden_states in
      hidden_states ← post_attention_layernorm self hidden_states;
      hidden_states ← mlp self hidden_states;
      hidden_states ← add self residual hidden_states;
      let hidden_states :=
        if enable lvu_config && prune_for_next_layer lvu_layer_config
           && negb (is_last_layer lvu_layer_config)
        then Pruned hidden_states attention_mask position_ids cache_position
               position_embeddings
        else Plain hidden_states in
      let outputs := [OHidden hidden_states] in
      let outputs :=
        if output_attentions then outputs ++ [OAttn self_attn_weights]
        else outputs in
      let outputs :=
        if use_cache then outputs ++ [OPresent present_key_value]
        else outputs in
      Ok outputs
  | _, _ =>
      Raise (ValueError
        "LVUConfig is not set in the model. Please initialize the LVU model first.")
  end.
End Forward.

Arguments hidden : clear implicits.
Arguments out_item : clear implicits.
Arguments sublayers : clear implicits.

(** Whether a [hidden_states] value is a plain tensor. *)
Definition is_plain {T Mask Pos CPos PEmb} (h : hidden T Mask Pos CPos PEmb) : bool :=
  match h with Plain _ => true | Pruned _ _ _ _ _ => false end.

End Layer.

(* ===================================================================== *)
(** * Installing the patch                                                *)
(* ===================================================================== *)

Module Install.

(** The class of the model handed to [init_lvu_model]. *)
Inductive model_class : Type :=
| Qwen2_5_VLForConditionalGeneration
| Qwen2_5_VLModel
| OtherModel.

(** The layer configurations [init_lvu_model] attaches, one per decoder
    layer: [layer_idxs] lists [layer.self_attn.layer_idx] for each layer.
    [prune_default] is the dataclass default of the one field the
    constructor call leaves out. *)
Definition init_lvu_model (cls : model_class) (layer_idxs : list Z)
    (config : LVUConfig) (prune_default : bool) : result (list LVULayerConfig) :=
  match cls with
  | OtherModel =>
      Raise (ValueError
        "Model must be either Qwen2_5_VLForConditionalGeneration or Qwen2_5_VLModel")
  | _ =>
      Ok (imap (fun i idx =>
                  {| layer_idx := idx;
                     is_last_layer := (Z.of_nat i =? Z.of_nat (length layer_idxs) - 1);
                     prune_for_next_layer := prune_default;
                     lvu_config := Some config |})
               layer_idxs)
  end.

End Install.

(* ===================================================================== *)
(** * The initial cache position                                          *)
(* ===================================================================== *)

Module CachePos.

(** A [Cache] object as far as the function looks at it: whether it has a
    [get_seq_length] method and what the method returns. *)
Record cache_obj : Type := {
  has_get_seq_length : bool;
  get_seq_length : option nat;
}.

(** The values of [model_kwargs]. Tensors whose entries are not read are
    kept by shape. *)
Inductive kwarg : Type :=
| KNone
| KBool (b : bool)
| KEmbeds (batch seq dim : nat)          (* a 3-d float tensor *)
| KInt64 (data : list Z)                 (* a 1-d int64 tensor *)
| KLegacyCache (layers : list (list (list nat)))
                                         (* tuple of tuples of tensors, by shape *)
| KCache (c : cache_obj).

(** [torch.arange(n)], which [torch.ones(n).cumsum(0) - 1] spells. *)
Definition arange (n : nat) : list Z := Z.of_nat <$> seq 0 n.

(** [torch.ones_like(embeds[0, :, 0]).cumsum(0) - 1] *)
Definition positions_of_embeds (v : kwarg) : result (list Z) :=
  match v with
  | KEmbeds batch seq dim =>
      if ((0 <? batch) && (0 <? dim))%nat then Ok (arange seq)
      else Raise IndexError
  | _ => Raise TypeError
  end.

(** [torch.ones_like(input_ids[0, :]).cumsum(0) - 1], [input_ids] being a
    tensor of shape [(batch, seq)]. *)
Definition positions_of_input_ids (input_ids_shape : nat * nat) : result (list Z) :=
  let '(batch, seq) := input_ids_shape in
  if (0 <? batch)%nat then Ok (arange seq) else Raise IndexError.

(** [cache[0][0].shape[2]] on a cache that is not a [Cache] object. *)
Definition legacy_seq_length (v : kwarg) : result nat :=
  match v with
  | KLegacyCache layers =>
      match layers !! 0%nat ≫= (.!! 0%nat) with
      | Some shape =>
          match shape !! 2%nat with
          | Some n => Ok n
          | None => Raise IndexError
          end
      | None => Raise IndexError
      end
  | _ => Raise TypeError
  end.

(** The value of [past_length] when [past_key_values] is [cache]. *)
Definition past_length_of (cache : kwarg) : result nat :=
  match cache with
  | KCache c =>
      if has_get_seq_length c
      then match get_seq_length c with
           | Some n => Ok n
           | None => Ok 0%nat
           end
      else Ok 0%nat
  | _ => legacy_seq_length cache
  end.

(** [k in model_kwargs] and [model_kwargs[k]] *)
Definition kw_mem (k : string) (model_kwargs : gmap string kwarg) : bool :=
  match model_kwargs !! k with Some _ => true | None => false end.

Definition kw_getitem (k : string) (model_kwargs : gmap string kwarg) : result kwarg :=
  match model_kwargs !! k with Some v => Ok v | None => Raise (KeyError k) end.

(** The positions before the cached prefix is cut off: the three-way
    branch on the embeddings. *)
Definition initial_positions (is_encoder_decoder : bool)
    (input_ids_shape : nat * nat) (model_kwargs : gmap string kwarg)
    : result (list Z) :=
  if kw_mem "inputs_embeds" model_kwargs && negb is_encoder_decoder
  then kw_getitem "inputs_embeds" model_kwargs ≫= positions_of_embeds
  else if kw_mem "decoder_inputs_embeds" model_kwargs && is_encoder_decoder
  then kw_getitem "decoder_inputs_embeds" model_kwargs ≫= positions_of_embeds
  else positions_of_input_ids input_ids_shape.

(** The function returns the dict it was given, updated in place; here it
    returns the dict's new contents. *)
Definition _get_initial_cache_position (is_encoder_decoder : bool)
    (input_ids_shape : nat * nat) (model_kwargs : gmap string kwarg)
    : result (gmap string kwarg) :=
  if kw_mem "cache_position" model_kwargs then Ok model_kwargs
  else
    cache_position ← initial_positions is_encoder_decoder input_ids_shape model_kwargs;
    cache_position ←
      match model_kwargs !! "past_key_values"%string with
      | None | Some KNone => Ok cache_position
      | Some cache =>
          past_length ← past_length_of cache;
          Ok (drop past_length cache_position)
      end;
    Ok (<["cache_position"%string := KInt64 cache_position]> model_kwargs).

End CachePos.

(* ===================================================================== *)
(** * The chunked prefill driver                                          *)
(* ===================================================================== *)

Module Driver.

(** ** Messages *)

(** The [content] of a chat message: a string or a list of parts. *)
Inductive content : Type :=
| CText (text : string)
| CParts (parts : list (dict value)).

Record message : Type := {
  msg_role : string;
  msg_content : content;
}.

(** [extract_vision_info] of [qwen_vl_utils], on one conversation: the
    parts that carry an image or a video. *)
Definition is_vision_part (ele : dict value) : result bool :=
  if Dict.mem "image" ele || Dict.mem "image_url" ele || Dict.mem "video" ele
  then Ok true
  else
    ty ← Dict.getitem "type" ele;
    Ok (match ty with
        | VStr s => String.eqb s "image" || String.eqb s "image_url"
                    || String.eqb s "video"
        | _ => false
        end).

Fixpoint filter_vision (parts : list (dict value)) : result (list (dict value)) :=
  match parts with
  | [] => Ok []
  | ele :: parts' =>
      b ← is_vision_part ele;
      rest ← filter_vision parts';
      Ok (if b : bool then ele :: rest else rest)
  end.

Fixpoint extract_vision_info (messages : list message) : result (list (dict value)) :=
  match messages with
  | [] => Ok []
  | m :: messages' =>
      here ← match msg_content m with
             | CText _ => Ok []
             | CParts parts => filter_vision parts
             end;
      rest ← extract_vision_info messages';
      Ok (here ++ rest)
  end.

(** ** Tensors of the processor's output *)

(** [l[a:b]] for offsets [0 <= a], [0 <= b]. *)
Definition slice {A} (a b : nat) (l : list A) : list A := take (b - a) (drop a l).

(** [l[i]] *)
Definition index {A} (l : list A) (i : nat) : result A :=
  match l !! i with Some x => Ok x | None => Raise IndexError end.

(** [tensor.split(size)] along the first dimension: chunks of [size]
    rows, the last one shorter when the length is not a multiple. An empty
    tensor gives one empty chunk; a zero [size] is refused otherwise. *)
Fixpoint chunks {A} (fuel size : nat) (l : list A) : list (list A) :=
  match fuel, l with
  | O, _ | _, [] => []
  | S fuel', _ => take size l :: chunks fuel' size (drop size l)
  end.

Definition split {A} (size : nat) (l : list A) : result (list (list A)) :=
  match l, size with
  | [], _ => Ok [[]]
  | _, O => Raise (RuntimeError "split_size can only be 0 if dimension size is 0")
  | _, _ => Ok (chunks (length l) size l)
  end.

(** [(ids == tok).sum()], and the first and last column where [ids == tok]
    (the row being the only one of the batch). *)
Definition count_token (tok : Z) (ids : list Z) : Z :=
  Z.of_nat (length (filter (fun x => x = tok) ids)).

Fixpoint first_index_from (tok : Z) (ids : list Z) (i : nat) : option nat :=
  match ids with
  | [] => None
  | x :: ids' => if x =? tok then Some i else first_index_from tok ids' (S i)
  end.

Fixpoint last_index_from (tok : Z) (ids : list Z) (i : nat) : option nat :=
  match ids with
  | [] => None
  | x :: ids' =>
      match last_index_from tok ids' (S i) with
      | Some j => Some j
      | None => if x =? tok then Some i else None
      end
  end.

Definition first_token_index (tok : Z) (ids : list Z) : result nat :=
  match first_index_from tok ids 0 with Some i => Ok i | None => Raise IndexError end.

Definition last_token_index (tok : Z) (ids : list Z) : result nat :=
  match last_index_from tok ids 0 with Some i => Ok i | None => Raise IndexError end.

(** [int(n * (part / whole))] on Python numbers: the ratio is a float, the
    product is a float, [int] truncates. *)
Definition proportional_share (n : pynum) (part whole : Z) : result Z :=
  ratio ← PyNum.truediv (PInt part) (PInt whole);
  scaled ← PyNum.mul n (PFloat ratio);
  PyNum.trunc scaled.

(** [int((part / whole) * n)], the product taken the other way round. *)
Definition proportional_size (part whole : Z) (n : pynum) : result Z :=
  ratio ← PyNum.truediv (PInt part) (PInt whole);
  scaled ← PyNum.mul (PFloat ratio) n;
  PyNum.trunc scaled.

Fixpoint mapM {A B} (f : A -> result B) (l : list A) : result (list B) :=
  match l with
  | [] => Ok []
  | x :: l' => y ← f x; ys ← mapM f l'; Ok (y :: ys)
  end.

Definition sumZ (l : list Z) : Z := foldr Z.add 0 l.

(** ** Collaborators and the world *)

Section Chat.
(** Opaque data: decoded images, video frames, the extra processor
    kwargs, pixel rows, the per-grid seconds, image grids, one column of
    rotary position ids, rope deltas, a key/value cache, one cached
    tensor, the generation kwargs. *)
Context {Img Frame VK PixRow SPG IGrid P RD KV KT GK : Type}.

(** What [torch.save] writes and [torch.load] reads back. *)
Record payload : Type := {
  image_inputs : option (list Img);
  video_inputs : list (list Frame);
  video_kwargs : VK;
}.

(** A file of the cache directory: what a [torch.save] that returned has
    written, or what one that raised on the way has left behind. *)
Inductive file : Type :=
| Saved (obj : payload)
| Truncated.

(** The processor's [BatchFeature] for the whole prompt (one row). *)
Record whole_inputs : Type := {
  input_ids : list Z;
  attention_mask : list Z;
  pixel_values_videos : list PixRow;
  video_grid_thw : list (Z * Z * Z);
  second_per_grid_ts : SPG;
  image_grid_thw : option IGrid;
}.

(** The kwargs of one prefill call and of the generation call. *)
Record group_inputs : Type := {
  g_video_grid_thw : list (Z * Z * Z);
  g_second_per_grid_ts : SPG;
  g_pixel_values_videos : list PixRow;
  g_input_ids : list Z;
  g_attention_mask : list Z;
  g_cache_position : list Z;
  g_position_ids : list P;
  g_use_cache : bool;
  g_past_key_values : option (option KV);   (* absent, or passed *)
}.

Record final_inputs : Type := {
  f_input_ids : list Z;
  f_attention_mask : list Z;
  f_cache_position : list Z;
  f_past_key_values : option KV;
}.

(** The model, the processor and the libraries, as the driver calls
    them. The model reads the shared configuration it is called under. *)
Record collaborators : Type := {
  video_token_id : Z;
  apply_chat_template : list message -> result string;
  process_vision_info : list message -> result payload;
  processor : string -> payload -> result whole_inputs;
  get_rope_index :
    list Z -> option IGrid -> list (Z * Z * Z) -> SPG -> list Z ->
    result (list P * RD);
  forward : LVUConfig -> group_inputs -> result KV;
  generate : LVUConfig -> final_inputs -> GK -> result (list (list Z));
  batch_decode : list (list Z) -> result (list string);
  (* how [torch.save(obj, path)] ends: [None] when it returns, [Some (e,
     created)] when it raises [e], with the file created by then or not *)
  torch_save_failure : payload -> string -> option (exn * bool);
  (* pathlib and string formatting *)
  path_stem : string -> string;
  expanduser : string -> string;
  path_join : string -> string -> string;
  format_value : value -> string;
  (* [int(t * ratio)] where [t] is a 0-d int64 tensor *)
  scale_tensor : Z -> spec_float -> result Z;
  (* the key/value cache *)
  kv_len : KV -> nat;
  kv_is_cache : KV -> bool;
  kv_layer_len : KV -> nat -> result nat;
  kv_getitem : KV -> nat -> nat -> result KT;
  kv_setitem : KV -> nat -> nat -> KT -> result KV;
  cache_update : KV -> KT -> KT -> nat -> result KV;
  cat_dim2 : KT -> KT -> result KT;
}.

(** What a run leaves behind, in order. *)
Inductive event : Type :=
| EMkdir (path : string)
| EDecode (messages : list message)
| ESave (path : string)
| ELoad (path : string)
| EForward (cfg : LVUConfig) (inputs : group_inputs)
| EGenerate (cfg : LVUConfig) (inputs : final_inputs).

(** The mutable state a chat turn runs in: the shared configuration
    object, the cache files on disk, [model.rope_deltas], and the trace
    of calls (most recent last). *)
Record world : Type := {
  w_config : LVUConfig;
  w_files : gmap string file;
  w_rope_deltas : option RD;
  w_trace : list event;
}.

Definition M (A : Type) : Type := world -> result A * world.

#[export] Instance M_ret : MRet M := fun A a w => (Ok a, w).
#[export] Instance M_bind : MBind M := fun A B f m w =>
  match m w with
  | (Ok a, w') => f a w'
  | (Raise e, w') => (Raise e, w')
  end.

(** Run a pure, fallible computation. *)
Definition lift {A} (r : result A) : M A := fun w => (r, w).

Definition get_config : M LVUConfig := fun w => (Ok (w_config w), w).

Definition put_config (cfg : LVUConfig) : M unit := fun w =>
  (Ok tt, {| w_config := cfg; w_files := w_files w;
             w_rope_deltas := w_rope_deltas w; w_trace := w_trace w |}).

Definition emit (e : event) : M unit := fun w =>
  (Ok tt, {| w_config := w_config w; w_files := w_files w;
             w_rope_deltas := w_rope_deltas w; w_trace := w_trace w ++ [e] |}).

Definition set_rope_deltas (rd : RD) : M unit := fun w =>
  (Ok tt, {| w_config := w_config w; w_files := w_files w;
             w_rope_deltas := Some rd; w_trace := w_trace w |}).

(** [path.exists()], [path.stat()], [torch.load(path)] *)
Definition file_exists (path : string) : M bool := fun w =>
  (Ok (bool_decide (is_Some (w_files w !! path))), w).

Definition file_stat (path : string) : M unit := fun w =>
  match w_files w !! path with
  | Some _ => (Ok tt, w)
  | None => (Raise (RuntimeError "No such file or directory"), w)
  end.

Definition torch_load (path : string) : M payload := fun w =>
  match w_files w !! path with
  | Some (Saved p) => (Ok p, w)
  | Some Truncated =>
      (Raise (RuntimeError "PytorchStreamReader failed reading zip archive"), w)
  | None => (Raise (RuntimeError "No such file or directory"), w)
  end.

(** The world with [f] at [path]. *)
Definition write_file (path : string) (f : file) (w : world) : world :=
  {| w_config := w_config w; w_files := <[path := f]> (w_files w);
     w_rope_deltas := w_rope_deltas w; w_trace := w_trace w |}.

Variable self : collaborators.

(** [torch.save(obj, path)]: the whole object is on disk when it returns;
    when it raises, the file it had opened by then stays behind. *)
Definition torch_save (obj : payload) (path : string) : M unit := fun w =>
  match torch_save_failure self obj path with
  | None => (Ok tt, write_file path (Saved obj) w)
  | Some (e, created) =>
      (Raise e, if created then write_file path Truncated w else w)
  end.

(** ** Frame extraction through the on-disk cache *)

(** The suffix of the cache key: [_k=v] for every entry of the vision
    info other than [type] and [video], in insertion order. *)
Fixpoint cache_key_suffix (items : dict value) : string :=
  match items with
  | [] => ""
  | (k, v) :: items' =>
      (if String.eqb k "type" || String.eqb k "video" then ""
       else "_" ++ k ++ "=" ++ format_value self v)
      ++ cache_key_suffix items'
  end%string.

(** The cache directory and the cache file for [messages]. *)
Definition cache_paths_of (cfg : LVUConfig) (messages : list message)
    : result (string * string) :=
  let cache_dir :=
    match cache_dir cfg with
    | None | Some EmptyString => "~/.cache/video_cache/qwen25_vl"%string
    | Some d => d
    end in
  vision_info ← extract_vision_info messages;
  _ ← py_assert (length vision_info =? 1)%nat "Only one video is supported for now.";
  info ← index vision_info 0;
  video ← Dict.getitem "video" info;
  video_path ← match video with VStr s => Ok s | _ => Raise TypeError end;
  let cache_key := (path_stem self video_path ++ cache_key_suffix info)%string in
  let cache_dir := expanduser self cache_dir in
  Ok (cache_dir, path_join self cache_dir (cache_key ++ ".pt")%string).

(** Lines 251 to 279: decode and save on a miss, load on a hit. The
    progress messages printed on the way are left out; the size printed
    after the save is read with [stat]. *)
Definition extract_frames (messages : list message) : M payload :=
  lvu_config ← get_config;
  '(cache_dir, cache_file) ← lift (cache_paths_of lvu_config messages);
  _ ← emit (EMkdir cache_dir);
  found ← file_exists cache_file;
  if negb found then
    _ ← emit (EDecode messages);
    inputs ← lift (process_vision_info self messages);
    _ ← torch_save inputs cache_file;
    _ ← file_stat cache_file;
    _ ← emit (ESave cache_file);
    mret inputs
  else
    _ ← emit (ELoad cache_file);
    torch_load cache_file.

(** ** Splitting the video into groups (lines 305 to 327) *)

Record groups : Type := {
  video_groups : list (list Frame);
  video_groups_tokens : list Z;
  video_groups_grid_thw : list (list (Z * Z * Z));
  pixel_values_videos_groups : list (list PixRow);
}.

Definition len {A} (l : list A) : Z := Z.of_nat (length l).

(** The branch taken for a positive [video_group_size]. *)
Definition split_by_size (video_group_size : Z)
    (video_inputs : list (list Frame)) (whole : whole_inputs)
    (n_video_tokens : Z) : result groups :=
  video ← index video_inputs 0;
  video_groups ← split (Z.to_nat video_group_size) video;
  _ ← py_assert (forallb (fun group => len group mod 2 =? 0) video_groups)
        "The video group size should be even.";
  video_groups_tokens ←
    mapM (fun group =>
            proportional_share (PInt n_video_tokens) (len group) (len video))
         video_groups;
  video_grid_thw ← index (video_grid_thw whole) 0;
  let '(t, h, w) := video_grid_thw in
  video_groups_grid_thw ←
    mapM (fun group =>
            ratio ← PyNum.truediv (PInt (len group)) (PInt (len video));
            t' ← scale_tensor self t ratio;
            Ok [(t', h, w)])
         video_groups;
  pixel_values_videos_group_size ←
    proportional_size video_group_size (len video)
      (PInt (len (pixel_values_videos whole)));
  pixel_values_videos_groups ←
    (if pixel_values_videos_group_size <? 0
     then Raise (RuntimeError "split expects split_size be non-negative")
     else split (Z.to_nat pixel_values_videos_group_size)
                (pixel_values_videos whole));
  Ok {| video_groups := video_groups;
        video_groups_tokens := video_groups_tokens;
        video_groups_grid_thw := video_groups_grid_thw;
        pixel_values_videos_groups := pixel_values_videos_groups |}.

(** The branch taken otherwise: the whole video as one group. *)
Definition single_group (video_inputs : list (list Frame))
    (whole : whole_inputs) (n_video_tokens : Z) : result groups :=
  video ← index video_inputs 0;
  Ok {| video_groups := [video];
        video_groups_tokens := [n_video_tokens];
        video_groups_grid_thw := [video_grid_thw whole];
        pixel_values_videos_groups := [pixel_values_videos whole] |}.

Definition split_groups (lvu_config : LVUConfig)
    (video_inputs : list (list Frame)) (whole : whole_inputs)
    (n_video_tokens : Z) : result groups :=
  _ ← py_assert (length video_inputs <=? 1)%nat "Only one video is supported for now.";
  match video_group_size lvu_config with
  | Some video_group_size =>
      if 0 <? video_group_size
      then split_by_size video_group_size video_inputs whole n_video_tokens
      else single_group video_inputs whole n_video_tokens
  | None => single_group video_inputs whole n_video_tokens
  end.

(** ** The prefill loop (lines 336 to 382) *)

Fixpoint foldM {A S} (body : A -> S -> result S) (l : list A) (s : S) : result S :=
  match l with
  | [] => Ok s
  | x :: l' => s' ← body x s; foldM body l' s'
  end.

(** Lines 375 to 381: fold the cache of one group into the running
    cache, through [update] on a [Cache] object and through
    concatenation along the sequence axis otherwise. *)
Definition merge_cache (past_key_values out : KV) : result KV :=
  if kv_is_cache self out then
    foldM (fun i past =>
             k ← kv_getitem self out i 0%nat;
             v ← kv_getitem self out i 1%nat;
             cache_update self past k v i)
          (seq 0 (kv_len self out)) past_key_values
  else
    foldM (fun i past =>
             n ← kv_layer_len self out i;
             foldM (fun j past =>
                      a ← kv_getitem self past i j;
                      b ← kv_getitem self out i j;
                      ab ← cat_dim2 self a b;
                      kv_setitem self past i j ab)
                   (seq 0 n) past)
          (seq 0 (kv_len self out)) past_key_values.

(** [not past_key_values] *)
Definition cache_is_falsy (past_key_values : option KV) : bool :=
  match past_key_values with
  | None => true
  | Some kv => (kv_len self kv =? 0)%nat
  end.

(** One iteration of the loop, for group [i] with pixel rows
    [pixel_values_videos_groups_i]. The state is [(past_key_values,
    past_len)]. Token counts are never negative, so the slice bounds
    are plain offsets. *)
Definition prefill_group (whole : whole_inputs) (position_ids : list P)
    (gr : groups) (i : nat) (pixel_values_videos_groups_i : list PixRow)
    (st : option KV * nat) : M (option KV * nat) :=
  let '(past_key_values, past_len) := st in
  grid_i ← lift (index (video_groups_grid_thw gr) i);
  stop ← lift
    (if (i =? 0)%nat then
       first_video_token_id_idx ←
         first_token_index (video_token_id self) (input_ids whole);
       n ← index (video_groups_tokens gr) i;
       Ok (past_len + first_video_token_id_idx + Z.to_nat n)%nat
     else
       n_video_tokens ← index (video_groups_tokens gr) i;
       Ok (past_len + Z.to_nat n_video_tokens)%nat);
  let ids := slice past_len stop (input_ids whole) in
  let mask := slice past_len stop (attention_mask whole) in
  let cache_position :=
    (fun k => k + Z.of_nat past_len) <$> CachePos.arange (length ids) in
  let pos := slice past_len (past_len + length ids) position_ids in
  let past_len := (past_len + length ids)%nat in
  lvu_config ← get_config;
  let inputs := {|
    g_video_grid_thw := grid_i;
    g_second_per_grid_ts := second_per_grid_ts whole;
    g_pixel_values_videos := pixel_values_videos_groups_i;
    g_input_ids := ids;
    g_attention_mask := mask;
    g_cache_position := cache_position;
    g_position_ids := pos;
    g_use_cache := true;
    g_past_key_values :=
      if adaptive_local_attention lvu_config then Some past_key_values else None;
  |} in
  _ ← emit (EForward lvu_config inputs);
  out ← lift (forward self lvu_config inputs);
  if adaptive_local_attention lvu_config then
    mret (Some out, past_len)
  else if cache_is_falsy past_key_values then
    mret (Some out, past_len)
  else
    merged ← lift (match past_key_values with
                   | Some past => merge_cache past out
                   | None => Raise TypeError
                   end);
    mret (Some merged, past_len).

Fixpoint prefill_loop (whole : whole_inputs) (position_ids : list P)
    (gr : groups) (i : nat) (pixel_groups : list (list PixRow))
    (st : option KV * nat) : M (option KV * nat) :=
  match pixel_groups with
  | [] => mret st
  | pixel_i :: rest =>
      st' ← prefill_group whole position_ids gr i pixel_i st;
      prefill_loop whole position_ids gr (S i) rest st'
  end.

(** ** The final generation (lines 384 to 405) *)

(** Lines 385 to 392: the kwargs of the generation call. *)
Definition final_inputs_of (whole : whole_inputs)
    (past_key_values : option KV) (past_len : nat) : final_inputs :=
  let ids := drop past_len (input_ids whole) in
  {| f_input_ids := ids;
     f_attention_mask := drop past_len (attention_mask whole);
     f_cache_position :=
       (fun k => k + Z.of_nat past_len) <$> CachePos.arange (length ids);
     f_past_key_values := past_key_values |}.

Definition final_generation (whole : whole_inputs)
    (past_key_values : option KV) (past_len : nat) (generation_kwargs : GK)
    : M (list string) :=
  _ ← lift (py_assert (past_len <? length (input_ids whole))%nat
              "The past length should be less than the final input length.");
  let final := final_inputs_of whole past_key_values past_len in
  lvu_config ← get_config;
  let cache_enable := enable lvu_config in
  _ ← put_config (set_enable (do_top_k_for_query lvu_config) lvu_config);
  during ← get_config;
  _ ← emit (EGenerate during final);
  generated_ids ← lift (generate self during final generation_kwargs);
  lvu_config ← get_config;
  _ ← put_config (set_enable cache_enable lvu_config);
  let generated_ids_trimmed :=
    zip_with (fun in_ids out_ids => drop (length in_ids) out_ids)
             [f_input_ids final] generated_ids in
  lift (batch_decode self generated_ids_trimmed).

(** ** The whole turn *)

(** Everything before the final assertion: the state the loop ends in. *)
Definition prefill (messages : list message)
    : M (whole_inputs * option KV * nat) :=
  text ← lift (apply_chat_template self messages);
  inputs ← extract_frames messages;
  whole ← lift (processor self text inputs);
  let n_video_tokens := count_token (video_token_id self) (input_ids whole) in
  last_video_token_id_idx ←
    lift (last_token_index (video_token_id self) (input_ids whole));
  let video_input_ids := take (S last_video_token_id_idx) (input_ids whole) in
  let video_attention_mask := take (S last_video_token_id_idx) (attention_mask whole) in
  '(position_ids, rope_deltas) ←
    lift (get_rope_index self video_input_ids (image_grid_thw whole)
            (video_grid_thw whole) (second_per_grid_ts whole) video_attention_mask);
  _ ← set_rope_deltas rope_deltas;
  lvu_config ← get_config;
  gr ← lift (split_groups lvu_config (video_inputs inputs) whole n_video_tokens);
  '(past_key_values, past_len) ←
    prefill_loop whole position_ids gr 0 (pixel_values_videos_groups gr) (None, 0%nat);
  mret (whole, past_key_values, past_len).

Definition chat_lvu_model (messages : list message) (generation_kwargs : GK)
    : M (list string) :=
  '(whole, past_key_values, past_len) ← prefill messages;
  final_generation whole past_key_values past_len generation_kwargs.

(** ** [run_lvu_model] *)

(** The [video_content] dict, or the error for a configuration with
    neither [fps] nor [num_frames]. *)
Definition video_content_of (lvu_config : LVUConfig) (video_path : string)
    : result (dict value) :=
  let fps := fps lvu_config in
  let num_frames := num_frames lvu_config in
  let extra_kwargs := default [] (extra_kwargs lvu_config) in
  let max_pixels := Dict.get_default "max_pixels" (VNum (PInt (360 * 420))) extra_kwargs in
  let min_pixels := Dict.get_default "min_pixels" VNone extra_kwargs in
  let video_content := [("type", VStr "video"); ("video", VStr video_path)]%string in
  let video_content :=
    match max_pixels with
    | VNone => video_content
    | _ => Dict.set "max_pixels" max_pixels video_content
    end in
  let video_content :=
    match min_pixels with
    | VNone => video_content
    | _ => Dict.set "min_pixels" min_pixels video_content
    end in
  match fps, num_frames with
  | Some fps, _ => Ok (Dict.set "fps" (VNum fps) video_content)
  | None, Some num_frames => Ok (Dict.set "nframes" (VNum num_frames) video_content)
  | None, None => Raise (ValueError "Either fps or num_frames should be set.")
  end.

Definition messages_of (video_content : dict value) (question : string)
    : list message :=
  [{| msg_role := "user";
      msg_content :=
        CParts [video_content;
                [("type", VStr "text"); ("text", VStr question)]%string] |}].

Definition run_lvu_model (question video_path : string) (generation_kwargs : GK)
    : M (list string) :=
  lvu_config ← get_config;
  video_content ← lift (video_content_of lvu_config video_path);
  chat_lvu_model (messages_of video_content question) generation_kwargs.

End Chat.

Arguments payload : clear implicits.
Arguments file : clear implicits.
Arguments whole_inputs : clear implicits.
Arguments group_inputs : clear implicits.
Arguments final_inputs : clear implicits.
Arguments collaborators : clear implicits.
Arguments event : clear implicits.
Arguments world : clear implicits.
Arguments groups : clear implicits.

End Driver.

(* ===================================================================== *)
(** * A small stand-in model                                              *)
(* ===================================================================== *)

(** Concrete collaborators on which the driver can be run: a video file
    of 300 frames at 30 frames per second, a processor that lays out the
    video tokens of every pair of frames between a two-token prefix and
    [trailing], and a two-layer model whose cache records the positions it
    has seen. *)
Module Fixture.
Import Driver.

Definition KV : Type := list (list Z * list Z).

Definition total_frames : Z := 300.
Definition native_fps : pynum := PFloat (PyNum.f64 30 0).
Definition video_token : Z := 151656.

(** [fetch_video] as far as the frame count goes: [smart_nframes] decides
    how many frames are sampled. *)
Definition decode (messages : list message) : result (payload unit unit unit) :=
  vision_info ← extract_vision_info messages;
  ele ← index vision_info 0;
  nframes ← Vision.smart_nframes Vision.qwen_vl_utils_consts ele total_frames native_fps;
  Ok {| image_inputs := None;
        video_inputs := [replicate (Z.to_nat nframes) tt];
        video_kwargs := tt |}.

(** The processor: patches of 14 by 14 pixels, frames taken in pairs,
    2 by 2 patches merged into one video token. [grid_h] and [grid_w]
    count the patches of a resized frame. *)
Definition tokenize (grid_h grid_w : Z) (trailing : list Z)
    (text : string) (inputs : payload unit unit unit)
    : result (whole_inputs unit unit unit) :=
  video ← index (video_inputs inputs) 0;
  let grid_t := (length video / 2)%nat in
  let tokens_per_grid := Z.to_nat ((grid_h / 2) * (grid_w / 2)) in
  let ids := [1; 2] ++ replicate (grid_t * tokens_per_grid) video_token ++ trailing in
  Ok {| input_ids := ids;
        attention_mask := replicate (length ids) 1;
        pixel_values_videos := replicate (grid_t * Z.to_nat (grid_h * grid_w)) tt;
        video_grid_thw := [(Z.of_nat grid_t, grid_h, grid_w)];
        second_per_grid_ts := tt;
        image_grid_thw := None |}.

Definition both_layers (positions : list Z) : KV :=
  [(positions, positions); (positions, positions)].

Definition run_forward (cfg : LVUConfig) (inputs : group_inputs unit unit Z KV)
    : result KV :=
  match g_past_key_values inputs with
  | Some (Some past) =>
      Ok ((fun layer : list Z * list Z =>
             (layer.1 ++ g_cache_position inputs, layer.2 ++ g_cache_position inputs))
          <$> past)
  | _ => Ok (both_layers (g_cache_position inputs))
  end.

Definition run_generate (cfg : LVUConfig) (inputs : final_inputs KV) (gk : unit)
    : result (list (list Z)) :=
  Ok [f_input_ids inputs ++ [if enable cfg then 7 else 8; 9]].

Definition format (v : value) : string :=
  match v with
  | VNone => "None"
  | VStr s => s
  | VNum (PInt z) => pretty z
  | VNum (PFloat _) => "float"
  end.

Definition kv_get (kv : KV) (i j : nat) : result (list Z) :=
  layer ← index kv i;
  match j with
  | O => Ok layer.1
  | S O => Ok layer.2
  | _ => Raise IndexError
  end.

Definition kv_set (kv : KV) (i j : nat) (x : list Z) : result KV :=
  layer ← index kv i;
  match j with
  | O => Ok (<[i := (x, layer.2)]> kv)
  | S O => Ok (<[i := (layer.1, x)]> kv)
  | _ => Raise IndexError
  end.

Definition kv_update (kv : KV) (k v : list Z) (i : nat) : result KV :=
  match kv !! i with
  | Some layer => Ok (<[i := (layer.1 ++ k, layer.2 ++ v)]> kv)
  | None => if (i =? length kv)%nat then Ok (kv ++ [(k, v)]) else Raise IndexError
  end.

Definition model (grid_h grid_w : Z) (trailing : list Z)
    : collaborators unit unit unit unit unit unit Z unit KV (list Z) unit := {|
  video_token_id := video_token;
  apply_chat_template := fun _ => Ok "<prompt>"%string;
  process_vision_info := decode;
  processor := tokenize grid_h grid_w trailing;
  get_rope_index := fun ids _ _ _ _ => Ok (CachePos.arange (length ids), tt);
  forward := run_forward;
  generate := run_generate;
  batch_decode := fun rows => Ok ((fun row => pretty (sumZ row)) <$> rows);
  torch_save_failure := fun _ _ => None;
  path_stem := fun s => s;
  expanduser := fun s => s;
  path_join := fun a b => (a ++ "/" ++ b)%string;
  format_value := format;
  scale_tensor := fun t ratio =>
    PyNum.mul (PInt t) (PFloat ratio) ≫= PyNum.trunc;
  kv_len := length;
  kv_is_cache := fun _ => true;
  kv_layer_len := fun _ _ => Ok 2%nat;
  kv_getitem := kv_get;
  kv_setitem := kv_set;
  cache_update := kv_update;
  cat_dim2 := fun a b => Ok (a ++ b);
|}.

(** A configuration with nothing set but the flags. *)
Definition base_config : LVUConfig := {|
  enable := true;
  do_top_k_for_query := false;
  fps := None;
  num_frames := None;
  extra_kwargs := None;
  cache_dir := None;
  video_group_size := None;
  adaptive_local_attention := true;
  use_tqdm := false;
  other_fields := [("top_k"%string, VNum (PInt 64))];
|}.

Definition with_frames (fps num_frames : option pynum) (group_size : option Z)
    (cfg : LVUConfig) : LVUConfig := {|
  enable := enable cfg;
  do_top_k_for_query := do_top_k_for_query cfg;
  fps := fps;
  num_frames := num_frames;
  extra_kwargs := extra_kwargs cfg;
  cache_dir := cache_dir cfg;
  video_group_size := group_size;
  adaptive_local_attention := adaptive_local_attention cfg;
  use_tqdm := use_tqdm cfg;
  other_fields := other_fields cfg;
|}.

(** A fresh process: nothing cached on disk, nothing traced. *)
Definition fresh (cfg : LVUConfig) : world unit unit unit unit unit Z unit KV := {|
  w_config := cfg;
  w_files := ∅;
  w_rope_deltas := None;
  w_trace := [];
|}.

End Fixture.

(** A decoder layer whose sublayers are the identity on integer
    "tensors", and a configuration that asks for pruning everywhere. *)
Module LayerFixture.

Definition identity_layer : Layer.sublayers Z unit unit unit unit unit unit := {|
  Layer.input_layernorm := fun h => Ok h;
  Layer.self_attn := fun h _ _ past _ _ _ _ => Ok (h, Some tt, past);
  Layer.add := fun a b => Ok (a + b);
  Layer.post_process_kv_cache := fun h m p cp pe _ kv _ => Ok (h, m, p, cp, pe, kv);
  Layer.post_attention_layernorm := fun h => Ok h;
  Layer.mlp := fun h => Ok h;
|}.

Definition pruning_layer_config (last : bool) : LVULayerConfig := {|
  layer_idx := 27;
  is_last_layer := last;
  prune_for_next_layer := true;
  lvu_config := Some Fixture.base_config;
|}.

End LayerFixture.

(* ===================================================================== *)
(** * Specification vocabulary                                            *)
(* ===================================================================== *)

(** [r] is the largest multiple of [factor] within [[lo, hi]]. *)
Definition largest_multiple_within (factor lo hi r : Z) : Prop :=
  (factor | r) /\ lo <= r <= hi /\
  forall m : Z, (factor | m) -> lo <= m <= hi -> m <= r.

(** The number of times [model.generate] was entered in a trace, and the
    number of times the video was decoded. *)
Definition is_generate {PixRow SPG P KV} (e : Driver.event PixRow SPG P KV) : bool :=
  match e with Driver.EGenerate _ _ => true | _ => false end.

Definition is_decode {PixRow SPG P KV} (e : Driver.event PixRow SPG P KV) : bool :=
  match e with Driver.EDecode _ => true | _ => false end.

Definition generate_calls {PixRow SPG P KV}
    (trace : list (Driver.event PixRow SPG P KV)) : nat :=
  length (List.filter is_generate trace).

Definition decode_calls {PixRow SPG P KV}
    (trace : list (Driver.event PixRow SPG P KV)) : nat :=
  length (List.filter is_decode trace).

Module CachePosSpec.
Import CachePos.

(** The length of the input the prefill runs over: the sequence axis of
    [inputs_embeds] for a decoder-only model that was given embeddings, of
    [decoder_inputs_embeds] for an encoder-decoder that was given them,
    and of [input_ids] otherwise. *)
Inductive input_length (is_encoder_decoder : bool) (input_ids_shape : nat * nat)
    (model_kwargs : gmap string kwarg) : nat -> Prop :=
| length_of_inputs_embeds batch seq dim :
    is_encoder_decoder = false ->
    model_kwargs !! "inputs_embeds"%string = Some (KEmbeds batch seq dim) ->
    (0 < batch)%nat -> (0 < dim)%nat ->
    input_length is_encoder_decoder input_ids_shape model_kwargs seq
| length_of_decoder_inputs_embeds batch seq dim :
    is_encoder_decoder = true ->
    model_kwargs !! "decoder_inputs_embeds"%string = Some (KEmbeds batch seq dim) ->
    (0 < batch)%nat -> (0 < dim)%nat ->
    input_length is_encoder_decoder input_ids_shape model_kwargs seq
| length_of_input_ids :
    (if is_encoder_decoder
     then model_kwargs !! "decoder_inputs_embeds"%string = None
     else model_kwargs !! "inputs_embeds"%string = None) ->
    (0 < input_ids_shape.1)%nat ->
    input_length is_encoder_decoder input_ids_shape model_kwargs input_ids_shape.2.

(** The physical sequence length of the cache already in [model_kwargs]:
    zero without a cache, the sequence axis of the first layer's keys for
    a tuple cache, and what [get_seq_length] reports for a [Cache] object
    (zero when it reports nothing). *)
Inductive physical_length (model_kwargs : gmap string kwarg) : nat -> Prop :=
| no_cache :
    model_kwargs !! "past_key_values"%string = None \/
    model_kwargs !! "past_key_values"%string = Some KNone ->
    physical_length model_kwargs 0
| tuple_cache layers layer keys seq :
    model_kwargs !! "past_key_values"%string = Some (KLegacyCache layers) ->
    layers !! 0%nat = Some layer -> layer !! 0%nat = Some keys ->
    keys !! 2%nat = Some seq ->
    physical_length model_kwargs seq
| cache_object c seq :
    model_kwargs !! "past_key_values"%string = Some (KCache c) ->
    has_get_seq_length c = true -> get_seq_length c = Some seq ->
    physical_length model_kwargs seq
| silent_cache_object c :
    model_kwargs !! "past_key_values"%string = Some (KCache c) ->
    has_get_seq_length c = false \/ get_seq_length c = None ->
    physical_length model_kwargs 0.

End CachePosSpec.

(** How the driver's runs are described. *)
Module DriverSpec.
Import Driver.

Section Vocabulary.
Context {Img Frame VK PixRow SPG P RD KV : Type}.
Abbreviation world := (Driver.world Img Frame VK PixRow SPG P RD KV).

(** A computation is quiet when it leaves the shared configuration alone
    and never enters [model.generate]. *)
Definition quiet {A} (m : M A) : Prop :=
  forall (w w' : world) (r : result A),
    m w = (r, w') ->
    w_config w' = w_config w /\
    generate_calls (w_trace w') = generate_calls (w_trace w).

(** The world [model.generate] is entered in, coming from [w]: the enable
    flag holds the do-top-k-for-query value and the call is traced. *)
Definition toggled (final : final_inputs KV) (w : world) : world := {|
  w_config := set_enable (do_top_k_for_query (w_config w)) (w_config w);
  w_files := w_files w;
  w_rope_deltas := w_rope_deltas w;
  w_trace := w_trace w ++
    [EGenerate (set_enable (do_top_k_for_query (w_config w)) (w_config w)) final];
|}.

(** The world after the flag is put back. *)
Definition restored (final : final_inputs KV) (w : world) : world := {|
  w_config := w_config w;
  w_files := w_files w;
  w_rope_deltas := w_rope_deltas w;
  w_trace := w_trace (toggled final w);
|}.
End Vocabulary.

End DriverSpec.

(* ===================================================================== *)
(** * Scenarios                                                           *)
(* ===================================================================== *)

Module Scenario.

(** The request of the spec's second frame-count example. *)
Definition ele_nframes_7 : dict value := [("nframes"%string, VNum (PInt 7))].

(** The request of the spec's first frame-count example. *)
Definition ele_fps_2 : dict value :=
  [("fps"%string, VNum (PInt 2));
   ("min_frames"%string, VNum (PInt 4));
   ("max_frames"%string, VNum (PInt 50))].

(** A configuration with both a frame rate and a frame count. *)
Definition config_with_both : LVUConfig :=
  Fixture.with_frames (Some (PInt 2)) (Some (PInt 4)) None Fixture.base_config.

(** Four frames in groups of two. *)
Definition config_small : LVUConfig :=
  Fixture.with_frames None (Some (PInt 4)) (Some 2) Fixture.base_config.

(** Thirty frames in groups of twenty-two: a group of 22 and one of 8. *)
Definition config_30_by_22 : LVUConfig :=
  Fixture.with_frames None (Some (PInt 30)) (Some 22) Fixture.base_config.

(** What the processor returns for those thirty frames at 280 by 504
    pixels (a 1280 by 720 video under the default [max_pixels]): a grid of
    15 by 20 by 36 patches, 180 video tokens per pair of frames, 2700 in
    all, between a two-token prefix and a two-token question. *)
Definition video_30 : list unit := replicate 30 tt.

Definition whole_30 : Driver.whole_inputs unit unit unit := {|
  Driver.input_ids :=
    [1; 2] ++ replicate (Z.to_nat 2700) Fixture.video_token ++ [5; 6];
  Driver.attention_mask := replicate (Z.to_nat 2704) 1;
  Driver.pixel_values_videos := replicate (Z.to_nat 10800) tt;
  Driver.video_grid_thw := [(15, 20, 36)];
  Driver.second_per_grid_ts := tt;
  Driver.image_grid_thw := None;
|}.

End Scenario.

(* ===================================================================== *)
(** * Further vocabulary                                                  *)
(* ===================================================================== *)

(** Reading a trace: the prefill calls and the token ids the model was
    fed, in order. *)
Module TraceSpec.
Import Driver.

Section Reading.
Context {PixRow SPG P KV : Type}.

(** The kwargs of the prefill calls of a trace. *)
Fixpoint forward_calls (trace : list (event PixRow SPG P KV))
    : list (group_inputs PixRow SPG P KV) :=
  match trace with
  | [] => []
  | EForward _ inputs :: trace' => inputs :: forward_calls trace'
  | _ :: trace' => forward_calls trace'
  end.

(** The token ids handed to the model, by [model(...)] and by
    [model.generate(...)], in the order of the calls. *)
Fixpoint fed_ids (trace : list (event PixRow SPG P KV)) : list Z :=
  match trace with
  | [] => []
  | EForward _ inputs :: trace' => g_input_ids inputs ++ fed_ids trace'
  | EGenerate _ inputs :: trace' => f_input_ids inputs ++ fed_ids trace'
  | _ :: trace' => fed_ids trace'
  end.

(** The cache positions handed to the model, in the order of the calls. *)
Fixpoint fed_positions (trace : list (event PixRow SPG P KV)) : list Z :=
  match trace with
  | [] => []
  | EForward _ inputs :: trace' => g_cache_position inputs ++ fed_positions trace'
  | EGenerate _ inputs :: trace' => f_cache_position inputs ++ fed_positions trace'
  | _ :: trace' => fed_positions trace'
  end.
End Reading.

Section Worlds.
Context {Img Frame VK PixRow SPG P RD KV : Type}.

(** The world after the prefill calls [calls], made one after the other
    under the configuration of [w]. *)
Definition after_calls (w : world Img Frame VK PixRow SPG P RD KV)
    (calls : list (group_inputs PixRow SPG P KV))
    : world Img Frame VK PixRow SPG P RD KV := {|
  w_config := w_config w;
  w_files := w_files w;
  w_rope_deltas := w_rope_deltas w;
  w_trace := w_trace w ++ (EForward (w_config w) <$> calls);
|}.

(** A computation keeps the files when it leaves the cache directory as it
    found it, whatever its outcome. *)
Definition keeps_files {A} (m : @M Img Frame VK PixRow SPG P RD KV A) : Prop :=
  forall (w w' : world Img Frame VK PixRow SPG P RD KV) (r : result A),
    m w = (r, w') -> w_files w' = w_files w.
End Worlds.

End TraceSpec.

(** The [max_pixels] and [min_pixels] a configuration asks for: what
    [extra_kwargs] gives, 360 * 420 for a missing [max_pixels], and nothing
    where the value is [None]. *)
Definition requested_pixels (lvu_config : LVUConfig) : option value * option value :=
  let extra := default [] (extra_kwargs lvu_config) in
  (match Dict.get "max_pixels" extra with
   | None => Some (VNum (PInt 151200))
   | Some VNone => None
   | Some v => Some v
   end,
   match Dict.get "min_pixels" extra with
   | None | Some VNone => None
   | Some v => Some v
   end).

(** A stand-in for [pathlib]: the stem of a path is its last component
    without the last suffix. *)
Module PathFixture.
Import Driver.

Definition slash : ascii := "/"%char.
Definition dot : ascii := "."%char.

(** The characters after the last [sep], or all of them. *)
Fixpoint after_last (sep : ascii) (s : list ascii) : list ascii :=
  match s with
  | [] => []
  | c :: s' =>
      if bool_decide (sep ∈ s') then after_last sep s'
      else if Ascii.eqb c sep then s' else s
  end.

(** The characters before the last [sep]. *)
Fixpoint before_last (sep : ascii) (s : list ascii) : list ascii :=
  match s with
  | [] => []
  | c :: s' => if bool_decide (sep ∈ s') then c :: before_last sep s' else []
  end.

(** [PurePath.stem]: the name up to its last dot, when that dot is
    neither the first nor the last character of the name. *)
Definition stem (path : string) : string :=
  let name := after_last slash (list_ascii_of_string path) in
  match name with
  | [] => ""
  | first :: rest =>
      if bool_decide (dot ∈ rest) && negb (bool_decide (last name = Some dot))
      then string_of_list_ascii (first :: before_last dot rest)
      else string_of_list_ascii name
  end.

(** The stand-in model of [Fixture], with this stem. *)
Definition model : collaborators unit unit unit unit unit unit Z unit Fixture.KV (list Z) unit :=
  let base := Fixture.model 2 6 [5; 6] in {|
  video_token_id := video_token_id base;
  apply_chat_template := apply_chat_template base;
  process_vision_info := process_vision_info base;
  processor := processor base;
  get_rope_index := get_rope_index base;
  forward := forward base;
  generate := generate base;
  batch_decode := batch_decode base;
  torch_save_failure := torch_save_failure base;
  path_stem := stem;
  expanduser := expanduser base;
  path_join := path_join base;
  format_value := format_value base;
  scale_tensor := scale_tensor base;
  kv_len := kv_len base;
  kv_is_cache := kv_is_cache base;
  kv_layer_len := kv_layer_len base;
  kv_getitem := kv_getitem base;
  kv_setitem := kv_setitem base;
  cache_update := cache_update base;
  cat_dim2 := cat_dim2 base;
|}.

End PathFixture.

(** The stand-in model of [Fixture] where a collaborator fails: a
    [model.generate] that raises when [generate_error] is given, a
    [torch.save] that ends as [save_failure] says. *)
Module FailingFixture.
Import Driver.

Definition model (generate_error : option exn) (save_failure : option (exn * bool))
    : collaborators unit unit unit unit unit unit Z unit Fixture.KV (list Z) unit :=
  let base := Fixture.model 2 6 [5; 6] in {|
  video_token_id := video_token_id base;
  apply_chat_template := apply_chat_template base;
  process_vision_info := process_vision_info base;
  processor := processor base;
  get_rope_index := get_rope_index base;
  forward := forward base;
  generate := fun cfg inputs generation_kwargs =>
    match generate_error with
    | Some e => Raise e
    | None => generate base cfg inputs generation_kwargs
    end;
  batch_decode := batch_decode base;
  torch_save_failure := fun _ _ => save_failure;
  path_stem := path_stem base;
  expanduser := expanduser base;
  path_join := path_join base;
  format_value := format_value base;
  scale_tensor := scale_tensor base;
  kv_len := kv_len base;
  kv_is_cache := kv_is_cache base;
  kv_layer_len := kv_layer_len base;
  kv_getitem := kv_getitem base;
  kv_setitem := kv_setitem base;
  cache_update := cache_update base;
  cat_dim2 := cat_dim2 base;
|}.

Definition out_of_memory : exn := RuntimeError "CUDA out of memory".
Definition disk_full : exn := RuntimeError "No space left on device".

End FailingFixture.

(* ===================================================================== *)
(** * Properties                                                          *)
(* ===================================================================== *)

(** ** The result monad *)

Section ResultFacts.
Context {A B : Type}.

Lemma bind_Ok_inv (m : result A) (f : A -> result B) (b : B) :
  m ≫= f = Ok b -> exists a, m = Ok a /\ f a = Ok b.
Proof. destruct m as [a|e]; simpl; [eauto | discriminate]. Qed.

Lemma bind_Raise_inv (m : result A) (f : A -> result B) (e : exn) :
  m ≫= f = Raise e -> m = Raise e \/ exists a, m = Ok a /\ f a = Raise e.
Proof. destruct m as [a|e']; simpl; [eauto | intros [= ->]; auto]. Qed.

Lemma py_assert_Ok_inv (cond : bool) (msg : string) (u : unit) :
  py_assert cond msg = Ok u -> cond = true.
Proof. destruct cond; [reflexivity | discriminate]. Qed.
End ResultFacts.

(** Peel the leading bind of a hypothesis [m ≫= f = Ok b]. *)
Ltac bind_inv H :=
  let a := fresh "a" in
  let Ha := fresh "H" a in
  apply bind_Ok_inv in H; destruct H as (a & Ha & H).

(** ** Frame-count selection *)

Section SmartNframesFacts.
Import Vision.
Variable c : vision_consts.

Lemma round_by_factor_divide number factor n :
  round_by_factor number factor = Ok n -> (factor | n).
Proof.
  unfold round_by_factor. intros H. bind_inv H. bind_inv H.
  injection H as <-. apply Z.divide_factor_r.
Qed.

Lemma floor_by_factor_divide number factor n :
  floor_by_factor number factor = Ok n -> (factor | n).
Proof.
  unfold floor_by_factor. intros H. bind_inv H. bind_inv H.
  injection H as <-. apply Z.divide_factor_r.
Qed.

Lemma check_range_Ok_inv nframes total_frames n :
  check_range c nframes total_frames = Ok n ->
  n = nframes /\ FRAME_FACTOR c <= n <= total_frames.
Proof.
  unfold check_range.
  destruct (FRAME_FACTOR c <=? nframes) eqn:Hlo;
    destruct (nframes <=? total_frames) eqn:Hhi; simpl; try discriminate.
  intros [= <-]. apply Z.leb_le in Hlo, Hhi. auto.
Qed.

Lemma check_range_Raise_iff nframes total_frames :
  (exists e, check_range c nframes total_frames = Raise e) <->
  ~ (FRAME_FACTOR c <= nframes <= total_frames).
Proof.
  unfold check_range.
  destruct (FRAME_FACTOR c <=? nframes) eqn:Hlo;
    destruct (nframes <=? total_frames) eqn:Hhi; simpl;
    try apply Z.leb_le in Hlo; try apply Z.leb_le in Hhi;
    try apply Z.leb_gt in Hlo; try apply Z.leb_gt in Hhi;
    split; try (intros [e He]; discriminate); try lia; eauto.
Qed.

Lemma nframes_branch_shape ele total_frames n :
  nframes_branch c ele total_frames = Ok n ->
  (FRAME_FACTOR c | n) \/ n = total_frames.
Proof.
  unfold nframes_branch. intros H. do 3 bind_inv H. injection H as <-.
  apply round_by_factor_divide in Ha1.
  destruct (Z.min_spec a1 total_frames) as [[_ ->]|[_ ->]]; auto.
Qed.

Lemma fps_branch_divide ele total_frames video_fps n :
  fps_branch c ele total_frames video_fps = Ok n -> (FRAME_FACTOR c | n).
Proof.
  unfold fps_branch. intros H. do 7 bind_inv H.
  eapply floor_by_factor_divide; eassumption.
Qed.
End SmartNframesFacts.

(** C3 (as amended). Whenever [smart_nframes] returns, the count lies in
    [[FRAME_FACTOR, total_frames]]; in the fps branch it is a multiple of
    [FRAME_FACTOR], and in the explicit-nframes branch it is a multiple of
    [FRAME_FACTOR] or [total_frames] itself (the clamp added after the
    rounding). *)
Theorem smart_nframes_returns_in_range
    (c : Vision.vision_consts) (ele : dict value) (total_frames : Z)
    (video_fps : pynum) (n : Z) :
  Vision.smart_nframes c ele total_frames video_fps = Ok n ->
  Vision.FRAME_FACTOR c <= n <= total_frames /\
  (Dict.mem "nframes" ele = false -> (Vision.FRAME_FACTOR c | n)) /\
  (Dict.mem "nframes" ele = true ->
   (Vision.FRAME_FACTOR c | n) \/ n = total_frames).
Proof.
  unfold Vision.smart_nframes. intros H. do 2 bind_inv H.
  apply check_range_Ok_inv in H as [-> Hrange].
  split; [exact Hrange|].
  destruct (Dict.mem "nframes" ele) eqn:Hmem.
  - split; [discriminate|]. intros _.
    eapply nframes_branch_shape; eassumption.
  - split; [|discriminate]. intros _.
    eapply fps_branch_divide; eassumption.
Qed.

(** C3, second half: a computed count outside the interval is never
    returned; the range check raises. *)
Lemma smart_nframes_out_of_range_raises
    (c : Vision.vision_consts) (nframes total_frames : Z) :
  ~ (Vision.FRAME_FACTOR c <= nframes <= total_frames) ->
  exists e, Vision.check_range c nframes total_frames = Raise e.
Proof. intros H. by apply check_range_Raise_iff. Qed.

(** C3 as stated fails: with [nframes = 7] and [total_frames = 5] the
    function returns 5, which is not a multiple of [FRAME_FACTOR = 2]. *)
Lemma smart_nframes_odd_result (video_fps := PFloat (PyNum.f64 30 0)) :
  Vision.smart_nframes Vision.qwen_vl_utils_consts Scenario.ele_nframes_7 5 video_fps
    = Ok 5 /\
  ~ (Vision.FRAME_FACTOR Vision.qwen_vl_utils_consts | 5).
Proof.
  split; [vm_compute; reflexivity|].
  intros [k Hk]. simpl in Hk. lia.
Qed.

Lemma smart_nframes_returns_in_range_witness :
  Vision.smart_nframes Vision.qwen_vl_utils_consts Scenario.ele_fps_2 100 (PInt 10)
    = Ok 20 /\
  (2 <= 20 <= 100 /\
   (Dict.mem "nframes" Scenario.ele_fps_2 = false -> (2 | 20)) /\
   (Dict.mem "nframes" Scenario.ele_fps_2 = true -> (2 | 20) \/ 20 = 100)).
Proof.
  split; [vm_compute; reflexivity|].
  apply (smart_nframes_returns_in_range Vision.qwen_vl_utils_consts
           Scenario.ele_fps_2 100 (PInt 10) 20).
  vm_compute; reflexivity.
Defined.

(** C4. With [nframes = 7] requested and [total_frames = 5], the result is
    [min(round_by_factor(7, FRAME_FACTOR), 5)], that is [min(8, 5) = 5],
    whatever the video's frame rate. *)
Theorem smart_nframes_7_of_5 (video_fps : pynum) :
  Vision.round_by_factor (PInt 7) 2 = Ok 8 /\
  Vision.smart_nframes Vision.qwen_vl_utils_consts Scenario.ele_nframes_7 5 video_fps
    = Ok (Z.min 8 5).
Proof. split; vm_compute; reflexivity. Qed.

(** C5. With [total_frames = 100], [video_fps = 10], [fps = 2],
    [min_frames = 4] and [max_frames = 50] the result is the largest
    multiple of [FRAME_FACTOR] that is at most 20 and at least 4 (it is
    20); the same holds when the two rates are given as floats. *)
Theorem smart_nframes_fps_example :
  let c := Vision.qwen_vl_utils_consts in
  let ele_float : dict value :=
    Dict.set "fps" (VNum (PFloat (PyNum.f64 2 0))) Scenario.ele_fps_2 in
  exists r : Z,
    Vision.smart_nframes c Scenario.ele_fps_2 100 (PInt 10) = Ok r /\
    Vision.smart_nframes c ele_float 100 (PFloat (PyNum.f64 10 0)) = Ok r /\
    largest_multiple_within (Vision.FRAME_FACTOR c) 4 20 r.
Proof.
  exists 20. split; [vm_compute; reflexivity|].
  split; [vm_compute; reflexivity|].
  split; [exists 10; reflexivity|].
  split; [lia|]. intros m _ Hm. lia.
Qed.

(** ** The patched layer forward *)

(** Case analysis on the next call in a hypothesis about a chain of
    binds in the result monad. *)
Ltac next_call H :=
  match type of H with
  | context [mbind _ ?m] =>
      let E := fresh "Hcall" in
      destruct m as [?|?] eqn:E; simpl in H; [|discriminate H]
  end.

Section LayerFacts.
Import Layer.
Context {T Mask Pos CPos PEmb AttnW KV : Type}.
Variable self : sublayers T Mask Pos CPos PEmb AttnW KV.

(** The first element of the returned tuple. *)
Lemma forward_head lc hs am pid pkv oa uc cp pe outs :
  lvu_qwen25_vl_decoder_layer_forward self (Some lc) hs am pid pkv oa uc cp pe
    = Ok outs ->
  exists cfg h m p c e rest,
    lvu_config lc = Some cfg /\
    outs = OHidden (if enable cfg && prune_for_next_layer lc
                       && negb (is_last_layer lc)
                    then Pruned h m p c e else Plain h) :: rest.
Proof.
  unfold lvu_qwen25_vl_decoder_layer_forward. simpl.
  destruct (lvu_config lc) as [cfg|]; [|discriminate].
  intros H.
  destruct hs as [h0|h0 m0 p0 c0 e0]; simpl in H;
    repeat (next_call H; repeat case_match; simplify_eq/=);
    do 7 eexists; (split; [reflexivity|]);
    repeat match goal with E : _ && _ = _ |- _ => rewrite E end;
    reflexivity.
  Unshelve. all: exact None.
Qed.

Lemma forward_needs_config hs am pid pkv oa uc cp pe :
  lvu_qwen25_vl_decoder_layer_forward self None hs am pid pkv oa uc cp pe
    = Raise (ValueError
        "LVUConfig is not set in the model. Please initialize the LVU model first.").
Proof. reflexivity. Qed.
End LayerFacts.

(** C1. For the last decoder layer, whatever the pruning configuration
    (enable flag, [prune_for_next_layer]) and whether the input is a plain
    tensor or a 5-tuple, the first element of the returned tuple is a plain
    hidden-state tensor, never a 5-tuple. *)
Theorem last_layer_returns_plain_hidden
    {T Mask Pos CPos PEmb AttnW KV : Type}
    (self : Layer.sublayers T Mask Pos CPos PEmb AttnW KV)
    (lvu_layer_config : LVULayerConfig)
    (hidden_states : Layer.hidden T Mask Pos CPos PEmb)
    (attention_mask : option Mask) (position_ids : option Pos)
    (past_key_value : option KV) (output_attentions use_cache : bool)
    (cache_position : option CPos) (position_embeddings : option PEmb)
    (outputs : list (Layer.out_item T Mask Pos CPos PEmb AttnW KV)) :
  is_last_layer lvu_layer_config = true ->
  Layer.lvu_qwen25_vl_decoder_layer_forward self (Some lvu_layer_config)
    hidden_states attention_mask position_ids past_key_value
    output_attentions use_cache cache_position position_embeddings
    = Ok outputs ->
  exists h rest, outputs = Layer.OHidden (Layer.Plain h) :: rest.
Proof.
  intros Hlast H.
  apply forward_head in H as (cfg & h & m & p & c & e & rest & _ & ->).
  rewrite Hlast, andb_false_r. eauto.
Qed.

Lemma last_layer_returns_plain_hidden_witness :
  let outputs : list (Layer.out_item Z unit unit unit unit unit unit) :=
    [Layer.OHidden (Layer.Plain 20); Layer.OAttn (Some tt); Layer.OPresent None] in
  Layer.lvu_qwen25_vl_decoder_layer_forward LayerFixture.identity_layer
    (Some (LayerFixture.pruning_layer_config true))
    (Layer.Pruned 5 None None None None) None None None true true None None
    = Ok outputs /\
  exists h rest, outputs = Layer.OHidden (Layer.Plain h) :: rest.
Proof.
  split; [reflexivity|].
  apply (last_layer_returns_plain_hidden LayerFixture.identity_layer
           (LayerFixture.pruning_layer_config true)
           (Layer.Pruned 5 None None None None) None None None true true None None);
    reflexivity.
Defined.

(** A layer that is not the last one does hand on the 5-tuple under the
    same configuration. *)
Example inner_layer_returns_tuple :
  Layer.lvu_qwen25_vl_decoder_layer_forward LayerFixture.identity_layer
    (Some (LayerFixture.pruning_layer_config false))
    (Layer.Plain 5) None None None false false None None
    = Ok [Layer.OHidden (Layer.Pruned 20 None None None None)].
Proof. reflexivity. Qed.

(** [init_lvu_model] marks exactly the layer at the last index. *)
Lemma init_lvu_model_marks_last cls layer_idxs config prune_default configs i lc :
  Install.init_lvu_model cls layer_idxs config prune_default = Ok configs ->
  configs !! i = Some lc ->
  is_last_layer lc = bool_decide (S i = length layer_idxs).
Proof.
  unfold Install.init_lvu_model. intros H Hi.
  assert (configs = imap (fun i idx =>
            {| layer_idx := idx;
               is_last_layer := (Z.of_nat i =? Z.of_nat (length layer_idxs) - 1);
               prune_for_next_layer := prune_default;
               lvu_config := Some config |}) layer_idxs) as ->
    by (destruct cls; congruence).
  rewrite list_lookup_imap in Hi.
  destruct (layer_idxs !! i) as [idx|]; simpl in Hi; [|discriminate].
  injection Hi as <-. simpl.
  case_bool_decide; [apply Z.eqb_eq | apply Z.eqb_neq]; lia.
Qed.

(** ** The initial cache position *)

Section CachePosFacts.
Import CachePos CachePosSpec.
Variable is_encoder_decoder : bool.
Variable input_ids_shape : nat * nat.
Variable model_kwargs : gmap string kwarg.

Lemma positions_of_embeds_Ok v l :
  positions_of_embeds v = Ok l <->
  exists batch seq dim,
    v = KEmbeds batch seq dim /\ (0 < batch)%nat /\ (0 < dim)%nat /\ l = arange seq.
Proof.
  split.
  - destruct v; simpl; try discriminate.
    destruct (0 <? batch)%nat eqn:Hb; destruct (0 <? dim)%nat eqn:Hd;
      simpl; try discriminate.
    intros [= <-]. apply Nat.ltb_lt in Hb, Hd. eauto 10.
  - intros (batch & seq & dim & -> & Hb & Hd & ->). simpl.
    apply Nat.ltb_lt in Hb, Hd. by rewrite Hb, Hd.
Qed.

Lemma initial_positions_Ok l :
  initial_positions is_encoder_decoder input_ids_shape model_kwargs = Ok l <->
  exists n, input_length is_encoder_decoder input_ids_shape model_kwargs n /\
            l = arange n.
Proof.
  unfold initial_positions, kw_mem, kw_getitem. split.
  - destruct (model_kwargs !! "inputs_embeds"%string) as [v|] eqn:Hie;
      destruct is_encoder_decoder eqn:Henc; simpl;
      destruct (model_kwargs !! "decoder_inputs_embeds"%string) as [v'|] eqn:Hdie;
      simpl; intros H;
      try (apply positions_of_embeds_Ok in H
             as (batch & seq & dim & -> & Hb & Hd & ->);
           eexists; split; [|reflexivity];
           first [ by eapply length_of_inputs_embeds
                 | by eapply length_of_decoder_inputs_embeds ]);
      destruct input_ids_shape as [batch seq]; simpl in H;
      destruct (0 <? batch)%nat eqn:Hb; try discriminate;
      injection H as <-; apply Nat.ltb_lt in Hb;
      (exists seq; split; [|reflexivity]);
      by apply (length_of_input_ids _ (batch, seq)).
  - intros (n & Hlen & ->).
    destruct Hlen as [batch seq dim -> Hie Hb Hd
                     |batch seq dim -> Hdie Hb Hd
                     |Hnone Hb].
    + rewrite Hie. simpl. apply Nat.ltb_lt in Hb, Hd. by rewrite Hb, Hd.
    + rewrite Hdie. simpl. apply Nat.ltb_lt in Hb, Hd.
      destruct (model_kwargs !! "inputs_embeds"%string); simpl;
        by rewrite Hb, Hd.
    + destruct input_ids_shape as [batch seq]; simpl in *.
      apply Nat.ltb_lt in Hb.
      destruct is_encoder_decoder; rewrite Hnone; simpl.
      * destruct (model_kwargs !! "inputs_embeds"%string); simpl; by rewrite Hb.
      * destruct (model_kwargs !! "decoder_inputs_embeds"%string); simpl;
          by rewrite Hb.
Qed.

Lemma past_length_of_Ok cache n :
  model_kwargs !! "past_key_values"%string = Some cache -> cache <> KNone ->
  past_length_of cache = Ok n <-> physical_length model_kwargs n.
Proof.
  intros Hpkv Hnone. split.
  - destruct cache as [|b|batch seq dim|data|layers|c]; simpl;
      try discriminate; try congruence.
    + destruct (layers !! 0%nat) as [layer|] eqn:Hl; simpl; [|discriminate].
      destruct (layer !! 0%nat) as [keys|] eqn:Hk; simpl; [|discriminate].
      destruct (keys !! 2%nat) as [s|] eqn:Hs; [|discriminate].
      intros [= <-]. by eapply tuple_cache.
    + destruct (has_get_seq_length c) eqn:Hhas.
      * destruct (get_seq_length c) as [s|] eqn:Hget; intros [= <-].
        -- by eapply cache_object.
        -- eapply silent_cache_object; eauto.
      * intros [= <-]. eapply silent_cache_object; eauto.
  - intros Hphys.
    destruct Hphys as [[H|H]|layers layer keys s H Hl Hk Hs|c s H Hhas Hget|c H Hsilent];
      rewrite H in Hpkv; simplify_eq; simpl.
    + by rewrite Hl; simpl; rewrite Hk; simpl; rewrite Hs.
    + by rewrite Hhas, Hget.
    + destruct Hsilent as [->| ->]; [done|].
      by destruct (has_get_seq_length c).
Qed.
End CachePosFacts.

(** C10. When ["cache_position"] is already a key of [model_kwargs] the
    function returns [model_kwargs] as it is. Otherwise it returns exactly
    when the input length [n] and the physical length [past_length] of the
    existing cache are defined, and what it installs under
    ["cache_position"] is [arange(n)] with the first [past_length] entries
    dropped; no other entry changes. *)
Theorem initial_cache_position_spec
    (is_encoder_decoder : bool) (input_ids_shape : nat * nat)
    (model_kwargs : gmap string CachePos.kwarg) :
  (is_Some (model_kwargs !! "cache_position"%string) ->
   CachePos._get_initial_cache_position is_encoder_decoder input_ids_shape
     model_kwargs = Ok model_kwargs) /\
  (model_kwargs !! "cache_position"%string = None ->
   forall model_kwargs' : gmap string CachePos.kwarg,
     CachePos._get_initial_cache_position is_encoder_decoder input_ids_shape
       model_kwargs = Ok model_kwargs' <->
     exists n past_length : nat,
       CachePosSpec.input_length is_encoder_decoder input_ids_shape model_kwargs n /\
       CachePosSpec.physical_length model_kwargs past_length /\
       model_kwargs' =
         <["cache_position"%string :=
             CachePos.KInt64 (drop past_length (CachePos.arange n))]> model_kwargs).
Proof.
  unfold CachePos._get_initial_cache_position.
  split.
  - unfold CachePos.kw_mem at 1. intros [v ->]. reflexivity.
  - unfold CachePos.kw_mem at 1. intros -> model_kwargs'.
    split.
    + intros H. bind_inv H. bind_inv H. injection H as <-.
      apply initial_positions_Ok in Ha as (n & Hlen & ->).
      destruct (model_kwargs !! "past_key_values"%string) as [cache|] eqn:Hpkv.
      * assert (cache = CachePos.KNone \/ cache <> CachePos.KNone) as [->|Hne]
          by (destruct cache; auto; right; discriminate).
        -- injection Ha0 as <-. exists n, 0%nat.
           split; [done|]. split; [|done]. apply CachePosSpec.no_cache; auto.
        -- assert (exists p, CachePos.past_length_of cache = Ok p /\
                             a0 = drop p (CachePos.arange n)) as (p & Hp & ->).
           { destruct cache; try done;
               (bind_inv Ha0; injection Ha0 as <-; eauto). }
           exists n, p. split; [done|]. split; [|done].
           by eapply past_length_of_Ok.
      * injection Ha0 as <-. exists n, 0%nat.
        split; [done|]. split; [|done]. apply CachePosSpec.no_cache; auto.
    + intros (n & p & Hlen & Hphys & ->).
      assert (Hpos : CachePos.initial_positions is_encoder_decoder input_ids_shape
                       model_kwargs = Ok (CachePos.arange n))
        by (apply initial_positions_Ok; eauto).
      rewrite Hpos. simpl.
      destruct (model_kwargs !! "past_key_values"%string) as [cache|] eqn:Hpkv.
      * assert (cache = CachePos.KNone \/ cache <> CachePos.KNone) as [->|Hne]
          by (destruct cache; auto; right; discriminate).
        -- inversion Hphys; simplify_eq; try done.
        -- eapply past_length_of_Ok in Hphys; [|done..].
           destruct cache; try done; by rewrite Hphys.
      * inversion Hphys; simplify_eq; done.
Qed.

Lemma initial_cache_position_spec_witness :
  let cache := CachePos.KCache
    {| CachePos.has_get_seq_length := true; CachePos.get_seq_length := Some 3%nat |} in
  let model_kwargs : gmap string CachePos.kwarg :=
    {[ "past_key_values"%string := cache ]} in
  let installed : gmap string CachePos.kwarg :=
    <["cache_position"%string := CachePos.KInt64 [3; 4]]> model_kwargs in
  CachePos._get_initial_cache_position false (1%nat, 5%nat) model_kwargs
    = Ok installed /\
  CachePos._get_initial_cache_position false (1%nat, 5%nat) installed
    = Ok installed.
Proof.
  intros cache model_kwargs installed. split.
  - apply (proj2 (initial_cache_position_spec false (1%nat, 5%nat) model_kwargs)).
    + reflexivity.
    + exists 5%nat, 3%nat. split; [|split; [|reflexivity]].
      * apply (CachePosSpec.length_of_input_ids false (1%nat, 5%nat));
          [reflexivity | simpl; lia].
      * eapply CachePosSpec.cache_object; reflexivity.
  - apply (proj1 (initial_cache_position_spec false (1%nat, 5%nat) installed)).
    eexists. reflexivity.
Defined.

(** ** [run_lvu_model] and the frame-rate settings *)

Section RunFacts.
Import Driver.
Context {Img Frame VK PixRow SPG IGrid P RD KV KT GK : Type}.
Variable self : collaborators Img Frame VK PixRow SPG IGrid P RD KV KT GK.

(** Setting a key that is not there adds it and keeps the others. *)
Lemma dict_mem_set {V} (k k' : string) (v : V) (d : dict V) :
  Dict.mem k' (Dict.set k v d) = (String.eqb k' k || Dict.mem k' d).
Proof.
  unfold Dict.mem. induction d as [|[k0 v0] d IH]; simpl.
  - by destruct (String.eqb k' k).
  - destruct (String.eqb k k0) eqn:Hk; simpl.
    + apply String.eqb_eq in Hk as ->.
      by destruct (String.eqb k' k0).
    + destruct (String.eqb k' k0) eqn:Hk'; simpl.
      * by rewrite orb_true_r.
      * exact IH.
Qed.

(** Before the frame settings are added, [video_content] holds neither
    ["fps"] nor ["nframes"]. *)
Lemma video_content_of_keys lvu_config video_path video_content :
  video_content_of lvu_config video_path = Ok video_content ->
  Dict.mem "fps" video_content = bool_decide (is_Some (fps lvu_config)) /\
  Dict.mem "nframes" video_content = bool_decide (fps lvu_config = None).
Proof.
  unfold video_content_of.
  set (base := match Dict.get_default "min_pixels" _ _ with
               | VNone => _ | _ => _ end).
  assert (Hbase : Dict.mem "fps" base = false /\ Dict.mem "nframes" base = false).
  { subst base.
    destruct (Dict.get_default "min_pixels" _ _);
      destruct (Dict.get_default "max_pixels" _ _);
      rewrite ?dict_mem_set; by split. }
  destruct Hbase as [Hfps Hnf].
  destruct (fps lvu_config) as [f|], (num_frames lvu_config) as [n|];
    intros [= <-]; rewrite !dict_mem_set, ?Hfps, ?Hnf; try done.
Qed.
Lemma dict_get_set_eq {V} (k : string) (v : V) (d : dict V) :
  Dict.get k (Dict.set k v d) = Some v.
Proof.
  induction d as [|[k0 v0] d IH]; simpl.
  - by rewrite String.eqb_refl.
  - destruct (String.eqb k k0) eqn:Hk; simpl.
    + by rewrite String.eqb_refl.
    + by rewrite Hk.
Qed.

Lemma run_lvu_model_unfold question video_path generation_kwargs
    (w : world Img Frame VK PixRow SPG P RD KV) :
  run_lvu_model self question video_path generation_kwargs w =
  match video_content_of (w_config w) video_path with
  | Ok video_content =>
      chat_lvu_model self (messages_of video_content question) generation_kwargs w
  | Raise e => (Raise e, w)
  end.
Proof.
  unfold run_lvu_model, get_config, lift, mbind, M_bind. simpl.
  by destruct (video_content_of (w_config w) video_path).
Qed.
End RunFacts.

(** C8 (as amended). [run_lvu_model] raises a configuration error when
    neither [fps] nor [num_frames] is set. When [fps] is set, with or
    without [num_frames], it raises nothing of its own: the request it
    builds carries ["fps"] and no ["nframes"], and the turn goes on to
    [chat_lvu_model]. The error for both settings at once is the assertion
    of [smart_nframes], which fires on a request holding both keys. *)
Theorem run_lvu_model_frame_settings
    {Img Frame VK PixRow SPG IGrid P RD KV KT GK : Type}
    (self : Driver.collaborators Img Frame VK PixRow SPG IGrid P RD KV KT GK)
    (question video_path : string) (generation_kwargs : GK)
    (w : Driver.world Img Frame VK PixRow SPG P RD KV) :
  (fps (Driver.w_config w) = None -> num_frames (Driver.w_config w) = None ->
   Driver.run_lvu_model self question video_path generation_kwargs w =
     (Raise (ValueError "Either fps or num_frames should be set."), w)) /\
  (forall rate : pynum, fps (Driver.w_config w) = Some rate ->
   exists video_content : dict value,
     Driver.video_content_of (Driver.w_config w) video_path = Ok video_content /\
     Dict.get "fps" video_content = Some (VNum rate) /\
     Dict.mem "nframes" video_content = false /\
     Driver.run_lvu_model self question video_path generation_kwargs w =
       Driver.chat_lvu_model self (Driver.messages_of video_content question)
         generation_kwargs w) /\
  (forall (c : Vision.vision_consts) (ele : dict value) (total_frames : Z)
          (video_fps : pynum),
   Dict.mem "fps" ele = true -> Dict.mem "nframes" ele = true ->
   Vision.smart_nframes c ele total_frames video_fps =
     Raise (AssertionError "Only accept either `fps` or `nframes`")).
Proof.
  split; [|split].
  - intros Hfps Hnum. rewrite run_lvu_model_unfold.
    unfold Driver.video_content_of. by rewrite Hfps, Hnum.
  - intros rate Hfps.
    destruct (Driver.video_content_of (Driver.w_config w) video_path)
      as [video_content|e] eqn:Hvc.
    + exists video_content. split; [reflexivity|].
      pose proof (video_content_of_keys _ _ _ Hvc) as [_ Hnf].
      rewrite Hfps in Hnf. split; [|split; [exact Hnf|]].
      * unfold Driver.video_content_of in Hvc. rewrite Hfps in Hvc.
        injection Hvc as <-. apply dict_get_set_eq.
      * rewrite run_lvu_model_unfold. by rewrite Hvc.
    + unfold Driver.video_content_of in Hvc. by rewrite Hfps in Hvc.
  - intros c ele total_frames video_fps Hfps Hnf.
    unfold Vision.smart_nframes. by rewrite Hfps, Hnf.
Qed.

(** C8 as stated fails: with both [fps] and [num_frames] configured,
    [run_lvu_model] raises nothing and answers. *)
Lemma run_lvu_model_accepts_both :
  is_Some (fps Scenario.config_with_both) /\ is_Some (num_frames Scenario.config_with_both) /\
  (Driver.run_lvu_model (Fixture.model 2 6 [5; 6]) "what?" "/videos/cat.mp4" tt
     (Fixture.fresh Scenario.config_with_both)).1 = Ok ["17"%string].
Proof.
  split; [by eexists|]. split; [by eexists|]. vm_compute. reflexivity.
Qed.

Lemma run_lvu_model_frame_settings_witness :
  (Driver.run_lvu_model (Fixture.model 2 6 [5; 6]) "what?" "/videos/cat.mp4" tt
     (Fixture.fresh Fixture.base_config)).1
    = Raise (ValueError "Either fps or num_frames should be set.") /\
  (exists video_content : dict value,
     Driver.video_content_of Scenario.config_with_both "/videos/cat.mp4" = Ok video_content /\
     Dict.mem "nframes" video_content = false) /\
  Vision.smart_nframes Vision.qwen_vl_utils_consts
    [("fps"%string, VNum (PInt 2)); ("nframes"%string, VNum (PInt 4))]
    300 Fixture.native_fps
    = Raise (AssertionError "Only accept either `fps` or `nframes`").
Proof.
  destruct (run_lvu_model_frame_settings (Fixture.model 2 6 [5; 6])
              "what?" "/videos/cat.mp4" tt (Fixture.fresh Fixture.base_config))
    as (Hneither & _ & Hassert).
  destruct (run_lvu_model_frame_settings (Fixture.model 2 6 [5; 6])
              "what?" "/videos/cat.mp4" tt (Fixture.fresh Scenario.config_with_both))
    as (_ & Hboth & _).
  split; [|split].
  - rewrite Hneither; reflexivity.
  - destruct (Hboth (PInt 2) eq_refl) as (video_content & Hvc & _ & Hnf & _).
    exists video_content. split; assumption.
  - apply Hassert; reflexivity.
Defined.

(** ** The driver's monad *)

Section WorldFacts.
Import Driver DriverSpec.
Context {Img Frame VK PixRow SPG IGrid P RD KV KT GK : Type}.
Abbreviation world := (Driver.world Img Frame VK PixRow SPG P RD KV).
Abbreviation quiet := (@DriverSpec.quiet Img Frame VK PixRow SPG P RD KV _).
Abbreviation M := (@Driver.M Img Frame VK PixRow SPG P RD KV).

Lemma M_bind_run {A B} (m : M A) (f : A -> M B) (w : world) :
  (m ≫= f) w =
  match m w with
  | (Ok a, w') => f a w'
  | (Raise e, w') => (Raise e, w')
  end.
Proof. reflexivity. Qed.

Lemma M_bind_inv {A B} (m : M A) (f : A -> M B) (w w' : world) (r : result B) :
  (m ≫= f) w = (r, w') ->
  (exists e, m w = (Raise e, w') /\ r = Raise e) \/
  (exists a w1, m w = (Ok a, w1) /\ f a w1 = (r, w')).
Proof.
  rewrite M_bind_run. destruct (m w) as [[a|e] w1]; [eauto|].
  intros [= <- <-]. eauto.
Qed.

Lemma quiet_ret {A} (a : A) : quiet (mret a : M A).
Proof. intros w w' r [= <- <-]. auto. Qed.

Lemma quiet_lift {A} (r : result A) : quiet (lift r : M A).
Proof. intros w w' r' [= <- <-]. auto. Qed.

Lemma quiet_bind {A B} (m : M A) (f : A -> M B) :
  quiet m -> (forall a, quiet (f a)) -> quiet (m ≫= f).
Proof.
  intros Hm Hf w w' r H.
  apply M_bind_inv in H as [(e & H & _)|(a & w1 & H1 & H2)].
  - eapply Hm, H.
  - apply Hm in H1 as [Hc1 Hg1]. apply Hf in H2 as [Hc2 Hg2].
    split; congruence.
Qed.

Lemma quiet_get_config : quiet get_config.
Proof. intros w w' r [= <- <-]. auto. Qed.

Lemma generate_calls_snoc (trace : list (event PixRow SPG P KV)) e :
  generate_calls (trace ++ [e]) =
  (generate_calls trace + if is_generate e then 1 else 0)%nat.
Proof.
  unfold generate_calls. rewrite List.filter_app, length_app. simpl.
  by destruct (is_generate e).
Qed.

Lemma decode_calls_snoc (trace : list (event PixRow SPG P KV)) e :
  decode_calls (trace ++ [e]) =
  (decode_calls trace + if is_decode e then 1 else 0)%nat.
Proof.
  unfold decode_calls. rewrite List.filter_app, length_app. simpl.
  by destruct (is_decode e).
Qed.

Lemma quiet_emit e : is_generate e = false -> quiet (emit e).
Proof.
  intros He w w' r [= <- <-]. simpl.
  rewrite generate_calls_snoc, He. auto with lia.
Qed.

Lemma quiet_set_rope_deltas rd : quiet (set_rope_deltas rd).
Proof. intros w w' r [= <- <-]. auto. Qed.

Lemma quiet_file_exists path : quiet (file_exists path).
Proof. intros w w' r [= <- <-]. auto. Qed.

Lemma quiet_file_stat path : quiet (file_stat path).
Proof.
  intros w w' r. unfold file_stat.
  destruct (w_files w !! path); intros [= <- <-]; auto.
Qed.

Lemma quiet_torch_load path : quiet (torch_load path).
Proof.
  intros w w' r. unfold torch_load.
  destruct (w_files w !! path) as [[]|]; intros [= <- <-]; auto.
Qed.

Lemma quiet_torch_save
    (self : collaborators Img Frame VK PixRow SPG IGrid P RD KV KT GK) obj path :
  quiet (torch_save self obj path).
Proof.
  intros w w' r. unfold torch_save.
  destruct (torch_save_failure self obj path) as [[e []]|];
    intros [= <- <-]; auto.
Qed.
End WorldFacts.

Create HintDb quiet.
#[local] Hint Resolve quiet_ret quiet_lift quiet_get_config quiet_set_rope_deltas
  quiet_file_exists quiet_file_stat quiet_torch_load quiet_torch_save : quiet.

(** Decompose a quiet goal along the binds of the computation. *)
Ltac quiet_steps :=
  repeat first
    [ apply quiet_bind; [|intros ?]
    | apply quiet_emit; reflexivity
    | progress auto with quiet
    | match goal with
      | |- DriverSpec.quiet (let '(_, _) := ?x in _) => destruct x
      | |- DriverSpec.quiet (if ?b then _ else _) => destruct b
      end ].

Section DriverFacts.
Import Driver DriverSpec.
Context {Img Frame VK PixRow SPG IGrid P RD KV KT GK : Type}.
Abbreviation world := (Driver.world Img Frame VK PixRow SPG P RD KV).
Abbreviation quiet := (@DriverSpec.quiet Img Frame VK PixRow SPG P RD KV _).
Variable self : collaborators Img Frame VK PixRow SPG IGrid P RD KV KT GK.

Lemma quiet_extract_frames messages : quiet (extract_frames self messages).
Proof. unfold extract_frames. quiet_steps. Qed.

Lemma quiet_prefill_group whole position_ids gr i pixels st :
  quiet (prefill_group self whole position_ids gr i pixels st).
Proof. unfold prefill_group. destruct st. quiet_steps. Qed.

Lemma quiet_prefill_loop whole position_ids gr pixel_groups :
  forall i st, quiet (prefill_loop self whole position_ids gr i pixel_groups st).
Proof.
  induction pixel_groups as [|pixels rest IH]; intros i st; simpl.
  - apply quiet_ret.
  - apply quiet_bind; [apply quiet_prefill_group|]. intros st'. apply IH.
Qed.

Lemma quiet_prefill messages : quiet (prefill self messages).
Proof.
  unfold prefill.
  repeat first
    [ apply quiet_prefill_loop
    | apply quiet_extract_frames
    | apply quiet_bind; [|intros ?]
    | progress auto with quiet
    | match goal with
      | |- quiet (let '(_, _) := ?x in _) => destruct x
      end ].
Qed.

(** What [extract_frames] does on a miss and on a hit. *)
Lemma extract_frames_run messages (w : world) :
  extract_frames self messages w =
  match cache_paths_of self (w_config w) messages with
  | Raise e => (Raise e, w)
  | Ok (cache_dir, cache_file) =>
      match w_files w !! cache_file with
      | Some found =>
          (match found with
           | Saved inputs => Ok inputs
           | Truncated =>
               Raise (RuntimeError "PytorchStreamReader failed reading zip archive")
           end,
           {| w_config := w_config w; w_files := w_files w;
              w_rope_deltas := w_rope_deltas w;
              w_trace := (w_trace w ++ [EMkdir cache_dir]) ++ [ELoad cache_file] |})
      | None =>
          match process_vision_info self messages with
          | Ok inputs =>
              match torch_save_failure self inputs cache_file with
              | None =>
                  (Ok inputs,
                   {| w_config := w_config w;
                      w_files := <[cache_file := Saved inputs]> (w_files w);
                      w_rope_deltas := w_rope_deltas w;
                      w_trace := ((w_trace w ++ [EMkdir cache_dir])
                                  ++ [EDecode messages]) ++ [ESave cache_file] |})
              | Some (e, created) =>
                  (Raise e,
                   {| w_config := w_config w;
                      w_files := if created
                                 then <[cache_file := Truncated]> (w_files w)
                                 else w_files w;
                      w_rope_deltas := w_rope_deltas w;
                      w_trace := (w_trace w ++ [EMkdir cache_dir])
                                 ++ [EDecode messages] |})
              end
          | Raise e =>
              (Raise e,
               {| w_config := w_config w; w_files := w_files w;
                  w_rope_deltas := w_rope_deltas w;
                  w_trace := (w_trace w ++ [EMkdir cache_dir])
                             ++ [EDecode messages] |})
          end
      end
  end.
Proof.
  unfold extract_frames, mbind, M_bind, mret, M_ret, get_config, lift, emit,
    file_exists, file_stat, torch_load, torch_save, write_file. simpl.
  destruct (cache_paths_of self (w_config w) messages)
    as [[cache_dir cache_file]|e]; [|reflexivity].
  simpl.
  destruct (w_files w !! cache_file) as [found|] eqn:Hfile; simpl.
  - rewrite Hfile. by destruct found.
  - destruct (process_vision_info self messages) as [inputs|e]; [|reflexivity].
    simpl.
    destruct (torch_save_failure self inputs cache_file) as [[e []]|];
      simpl; [reflexivity..|].
    by rewrite lookup_insert_eq.
Qed.
End DriverFacts.



(** ** The final generation *)

Lemma set_enable_restore (cfg : LVUConfig) (b : bool) :
  set_enable (enable cfg) (set_enable b cfg) = cfg.
Proof. by destruct cfg. Qed.

Section FinalFacts.
Import Driver DriverSpec.
Context {Img Frame VK PixRow SPG IGrid P RD KV KT GK : Type}.
Abbreviation world := (Driver.world Img Frame VK PixRow SPG P RD KV).
Variable self : collaborators Img Frame VK PixRow SPG IGrid P RD KV KT GK.

Lemma final_generation_run whole past_key_values past_len generation_kwargs
    (w : world) :
  final_generation self whole past_key_values past_len generation_kwargs w =
  if (past_len <? length (input_ids whole))%nat then
    let final := final_inputs_of whole past_key_values past_len in
    match generate self (w_config (toggled final w)) final generation_kwargs with
    | Raise e => (Raise e, toggled final w)
    | Ok generated_ids =>
        (batch_decode self
           (zip_with (fun in_ids out_ids => drop (length in_ids) out_ids)
                     [f_input_ids final] generated_ids),
         restored final w)
    end
  else
    (Raise (AssertionError
              "The past length should be less than the final input length."), w).
Proof.
  unfold final_generation, mbind, M_bind, mret, M_ret, get_config, put_config,
    lift, emit, py_assert.
  destruct (past_len <? length (input_ids whole))%nat; [|reflexivity].
  cbn -[set_enable].
  fold (final_inputs_of whole past_key_values past_len).
  destruct (generate self _ _ generation_kwargs) as [generated_ids|e];
    [|reflexivity].
  unfold restored, toggled. cbn -[set_enable].
  rewrite set_enable_restore.
  by destruct (batch_decode self _).
Qed.

Lemma chat_lvu_model_run messages generation_kwargs (w : world) :
  chat_lvu_model self messages generation_kwargs w =
  match prefill self messages w with
  | (Ok (whole, past_key_values, past_len), w1) =>
      final_generation self whole past_key_values past_len generation_kwargs w1
  | (Raise e, w1) => (Raise e, w1)
  end.
Proof.
  unfold chat_lvu_model. rewrite M_bind_run.
  by destruct (prefill self messages w) as [[[[whole pkv] past_len]|e] w1].
Qed.
End FinalFacts.

(** C6. Once the groups are processed, with [past_len] the accumulated
    pointer: the prefill itself never enters [model.generate]; if
    [past_len] is not below the input length the turn ends in the
    assertion error, in the world the prefill left (so generation is not
    attempted); otherwise generation is entered exactly once, on the
    non-empty remainder [input_ids[past_len:]]. *)
Theorem generation_needs_trailing_tokens
    {Img Frame VK PixRow SPG IGrid P RD KV KT GK : Type}
    (self : Driver.collaborators Img Frame VK PixRow SPG IGrid P RD KV KT GK)
    (messages : list Driver.message) (generation_kwargs : GK)
    (w w1 : Driver.world Img Frame VK PixRow SPG P RD KV)
    (whole : Driver.whole_inputs PixRow SPG IGrid)
    (past_key_values : option KV) (past_len : nat) :
  Driver.prefill self messages w = (Ok (whole, past_key_values, past_len), w1) ->
  generate_calls (Driver.w_trace w1) = generate_calls (Driver.w_trace w) /\
  ((length (Driver.input_ids whole) <= past_len)%nat ->
   Driver.chat_lvu_model self messages generation_kwargs w =
     (Raise (AssertionError
               "The past length should be less than the final input length."),
      w1)) /\
  ((past_len < length (Driver.input_ids whole))%nat ->
   exists (r : result (list string))
          (w2 : Driver.world Img Frame VK PixRow SPG P RD KV)
          (during : LVUConfig),
     Driver.chat_lvu_model self messages generation_kwargs w = (r, w2) /\
     Driver.w_trace w2 =
       Driver.w_trace w1 ++
       [Driver.EGenerate during
          (Driver.final_inputs_of whole past_key_values past_len)] /\
     generate_calls (Driver.w_trace w2) = S (generate_calls (Driver.w_trace w)) /\
     Driver.f_input_ids (Driver.final_inputs_of whole past_key_values past_len)
       = drop past_len (Driver.input_ids whole) /\
     drop past_len (Driver.input_ids whole) <> []).
Proof.
  intros Hpre.
  pose proof (quiet_prefill self messages _ _ _ Hpre) as [_ Hcalls].
  split; [exact Hcalls|].
  split.
  - intros Hle. rewrite chat_lvu_model_run, Hpre, final_generation_run.
    by rewrite (proj2 (Nat.ltb_ge _ _) Hle).
  - intros Hlt.
    assert (Hrest : drop past_len (Driver.input_ids whole) <> []).
    { intros Hnil. apply (f_equal length) in Hnil.
      rewrite length_drop in Hnil. simpl in Hnil. lia. }
    destruct (Driver.chat_lvu_model self messages generation_kwargs w)
      as [r w2] eqn:Hchat.
    rewrite chat_lvu_model_run, Hpre, final_generation_run in Hchat.
    rewrite (proj2 (Nat.ltb_lt _ _) Hlt) in Hchat.
    exists r, w2. eexists. split; [reflexivity|].
    cbv zeta in Hchat.
    destruct (Driver.generate self _ _ generation_kwargs) as [generated|e];
      injection Hchat as <- <-; simpl;
      (split; [reflexivity|]);
      rewrite generate_calls_snoc, Hcalls; simpl;
      (split; [lia|]); (split; [reflexivity|exact Hrest]).
Qed.

Lemma generation_needs_trailing_tokens_witness :
  let self := Fixture.model 2 6 [] in
  let messages :=
    Driver.messages_of
      [("type", VStr "video"); ("video", VStr "/videos/cat.mp4");
       ("nframes", VNum (PInt 4))]%string "what?" in
  let run := Driver.chat_lvu_model self messages tt
               (Fixture.fresh Scenario.config_small) in
  run.1 = Raise (AssertionError
                   "The past length should be less than the final input length.") /\
  generate_calls (Driver.w_trace run.2) = 0%nat.
Proof.
  intros self messages run.
  assert (Hfacts :
            match Driver.prefill self messages (Fixture.fresh Scenario.config_small) with
            | (Ok (whole, _, past_len), _) =>
                past_len = 8%nat /\ length (Driver.input_ids whole) = 8%nat
            | _ => False
            end)
    by (vm_compute; split; reflexivity).
  destruct (Driver.prefill self messages (Fixture.fresh Scenario.config_small))
    as [[[[whole past_key_values] past_len]|e] w1] eqn:Hpre; [|contradiction].
  destruct Hfacts as [-> Hlen].
  destruct (generation_needs_trailing_tokens self messages tt _ _ _ _ _ Hpre)
    as (Hcalls & Hraise & _).
  subst run. rewrite Hraise by lia. split; [reflexivity|].
  simpl. rewrite Hcalls. reflexivity.
Defined.

(** C7. On every turn, whatever its outcome. Either the generation call
    is not reached: the turn raises, the configuration is untouched and no
    [model.generate] is traced. Or [model.generate] is the last call
    traced, and it was entered under the configuration of the start of the
    turn with the enable flag set to the do-top-k-for-query value and
    every other field as it was; when it returns, the configuration at the
    end of the turn is again what it was at the start, enable flag
    included, whatever the decoding then does; when it raises, the turn
    raises the same error and the configuration is left as the call found
    it, the flag at the do-top-k-for-query value. *)
Theorem enable_flag_toggled_and_restored
    {Img Frame VK PixRow SPG IGrid P RD KV KT GK : Type}
    (self : Driver.collaborators Img Frame VK PixRow SPG IGrid P RD KV KT GK)
    (messages : list Driver.message) (generation_kwargs : GK)
    (w w' : Driver.world Img Frame VK PixRow SPG P RD KV)
    (r : result (list string)) :
  Driver.chat_lvu_model self messages generation_kwargs w = (r, w') ->
  let cfg := Driver.w_config w in
  let during := set_enable (do_top_k_for_query cfg) cfg in
  ((exists e : exn, r = Raise e) /\
   Driver.w_config w' = cfg /\
   generate_calls (Driver.w_trace w') = generate_calls (Driver.w_trace w)) \/
  exists (trace : list (Driver.event PixRow SPG P KV))
         (final : Driver.final_inputs KV),
    Driver.w_trace w' = trace ++ [Driver.EGenerate during final] /\
    generate_calls trace = generate_calls (Driver.w_trace w) /\
    enable during = do_top_k_for_query cfg /\
    do_top_k_for_query during = do_top_k_for_query cfg /\
    fps during = fps cfg /\
    num_frames during = num_frames cfg /\
    extra_kwargs during = extra_kwargs cfg /\
    cache_dir during = cache_dir cfg /\
    video_group_size during = video_group_size cfg /\
    adaptive_local_attention during = adaptive_local_attention cfg /\
    use_tqdm during = use_tqdm cfg /\
    other_fields during = other_fields cfg /\
    match Driver.generate self during final generation_kwargs with
    | Ok generated_ids => Driver.w_config w' = cfg
    | Raise e => r = Raise e /\ Driver.w_config w' = during
    end.
Proof.
  intros Hchat cfg during.
  rewrite chat_lvu_model_run in Hchat.
  destruct (Driver.prefill self messages w)
    as [[[[whole past_key_values] past_len]|e] w1] eqn:Hpre;
    pose proof (quiet_prefill self messages _ _ _ Hpre) as [Hcfg Hcalls];
    fold cfg in Hcfg.
  2: { injection Hchat as <- <-. left. eauto. }
  rewrite final_generation_run in Hchat.
  destruct (past_len <? length (Driver.input_ids whole))%nat.
  2: { injection Hchat as <- <-. left. eauto. }
  cbv zeta in Hchat. right.
  exists (Driver.w_trace w1),
    (Driver.final_inputs_of whole past_key_values past_len).
  assert (Hduring : Driver.w_config
                      (DriverSpec.toggled
                         (Driver.final_inputs_of whole past_key_values past_len) w1)
                    = during).
  { simpl. by rewrite Hcfg. }
  rewrite Hduring in Hchat.
  assert (Htrace : Driver.w_trace w' =
                   Driver.w_trace w1 ++
                   [Driver.EGenerate during
                      (Driver.final_inputs_of whole past_key_values past_len)]).
  { destruct (Driver.generate self during _ generation_kwargs);
      injection Hchat as _ <-; simpl; by rewrite Hcfg. }
  split; [exact Htrace|]. split; [exact Hcalls|].
  do 10 (split; [reflexivity|]).
  destruct (Driver.generate self during _ generation_kwargs) as [generated|e].
  - injection Hchat as _ <-. exact Hcfg.
  - injection Hchat as <- <-. split; [reflexivity|]. simpl. by rewrite Hcfg.
Qed.

Lemma enable_flag_toggled_and_restored_witness :
  let run := Driver.run_lvu_model (Fixture.model 2 6 [5; 6]) "what?"
               "/videos/cat.mp4" tt (Fixture.fresh Scenario.config_small) in
  run.1 = Ok ["17"%string] /\
  enable Scenario.config_small = true /\
  do_top_k_for_query Scenario.config_small = false /\
  Driver.w_config run.2 = Scenario.config_small /\
  exists trace during final,
    Driver.w_trace run.2 = trace ++ [Driver.EGenerate during final] /\
    enable during = false.
Proof.
  intros run.
  assert (Hrun : run = (Ok ["17"%string], run.2)) by (vm_compute; reflexivity).
  unfold run in Hrun at 1. rewrite run_lvu_model_unfold in Hrun.
  simpl Driver.video_content_of in Hrun.
  destruct (enable_flag_toggled_and_restored _ _ _ _ _ _ Hrun)
    as [([e He] & _)|(trace & final & Htrace & _ & Henable & Hrest)];
    [discriminate|].
  split; [vm_compute; reflexivity|].
  split; [reflexivity|]. split; [reflexivity|].
  split; [exact (proj2 (proj2 (proj2 (proj2 (proj2 (proj2 (proj2 (proj2
                   (proj2 Hrest)))))))))|].
  exists trace,
    (set_enable (do_top_k_for_query Scenario.config_small) Scenario.config_small),
    final.
  split; [exact Htrace|exact Henable].
Defined.

(** The flag is not put back when [model.generate] raises: a turn under a
    configuration with the flag set and do-top-k-for-query unset, on a
    model that runs out of memory while generating, ends with the flag
    unset. *)
Lemma enable_flag_left_toggled :
  let run := Driver.run_lvu_model
               (FailingFixture.model (Some FailingFixture.out_of_memory) None)
               "what?" "/videos/cat.mp4" tt
               (Fixture.fresh Scenario.config_small) in
  run.1 = Raise FailingFixture.out_of_memory /\
  enable Scenario.config_small = true /\
  enable (Driver.w_config run.2) = false.
Proof. vm_compute. repeat split. Qed.

(** When [model.generate] raises, the turn ends with the enable flag still
    holding the do-top-k-for-query value: nothing puts it back. *)
Remark generation_failure_leaves_flag
    {Img Frame VK PixRow SPG IGrid P RD KV KT GK : Type}
    (self : Driver.collaborators Img Frame VK PixRow SPG IGrid P RD KV KT GK)
    (whole : Driver.whole_inputs PixRow SPG IGrid)
    (past_key_values : option KV) (past_len : nat) (generation_kwargs : GK)
    (w : Driver.world Img Frame VK PixRow SPG P RD KV) (e : exn) :
  (past_len < length (Driver.input_ids whole))%nat ->
  Driver.generate self
    (set_enable (do_top_k_for_query (Driver.w_config w)) (Driver.w_config w))
    (Driver.final_inputs_of whole past_key_values past_len) generation_kwargs
    = Raise e ->
  exists w',
    Driver.final_generation self whole past_key_values past_len
      generation_kwargs w = (Raise e, w') /\
    enable (Driver.w_config w') = do_top_k_for_query (Driver.w_config w).
Proof.
  intros Hlt Hgen. rewrite final_generation_run.
  rewrite (proj2 (Nat.ltb_lt _ _) Hlt). cbv zeta. simpl.
  rewrite Hgen. eexists. split; reflexivity.
Qed.

(** ** The token counts of the groups *)

(** Without a positive group size the video is one group and carries all
    the video tokens. *)
Lemma single_group_keeps_count
    {Img Frame VK PixRow SPG IGrid P RD KV KT GK : Type}
    (self : Driver.collaborators Img Frame VK PixRow SPG IGrid P RD KV KT GK)
    (video_inputs : list (list Frame))
    (whole : Driver.whole_inputs PixRow SPG IGrid) (n_video_tokens : Z)
    (gr : Driver.groups Frame PixRow) :
  Driver.single_group video_inputs whole n_video_tokens = Ok gr ->
  Driver.sumZ (Driver.video_groups_tokens gr) = n_video_tokens.
Proof.
  unfold Driver.single_group. intros H. bind_inv H. injection H as <-.
  simpl. lia.
Qed.

(** The same truncation on a 39-second video sampled at 2 frames per
    second (78 frames, 7020 tokens) in groups of 10: seven groups get 899
    tokens instead of 900. *)
Example share_of_10_in_78 :
  Driver.proportional_share (PInt 7020) 10 78 = Ok 899 /\
  Driver.proportional_share (PInt 7020) 8 78 = Ok 720.
Proof. split; vm_compute; reflexivity. Qed.

(** C2, evaluated where it fails. Thirty sampled frames carry 2700 video
    tokens; with a group size of 22 the driver forms a group of 22 frames
    and one of 8, and gives them 1979 and 720 tokens: [22 / 30] rounds
    below 11/15 and [int] drops the fraction of [2700 * (22 / 30)]. The
    counts sum to 2699, and the turn hands the video token left over to
    the final generation call. *)
Theorem group_token_counts_fall_short :
  let self := Fixture.model 20 36 [5; 6] in
  let n_video_tokens :=
    Driver.count_token Fixture.video_token (Driver.input_ids Scenario.whole_30) in
  let run := Driver.run_lvu_model self "what?" "/videos/cat.mp4" tt
               (Fixture.fresh Scenario.config_30_by_22) in
  n_video_tokens = 2700 /\
  Driver.processor self "<prompt>"
    {| Driver.image_inputs := None;
       Driver.video_inputs := [Scenario.video_30];
       Driver.video_kwargs := tt |} = Ok Scenario.whole_30 /\
  Driver.proportional_share (PInt 2700) 22 30 = Ok 1979 /\
  Driver.proportional_share (PInt 2700) 8 30 = Ok 720 /\
  Driver.video_groups_tokens <$>
    Driver.split_groups self Scenario.config_30_by_22 [Scenario.video_30]
      Scenario.whole_30 n_video_tokens = Ok [1979; 720] /\
  Driver.sumZ [1979; 720] = 2699 /\
  Driver.f_input_ids <$>
    (last (Driver.w_trace run.2) ≫= fun e =>
       match e with Driver.EGenerate _ final => Some final | _ => None end)
    = Some [Fixture.video_token; 5; 6].
Proof.
  cbv zeta. split_and!; vm_compute; reflexivity.
Qed.

(* ===================================================================== *)
(** * Further properties                                                  *)
(* ===================================================================== *)

(** ** The layer forward: what is handed on *)

(** X1. When the layer returns, the first element of its output is the
    5-tuple exactly when pruning is enabled globally, the layer is set to
    prune for the next layer, and it is not the last layer; in every other
    case it is a plain tensor. *)
Theorem tuple_handed_on_iff
    {T Mask Pos CPos PEmb AttnW KV : Type}
    (self : Layer.sublayers T Mask Pos CPos PEmb AttnW KV)
    (lvu_layer_config : LVULayerConfig) (lvu_config' : LVUConfig)
    (hidden_states : Layer.hidden T Mask Pos CPos PEmb)
    (attention_mask : option Mask) (position_ids : option Pos)
    (past_key_value : option KV) (output_attentions use_cache : bool)
    (cache_position : option CPos) (position_embeddings : option PEmb)
    (outputs : list (Layer.out_item T Mask Pos CPos PEmb AttnW KV)) :
  lvu_config lvu_layer_config = Some lvu_config' ->
  Layer.lvu_qwen25_vl_decoder_layer_forward self (Some lvu_layer_config)
    hidden_states attention_mask position_ids past_key_value
    output_attentions use_cache cache_position position_embeddings
    = Ok outputs ->
  (exists first rest, outputs = Layer.OHidden first :: rest /\
     (Layer.is_plain first = false <->
      enable lvu_config' = true /\
      prune_for_next_layer lvu_layer_config = true /\
      is_last_layer lvu_layer_config = false)).
Proof.
  intros Hcfg H.
  apply forward_head in H as (cfg & h & m & p & c & e & rest & Hcfg' & ->).
  assert (cfg = lvu_config') as -> by congruence.
  eexists _, rest. split; [reflexivity|].
  destruct (enable lvu_config'), (prune_for_next_layer lvu_layer_config),
    (is_last_layer lvu_layer_config); simpl; intuition congruence.
Qed.

Lemma tuple_handed_on_iff_witness :
  let outputs : list (Layer.out_item Z unit unit unit unit unit unit) :=
    [Layer.OHidden (Layer.Pruned 20 None None None None)] in
  Layer.lvu_qwen25_vl_decoder_layer_forward LayerFixture.identity_layer
    (Some (LayerFixture.pruning_layer_config false))
    (Layer.Plain 5) None None None false false None None = Ok outputs /\
  exists first rest, outputs = Layer.OHidden first :: rest /\
    (Layer.is_plain first = false <->
     enable Fixture.base_config = true /\
     prune_for_next_layer (LayerFixture.pruning_layer_config false) = true /\
     is_last_layer (LayerFixture.pruning_layer_config false) = false).
Proof.
  split; [reflexivity|].
  apply (tuple_handed_on_iff LayerFixture.identity_layer
           (LayerFixture.pruning_layer_config false) Fixture.base_config
           (Layer.Plain 5) None None None false false None None);
    reflexivity.
Defined.

(** X2. The returned tuple holds the hidden state first, then the
    attention weights if [output_attentions], then the present key/value
    if [use_cache], and nothing else. *)
Theorem forward_output_shape
    {T Mask Pos CPos PEmb AttnW KV : Type}
    (self : Layer.sublayers T Mask Pos CPos PEmb AttnW KV)
    (self_lvu_layer_config : option LVULayerConfig)
    (hidden_states : Layer.hidden T Mask Pos CPos PEmb)
    (attention_mask : option Mask) (position_ids : option Pos)
    (past_key_value : option KV) (output_attentions use_cache : bool)
    (cache_position : option CPos) (position_embeddings : option PEmb)
    (outputs : list (Layer.out_item T Mask Pos CPos PEmb AttnW KV)) :
  Layer.lvu_qwen25_vl_decoder_layer_forward self self_lvu_layer_config
    hidden_states attention_mask position_ids past_key_value
    output_attentions use_cache cache_position position_embeddings
    = Ok outputs ->
  exists h w kv,
    outputs =
      [Layer.OHidden h]
      ++ (if output_attentions then [Layer.OAttn w] else [])
      ++ (if use_cache then [Layer.OPresent kv] else []).
Proof.
  unfold Layer.lvu_qwen25_vl_decoder_layer_forward.
  destruct self_lvu_layer_config as [lc|]; simpl; [|discriminate].
  destruct (lvu_config lc) as [cfg|]; [|discriminate].
  intros H.
  destruct hidden_states as [h0|h0 m0 p0 c0 e0]; simpl in H;
    repeat (next_call H;
            repeat match goal with x : (_ * _)%type |- _ => destruct x end;
            simpl in H);
    injection H as <-;
    destruct output_attentions, use_cache; simpl; eauto.
Qed.

Lemma forward_output_shape_witness :
  let outputs : list (Layer.out_item Z unit unit unit unit unit unit) :=
    [Layer.OHidden (Layer.Plain 20); Layer.OPresent None] in
  Layer.lvu_qwen25_vl_decoder_layer_forward LayerFixture.identity_layer
    (Some (LayerFixture.pruning_layer_config true))
    (Layer.Plain 5) None None None false true None None = Ok outputs /\
  exists h w kv,
    outputs = [Layer.OHidden h] ++ (if false then [Layer.OAttn w] else [])
              ++ (if true then [Layer.OPresent kv] else []).
Proof.
  split; [reflexivity|].
  apply (forward_output_shape LayerFixture.identity_layer
           (Some (LayerFixture.pruning_layer_config true))
           (Layer.Plain 5) None None None false true None None).
  reflexivity.
Defined.

(** X3. A layer that receives the 5-tuple of a layer that pruned takes the
    attention mask, position ids, cache position and rotary embeddings
    from the tuple: whatever is passed for these as arguments is ignored,
    and the call equals the call on the plain tensor with the tuple's
    components as arguments. *)
Theorem tuple_input_overrides_arguments
    {T Mask Pos CPos PEmb AttnW KV : Type}
    (self : Layer.sublayers T Mask Pos CPos PEmb AttnW KV)
    (self_lvu_layer_config : option LVULayerConfig)
    (h : T) (m attention_mask : option Mask) (p position_ids : option Pos)
    (c cache_position : option CPos) (e position_embeddings : option PEmb)
    (past_key_value : option KV) (output_attentions use_cache : bool) :
  Layer.lvu_qwen25_vl_decoder_layer_forward self self_lvu_layer_config
    (Layer.Pruned h m p c e) attention_mask position_ids past_key_value
    output_attentions use_cache cache_position position_embeddings
  = Layer.lvu_qwen25_vl_decoder_layer_forward self self_lvu_layer_config
      (Layer.Plain h) m p past_key_value output_attentions use_cache c e.
Proof.
  unfold Layer.lvu_qwen25_vl_decoder_layer_forward.
  destruct self_lvu_layer_config as [lc|]; simpl; [|reflexivity].
  destruct (lvu_config lc); reflexivity.
Qed.

(** ** Installing the patch *)

(** X4. [init_lvu_model] refuses a model of another class. For the two
    supported classes it attaches one configuration per decoder layer, in
    order: each keeps its layer's index, refers to the shared
    configuration, and is marked last exactly at the last position. *)
Theorem init_lvu_model_configs
    (cls : Install.model_class) (layer_idxs : list Z) (config : LVUConfig)
    (prune_default : bool) :
  match cls with
  | Install.OtherModel =>
      Install.init_lvu_model cls layer_idxs config prune_default =
        Raise (ValueError
          "Model must be either Qwen2_5_VLForConditionalGeneration or Qwen2_5_VLModel")
  | _ =>
      exists configs : list LVULayerConfig,
        Install.init_lvu_model cls layer_idxs config prune_default = Ok configs /\
        length configs = length layer_idxs /\
        layer_idx <$> configs = layer_idxs /\
        Forall (fun lc => lvu_config lc = Some config) configs /\
        forall (i : nat) (lc : LVULayerConfig),
          configs !! i = Some lc ->
          (is_last_layer lc = true <-> S i = length layer_idxs)
  end.
Proof.
  assert (Hok : forall configs,
            configs = imap (fun i idx =>
              {| layer_idx := idx;
                 is_last_layer := (Z.of_nat i =? Z.of_nat (length layer_idxs) - 1);
                 prune_for_next_layer := prune_default;
                 lvu_config := Some config |}) layer_idxs ->
            length configs = length layer_idxs /\
            layer_idx <$> configs = layer_idxs /\
            Forall (fun lc => lvu_config lc = Some config) configs /\
            forall (i : nat) (lc : LVULayerConfig),
              configs !! i = Some lc ->
              (is_last_layer lc = true <-> S i = length layer_idxs)).
  { intros configs ->. split; [apply length_imap|].
    split.
    { apply list_eq. intros i. rewrite list_lookup_fmap, list_lookup_imap.
      by destruct (layer_idxs !! i). }
    split.
    { apply Forall_forall. intros lc Hin.
      apply list_elem_of_lookup in Hin as [i Hi].
      rewrite list_lookup_imap in Hi.
      destruct (layer_idxs !! i); simpl in Hi; [|discriminate].
      by injection Hi as <-. }
    intros i lc Hi. rewrite list_lookup_imap in Hi.
    destruct (layer_idxs !! i); simpl in Hi; [|discriminate].
    injection Hi as <-. simpl. rewrite Z.eqb_eq. lia. }
  destruct cls; simpl; [eexists; split; [reflexivity|]; by apply Hok ..|].
  reflexivity.
Qed.

(** ** The initial cache position, again *)

(** X5. [_get_initial_cache_position] is idempotent: what it returns
    already holds ["cache_position"], so a second call, whatever the input
    shape and the model kind, returns it unchanged. *)
Theorem initial_cache_position_idempotent
    (is_encoder_decoder is_encoder_decoder' : bool)
    (input_ids_shape input_ids_shape' : nat * nat)
    (model_kwargs model_kwargs' : gmap string CachePos.kwarg) :
  CachePos._get_initial_cache_position is_encoder_decoder input_ids_shape
    model_kwargs = Ok model_kwargs' ->
  is_Some (model_kwargs' !! "cache_position"%string) /\
  CachePos._get_initial_cache_position is_encoder_decoder' input_ids_shape'
    model_kwargs' = Ok model_kwargs'.
Proof.
  intros H.
  assert (Hkey : is_Some (model_kwargs' !! "cache_position"%string)).
  { unfold CachePos._get_initial_cache_position, CachePos.kw_mem in H.
    destruct (model_kwargs !! "cache_position"%string) as [v|] eqn:Hcp.
    - injection H as <-. eauto.
    - bind_inv H. bind_inv H. injection H as <-.
      rewrite lookup_insert_eq. eauto. }
  split; [exact Hkey|].
  unfold CachePos._get_initial_cache_position, CachePos.kw_mem.
  destruct Hkey as [v ->]. reflexivity.
Qed.

Lemma initial_cache_position_idempotent_witness :
  let model_kwargs : gmap string CachePos.kwarg :=
    {[ "inputs_embeds"%string := CachePos.KEmbeds 1 4 8 ]} in
  let installed : gmap string CachePos.kwarg :=
    <["cache_position"%string := CachePos.KInt64 [0; 1; 2; 3]]> model_kwargs in
  CachePos._get_initial_cache_position false (1%nat, 9%nat) model_kwargs
    = Ok installed /\
  (is_Some (installed !! "cache_position"%string) /\
   CachePos._get_initial_cache_position true (0%nat, 0%nat) installed
     = Ok installed).
Proof.
  intros model_kwargs installed. split; [reflexivity|].
  apply (initial_cache_position_idempotent false true (1%nat, 9%nat)
           (0%nat, 0%nat) model_kwargs installed).
  reflexivity.
Defined.

(** Positions past a prefix, the way the driver writes them and the way
    the calculator cuts them. *)
Lemma drop_arange (p n : nat) :
  drop p (CachePos.arange n) =
  (fun k => k + Z.of_nat p) <$> CachePos.arange (n - p).
Proof.
  unfold CachePos.arange.
  rewrite <- fmap_drop, drop_seq, <- list_fmap_compose.
  replace (0 + p)%nat with (p + 0)%nat by lia.
  rewrite <- (fmap_add_seq p 0 (n - p)), <- list_fmap_compose.
  apply list_fmap_ext. intros i x _. simpl. lia.
Qed.

(** X6. The cache positions the driver passes to the final generation
    are those the patched calculator would install by itself for the whole
    prompt over a cache whose physical length is [past_len]. *)
Theorem driver_cache_position_agrees
    {PixRow SPG IGrid KV : Type}
    (whole : Driver.whole_inputs PixRow SPG IGrid)
    (past_key_values : option KV) (past_len : nat)
    (c : CachePos.cache_obj) (model_kwargs : gmap string CachePos.kwarg) :
  model_kwargs !! "cache_position"%string = None ->
  model_kwargs !! "inputs_embeds"%string = None ->
  model_kwargs !! "past_key_values"%string = Some (CachePos.KCache c) ->
  CachePos.has_get_seq_length c = true ->
  CachePos.get_seq_length c = Some past_len ->
  CachePos._get_initial_cache_position false
    (1%nat, length (Driver.input_ids whole)) model_kwargs
  = Ok (<["cache_position"%string :=
            CachePos.KInt64
              (Driver.f_cache_position
                 (Driver.final_inputs_of whole past_key_values past_len))]>
          model_kwargs).
Proof.
  intros Hcp Hie Hpkv Hhas Hget.
  unfold CachePos._get_initial_cache_position, CachePos.initial_positions,
    CachePos.kw_mem.
  rewrite Hcp, Hie, Hpkv. simpl. rewrite Hhas, Hget. simpl.
  rewrite andb_false_r. simpl.
  by rewrite drop_arange, length_drop.
Qed.

Lemma driver_cache_position_agrees_witness :
  let c := {| CachePos.has_get_seq_length := true;
              CachePos.get_seq_length := Some 2702%nat |} in
  CachePos._get_initial_cache_position false
    (1%nat, length (Driver.input_ids Scenario.whole_30))
    {[ "past_key_values"%string := CachePos.KCache c ]}
  = Ok (<["cache_position"%string := CachePos.KInt64 [2702; 2703]]>
          {[ "past_key_values"%string := CachePos.KCache c ]}).
Proof.
  intros c.
  rewrite (driver_cache_position_agrees Scenario.whole_30 (@None unit)
             2702%nat c {[ "past_key_values"%string := CachePos.KCache c ]});
    reflexivity.
Defined.

(** ** Frame-count selection: the edges *)

(** X7. A video with fewer frames than [FRAME_FACTOR] is always refused:
    whatever is requested, [smart_nframes] raises. *)
Theorem smart_nframes_refuses_short_video
    (c : Vision.vision_consts) (ele : dict value) (total_frames : Z)
    (video_fps : pynum) :
  total_frames < Vision.FRAME_FACTOR c ->
  exists e : exn, Vision.smart_nframes c ele total_frames video_fps = Raise e.
Proof.
  intros Hshort.
  destruct (Vision.smart_nframes c ele total_frames video_fps) as [n|e] eqn:H;
    [|eauto].
  unfold Vision.smart_nframes in H. do 2 bind_inv H.
  apply check_range_Ok_inv in H as [_ Hrange]. lia.
Qed.

Lemma smart_nframes_refuses_short_video_witness :
  exists e : exn,
    Vision.smart_nframes Vision.qwen_vl_utils_consts Scenario.ele_nframes_7 1
      Fixture.native_fps = Raise e.
Proof.
  apply (smart_nframes_refuses_short_video Vision.qwen_vl_utils_consts
           Scenario.ele_nframes_7 1 Fixture.native_fps).
  reflexivity.
Defined.

(** X8. Without an explicit frame count the frame rate of the video is
    divided by: a video that reports a frame rate of zero (as an int or as
    a float) makes [smart_nframes] raise. *)
Theorem smart_nframes_zero_video_fps
    (c : Vision.vision_consts) (ele : dict value) (total_frames : Z)
    (video_fps : pynum) :
  Dict.mem "nframes" ele = false ->
  PyNum.xval_of video_fps = PyNum.XFin 0 0 ->
  exists e : exn, Vision.smart_nframes c ele total_frames video_fps = Raise e.
Proof.
  intros Hmem Hzero.
  assert (Hdiv : exists e, PyNum.truediv (PInt total_frames) video_fps = Raise e).
  { destruct video_fps as [z|f]; simpl in Hzero.
    - injection Hzero as ->. simpl. unfold PyNum.truediv_int. simpl. eauto.
    - destruct f; simpl in Hzero; try discriminate.
      + simpl. destruct (PyNum.float_of_int total_frames); simpl; eauto.
      + injection Hzero as Hm _. destruct s; simpl in Hm; lia. }
  destruct Hdiv as [e0 Hdiv].
  destruct (Vision.smart_nframes c ele total_frames video_fps) as [n|e] eqn:H;
    [|eauto].
  unfold Vision.smart_nframes in H. rewrite Hmem in H.
  do 2 bind_inv H. unfold Vision.fps_branch in Ha0.
  do 5 bind_inv Ha0. congruence.
Qed.

Lemma smart_nframes_zero_video_fps_witness :
  exists e : exn,
    Vision.smart_nframes Vision.qwen_vl_utils_consts Scenario.ele_fps_2 100
      (PFloat (S754_zero false)) = Raise e.
Proof.
  apply (smart_nframes_zero_video_fps Vision.qwen_vl_utils_consts
           Scenario.ele_fps_2 100 (PFloat (S754_zero false)));
    reflexivity.
Defined.

(** ** Halving an integer in binary64 *)

(** [n / 2] is exact for a positive [n] below [2^53]; the lemmas follow
    the division and the rounding of the quotient step by step. *)
Lemma digits2_pos_size p : digits2_pos p = Pos.size p.
Proof. induction p; simpl; congruence. Qed.

Lemma Zdigits2_log2 z : 0 < z -> Zdigits2 z = Z.log2 z + 1.
Proof.
  destruct z as [|p|p]; try lia. intros _. simpl.
  rewrite digits2_pos_size. destruct p; simpl; lia.
Qed.

Lemma half_core (p : positive) (d := Zdigits2 (Zpos p)) :
  d <= 53 ->
  SFdiv_core_binary 53 1024 (Zpos p) 0 2 0 = (Zpos p * 2 ^ (54 - d), d - 55, loc_Exact).
Proof.
  intros Hd.
  assert (Hd1 : 1 <= d) by (subst d; simpl; lia).
  unfold SFdiv_core_binary. fold d.
  change (Zdigits2 2) with 2.
  unfold fexp, emin.
  replace (Z.min _ (0 - 0)) with (d - 55) by lia.
  replace (0 - 0 - (d - 55)) with (55 - d) by lia.
  destruct (55 - d) as [|k|k] eqn:Hk; try lia.
  rewrite Z.shiftl_mul_pow2 by lia. rewrite <- Hk.
  replace (55 - d) with (Z.succ (54 - d)) by lia.
  rewrite Z.pow_succ_r by lia.
  replace (Zpos p * (2 * 2 ^ (54 - d))) with (Zpos p * 2 ^ (54 - d) * 2) by lia.
  pose proof (Z.div_eucl_eq (Zpos p * 2 ^ (54 - d) * 2) 2 ltac:(lia)) as Heq.
  pose proof (Z.mod_pos_bound (Zpos p * 2 ^ (54 - d) * 2) 2 ltac:(lia)) as Hb.
  unfold Z.modulo in Hb.
  destruct (Z.div_eucl (Zpos p * 2 ^ (54 - d) * 2) 2) as [q r].
  assert (r = 0) as -> by lia. assert (q = Zpos p * 2 ^ (54 - d)) as -> by lia.
  reflexivity.
Qed.

Lemma Zdigits2_mul_pow2 p k : 0 <= k ->
  Zdigits2 (Zpos p * 2 ^ k) = Zdigits2 (Zpos p) + k.
Proof.
  intros Hk.
  assert (0 < 2 ^ k) by (apply Z.pow_pos_nonneg; lia).
  rewrite !Zdigits2_log2 by nia.
  rewrite Z.log2_mul_pow2 by lia. lia.
Qed.

Lemma even_pos z : 0 < z -> exists x, z * 2 = Zpos (x~0).
Proof. destruct z as [|x|x]; try lia. intros _. exists x. lia. Qed.

Lemma half_round (p : positive) (d := Zdigits2 (Zpos p)) :
  d <= 53 ->
  binary_round_aux 53 1024 false (Zpos p * 2 ^ (54 - d)) (d - 55) loc_Exact =
  S754_finite false (Z.to_pos (Zpos p * 2 ^ (53 - d))) (d - 54).
Proof.
  intros Hd.
  assert (Hd1 : 1 <= d) by (subst d; simpl; lia).
  assert (Hpow : 0 < 2 ^ (53 - d)) by (apply Z.pow_pos_nonneg; lia).
  set (m := Zpos p * 2 ^ (53 - d)).
  assert (Hm : 0 < m) by (subst m; nia).
  assert (Hq : Zpos p * 2 ^ (54 - d) = m * 2).
  { subst m. replace (54 - d) with (Z.succ (53 - d)) by lia.
    rewrite Z.pow_succ_r by lia. lia. }
  assert (Hdm : Zdigits2 m = 53) by (subst m; rewrite Zdigits2_mul_pow2 by lia; fold d; lia).
  assert (Hdq : Zdigits2 (m * 2) = 54).
  { rewrite <- Hq, Zdigits2_mul_pow2 by lia. fold d. lia. }
  rewrite Hq. unfold binary_round_aux.
  assert (Hfirst : shr_fexp 53 1024 (m * 2) (d - 55) loc_Exact =
                   ({| shr_m := m; shr_r := false; shr_s := false |}, d - 54)).
  { unfold shr_fexp. rewrite Hdq. unfold fexp, emin.
    replace (Z.max (54 + (d - 55) - 53) (3 - 1024 - 53) - (d - 55)) with 1 by lia.
    destruct (even_pos m Hm) as [x Hx]. rewrite Hx. simpl.
    f_equal; [|lia]. f_equal. lia. }
  rewrite Hfirst. simpl shr_m. simpl loc_of_shr_record.
  simpl round_nearest_even.
  assert (Hsecond : shr_fexp 53 1024 m (d - 54) loc_Exact =
                    ({| shr_m := m; shr_r := false; shr_s := false |}, d - 54)).
  { unfold shr_fexp. rewrite Hdm. unfold fexp, emin.
    replace (Z.max (53 + (d - 54) - 53) (3 - 1024 - 53) - (d - 54)) with 0 by lia.
    reflexivity. }
  rewrite Hsecond. simpl shr_m.
  destruct m as [|x|x]; try lia.
  replace (d - 54 <=? 1024 - 53) with true by (symmetry; apply Z.leb_le; lia).
  reflexivity.
Qed.

Lemma truediv_int_half (p : positive) (d := Zdigits2 (Zpos p)) :
  Zpos p < 2 ^ 53 ->
  PyNum.truediv_int (Zpos p) 2 =
  Ok (S754_finite false (Z.to_pos (Zpos p * 2 ^ (53 - d))) (d - 54)).
Proof.
  intros Hlt.
  assert (Hd : d <= 53).
  { subst d. rewrite Zdigits2_log2 by lia.
    assert (Z.log2 (Zpos p) < 53) by (apply Z.log2_lt_pow2; lia). lia. }
  unfold PyNum.truediv_int. simpl Z.eqb. cbv iota.
  unfold PyNum.raw_of_int, SFdiv.
  change PyNum.prec with 53. change PyNum.emax with 1024.
  rewrite (half_core p Hd). cbv iota beta. simpl xorb.
  rewrite (half_round p Hd). reflexivity.
Qed.

Lemma round_half (p : positive) (d := Zdigits2 (Zpos p)) (n := Zpos p) :
  d <= 53 ->
  PyNum.round (PFloat (S754_finite false (Z.to_pos (n * 2 ^ (53 - d))) (d - 54))) =
  Ok (if Z.even n then n / 2 else if Z.even (n / 2) then n / 2 else n / 2 + 1).
Proof.
  intros Hd.
  assert (Hd1 : 1 <= d) by (subst d; simpl; lia).
  assert (Hpow : 0 < 2 ^ (53 - d)) by (apply Z.pow_pos_nonneg; lia).
  unfold PyNum.round, PyNum.to_int_with, PyNum.xval_of_float, cond_Zopp.
  f_equal. rewrite Z2Pos.id by (subst n; nia).
  unfold PyNum.round_half_even_fin.
  replace (0 <=? d - 54) with false by (symmetry; apply Z.leb_gt; lia).
  replace (- (d - 54)) with (Z.succ (53 - d)) by lia.
  rewrite Z.pow_succ_r by lia.
  set (K := 2 ^ (53 - d)) in *.
  cbv zeta.
  assert (Hq : n * K / (2 * K) = n / 2).
  { rewrite (Z.mul_comm 2 K), <- Z.div_div by lia. by rewrite Z.div_mul by lia. }
  assert (Hr : (n * K) mod (2 * K) = (n mod 2) * K).
  { rewrite Z.mul_mod_distr_r by lia. reflexivity. }
  rewrite Hq, Hr.
  pose proof (Z.mod_pos_bound n 2 ltac:(lia)) as Hb.
  destruct (Z.even n) eqn:He; rewrite Zeven_mod in He.
  - apply Z.eqb_eq in He. rewrite He.
    assert ((2 * (0 * K) ?= 2 * K) = Lt) as -> by (apply Z.compare_lt_iff; lia).
    reflexivity.
  - apply Z.eqb_neq in He. assert (n mod 2 = 1) as -> by lia.
    assert ((2 * (1 * K) ?= 2 * K) = Eq) as -> by (apply Z.compare_eq_iff; lia).
    reflexivity.
Qed.

Lemma result_bind_Ok {A B} (a : A) (f : A -> result B) : Ok a ≫= f = f a.
Proof. reflexivity. Qed.

(** X9. An explicit request [nframes = n] (an int, [0 < n < 2^53]) is
    rounded by [round(n / 2) * 2] with Python's round-half-to-even: an even
    [n] is kept, an odd [n] goes to the neighbouring multiple of 4 (5 to 4,
    7 to 8). The rounded count is then clamped to [total_frames]; the
    result is returned when it is at least 2 and refused otherwise. *)
Theorem explicit_nframes_rounding
    (ele : dict value) (n total_frames : Z) (video_fps : pynum) :
  Dict.get "nframes" ele = Some (VNum (PInt n)) ->
  Dict.mem "fps" ele = false ->
  0 < n < 2 ^ 53 ->
  let nearest := if Z.even n then n else 4 * ((n + 1) / 4) in
  Vision.round_by_factor (PInt n) 2 = Ok nearest /\
  (2 <= Z.min nearest total_frames ->
   Vision.smart_nframes Vision.qwen_vl_utils_consts ele total_frames video_fps
     = Ok (Z.min nearest total_frames)) /\
  (Z.min nearest total_frames < 2 ->
   exists e : exn,
     Vision.smart_nframes Vision.qwen_vl_utils_consts ele total_frames video_fps
       = Raise e).
Proof.
  intros Hget Hfps Hn nearest.
  assert (Hround : Vision.round_by_factor (PInt n) 2 = Ok nearest).
  { destruct n as [|p|p]; try lia.
    assert (Hd : Zdigits2 (Zpos p) <= 53).
    { rewrite Zdigits2_log2 by lia.
      assert (Z.log2 (Zpos p) < 53) by (apply Z.log2_lt_pow2; lia). lia. }
    unfold Vision.round_by_factor.
    change (PyNum.truediv (PInt (Zpos p)) (PInt 2))
      with (PyNum.truediv_int (Zpos p) 2).
    rewrite truediv_int_half by lia. rewrite result_bind_Ok.
    rewrite (round_half p Hd). rewrite result_bind_Ok. f_equal. subst nearest.
    destruct (Z.even (Zpos p)) eqn:He; rewrite Zeven_mod in He.
    - apply Z.eqb_eq in He. Z.div_mod_to_equations. lia.
    - apply Z.eqb_neq in He.
      destruct (Z.even (Zpos p / 2)) eqn:He2; rewrite Zeven_mod in He2;
        [apply Z.eqb_eq in He2 | apply Z.eqb_neq in He2];
        Z.div_mod_to_equations; lia. }
  split; [exact Hround|].
  assert (Hrun :
            Vision.smart_nframes Vision.qwen_vl_utils_consts ele total_frames video_fps
            = Vision.check_range Vision.qwen_vl_utils_consts
                (Z.min nearest total_frames) total_frames).
  { unfold Vision.smart_nframes, Vision.nframes_branch, Dict.getitem, Dict.mem.
    fold (Dict.mem "fps" ele). rewrite Hfps, Hget. simpl.
    change (Vision.round_by_factor (PInt n) 2 ≫= _) with
      (Vision.round_by_factor (PInt n) 2 ≫=
         fun nframes => Ok (Z.min nframes total_frames)) at 1.
    rewrite Hround. reflexivity. }
  rewrite Hrun. unfold Vision.check_range. simpl Vision.FRAME_FACTOR.
  split.
  - intros Hlo.
    rewrite (proj2 (Z.leb_le _ _) Hlo), (proj2 (Z.leb_le _ _) (Z.le_min_r _ _)).
    reflexivity.
  - intros Hlo. rewrite (proj2 (Z.leb_gt _ _) Hlo). simpl. eauto.
Qed.

Lemma explicit_nframes_rounding_witness :
  Vision.round_by_factor (PInt 5) 2 = Ok 4 /\
  Vision.smart_nframes Vision.qwen_vl_utils_consts
    [("nframes"%string, VNum (PInt 5))] 300 Fixture.native_fps = Ok 4.
Proof.
  destruct (explicit_nframes_rounding [("nframes"%string, VNum (PInt 5))]
              5 300 Fixture.native_fps eq_refl eq_refl
              ltac:(split; reflexivity))
    as (Hround & Hok & _).
  split; [exact Hround|]. apply Hok. vm_compute. discriminate.
Defined.

(** ** The request [run_lvu_model] builds *)

Lemma dict_get_set {V} (k k' : string) (v : V) (d : dict V) :
  Dict.get k (Dict.set k' v d) = if String.eqb k k' then Some v else Dict.get k d.
Proof.
  induction d as [|[k0 v0] d IH]; simpl.
  - reflexivity.
  - destruct (String.eqb k' k0) eqn:Hk'; simpl.
    + apply String.eqb_eq in Hk' as ->. by destruct (String.eqb k k0).
    + destruct (String.eqb k k0) eqn:Hk0; [|exact IH].
      apply String.eqb_eq in Hk0 as ->.
      destruct (String.eqb k0 k') eqn:Hkk; [|reflexivity].
      apply String.eqb_eq in Hkk as ->. by rewrite String.eqb_refl in Hk'.
Qed.

Section RequestFacts.
Import Driver.

Lemma video_content_of_lookup lvu_config video_path video_content :
  video_content_of lvu_config video_path = Ok video_content ->
  Dict.get "type" video_content = Some (VStr "video") /\
  Dict.get "video" video_content = Some (VStr video_path) /\
  Dict.get "max_pixels" video_content = (requested_pixels lvu_config).1 /\
  Dict.get "min_pixels" video_content = (requested_pixels lvu_config).2 /\
  Dict.get "fps" video_content = VNum <$> fps lvu_config /\
  Dict.get "nframes" video_content =
    match fps lvu_config with
    | Some _ => None
    | None => VNum <$> num_frames lvu_config
    end.
Proof.
  unfold video_content_of, requested_pixels, Dict.get_default.
  destruct (Dict.get "max_pixels" (default [] (extra_kwargs lvu_config)))
    as [[| |]|];
    destruct (Dict.get "min_pixels" (default [] (extra_kwargs lvu_config)))
      as [[| |]|];
    destruct (fps lvu_config), (num_frames lvu_config);
    intros [= <-]; rewrite ?dict_get_set; simpl; auto 10.
Qed.

Lemma extract_vision_info_messages_of video_content question :
  Dict.mem "video" video_content = true ->
  extract_vision_info (messages_of video_content question) = Ok [video_content].
Proof.
  intros Hvideo. unfold messages_of. simpl.
  unfold is_vision_part at 1. rewrite Hvideo, !orb_true_r. reflexivity.
Qed.
End RequestFacts.

(** X10. The request [run_lvu_model] builds is a video entry for the given
    path. It carries [max_pixels] from [extra_kwargs], 360 * 420 = 151200
    when [extra_kwargs] does not name it, and none when it is [None]; it
    carries [min_pixels] only when [extra_kwargs] gives one; it carries
    ["fps"] when a frame rate is configured and ["nframes"] only when none
    is. *)
Theorem run_lvu_model_request
    (lvu_config : LVUConfig) (video_path : string) (video_content : dict value) :
  Driver.video_content_of lvu_config video_path = Ok video_content ->
  Dict.get "type" video_content = Some (VStr "video") /\
  Dict.get "video" video_content = Some (VStr video_path) /\
  Dict.get "max_pixels" video_content = (requested_pixels lvu_config).1 /\
  Dict.get "min_pixels" video_content = (requested_pixels lvu_config).2 /\
  Dict.get "fps" video_content = VNum <$> fps lvu_config /\
  Dict.get "nframes" video_content =
    match fps lvu_config with
    | Some _ => None
    | None => VNum <$> num_frames lvu_config
    end.
Proof. apply video_content_of_lookup. Qed.

Lemma run_lvu_model_request_witness :
  exists video_content : dict value,
    Driver.video_content_of Scenario.config_small "/videos/cat.mp4" = Ok video_content /\
    Dict.get "max_pixels" video_content = Some (VNum (PInt 151200)) /\
    Dict.get "min_pixels" video_content = None /\
    Dict.get "nframes" video_content = Some (VNum (PInt 4)).
Proof.
  eexists. split; [reflexivity|].
  destruct (run_lvu_model_request Scenario.config_small "/videos/cat.mp4" _ eq_refl)
    as (_ & _ & Hmax & Hmin & _ & Hn).
  split; [exact Hmax|]. split; [exact Hmin|exact Hn].
Defined.

(** X11. The messages [run_lvu_model] hands to [chat_lvu_model] hold
    exactly one vision entry, the video request: the one-video assertion of
    the frame-extraction path never fires on them, and the cache file is
    named after the stem of the video path followed by the request's other
    parameters. *)
Theorem run_lvu_model_messages_have_one_video
    {Img Frame VK PixRow SPG IGrid P RD KV KT GK : Type}
    (self : Driver.collaborators Img Frame VK PixRow SPG IGrid P RD KV KT GK)
    (lvu_config cfg : LVUConfig) (video_path question : string)
    (video_content : dict value) :
  Driver.video_content_of lvu_config video_path = Ok video_content ->
  Driver.extract_vision_info (Driver.messages_of video_content question)
    = Ok [video_content] /\
  exists cache_dir : string,
    Driver.cache_paths_of self cfg (Driver.messages_of video_content question) =
    Ok (cache_dir,
        Driver.path_join self cache_dir
          ((Driver.path_stem self video_path
            ++ Driver.cache_key_suffix self video_content) ++ ".pt")%string).
Proof.
  intros Hvc.
  pose proof (video_content_of_lookup _ _ _ Hvc) as (_ & Hvideo & _).
  assert (Hmem : Dict.mem "video" video_content = true)
    by (unfold Dict.mem; by rewrite Hvideo).
  pose proof (extract_vision_info_messages_of video_content question Hmem) as Hinfo.
  split; [exact Hinfo|].
  unfold Driver.cache_paths_of. rewrite Hinfo. simpl.
  unfold Dict.getitem. rewrite Hvideo. simpl.
  eexists. reflexivity.
Qed.

Lemma run_lvu_model_messages_have_one_video_witness :
  let video_content : dict value :=
    [("type", VStr "video"); ("video", VStr "/videos/cat.mp4");
     ("max_pixels", VNum (PInt 151200)); ("nframes", VNum (PInt 4))]%string in
  Driver.video_content_of Scenario.config_small "/videos/cat.mp4" = Ok video_content /\
  Driver.cache_paths_of (Fixture.model 2 6 [5; 6]) Scenario.config_small
    (Driver.messages_of video_content "what?") =
  Ok ("~/.cache/video_cache/qwen25_vl",
      "~/.cache/video_cache/qwen25_vl//videos/cat.mp4_max_pixels=151200_nframes=4.pt")%string.
Proof.
  intros video_content. split; [reflexivity|].
  destruct (run_lvu_model_messages_have_one_video (Fixture.model 2 6 [5; 6])
              Scenario.config_small Scenario.config_small
              "/videos/cat.mp4" "what?" video_content eq_refl)
    as (_ & cache_dir & Hpaths).
  etrans; [exact Hpaths|]. vm_compute in Hpaths. injection Hpaths as <- _.
  vm_compute. reflexivity.
Defined.

(** ** The frame cache: what it shares and what it writes *)

Section CacheFacts.
Import Driver.
Context {Img Frame VK PixRow SPG IGrid P RD KV KT GK : Type}.
Variable self : collaborators Img Frame VK PixRow SPG IGrid P RD KV KT GK.
Abbreviation world := (Driver.world Img Frame VK PixRow SPG P RD KV).

(** A request differs from the request for another path in its ["video"]
    entry only. *)
Lemma video_content_of_shape lvu_config video_path video_content :
  video_content_of lvu_config video_path = Ok video_content ->
  exists tail : dict value,
    video_content =
      ("type"%string, VStr "video") :: ("video"%string, VStr video_path) :: tail /\
    forall video_path',
      video_content_of lvu_config video_path' =
      Ok (("type"%string, VStr "video") :: ("video"%string, VStr video_path') :: tail).
Proof.
  unfold video_content_of.
  destruct (Dict.get_default "max_pixels" _ _);
    destruct (Dict.get_default "min_pixels" _ _);
    destruct (fps lvu_config), (num_frames lvu_config);
    intros [= <-]; simpl; eexists; (split; [reflexivity|]); reflexivity.
Qed.

(** The cache file of a request built by [video_content_of]; the
    directory depends on the configuration alone. *)
Lemma cache_paths_of_request (cfg : LVUConfig) :
  exists cache_dir : string,
    forall lvu_config video_path question video_content,
      video_content_of lvu_config video_path = Ok video_content ->
      cache_paths_of self cfg (messages_of video_content question) =
      Ok (cache_dir,
          path_join self cache_dir
            ((path_stem self video_path
              ++ cache_key_suffix self video_content) ++ ".pt")%string).
Proof.
  eexists. intros lvu_config video_path question video_content Hvc.
  pose proof (video_content_of_lookup _ _ _ Hvc) as (_ & Hvideo & _).
  assert (Hmem : Dict.mem "video" video_content = true)
    by (unfold Dict.mem; by rewrite Hvideo).
  unfold cache_paths_of.
  rewrite (extract_vision_info_messages_of video_content question Hmem). simpl.
  unfold Dict.getitem. rewrite Hvideo. reflexivity.
Qed.

(** After a run that returned, the cache file holds what was returned and
    the configuration is untouched. *)
Lemma extract_frames_Ok_inv messages (w w1 : world) inputs :
  extract_frames self messages w = (Ok inputs, w1) ->
  exists cache_dir cache_file,
    cache_paths_of self (w_config w) messages = Ok (cache_dir, cache_file) /\
    w_config w1 = w_config w /\
    w_files w1 !! cache_file = Some (Saved inputs).
Proof.
  intros H. rewrite extract_frames_run in H.
  destruct (cache_paths_of self (w_config w) messages)
    as [[cache_dir cache_file]|e]; [|discriminate].
  exists cache_dir, cache_file. split; [reflexivity|].
  destruct (w_files w !! cache_file) as [[found|]|] eqn:Hfile; [|discriminate|].
  - injection H as -> <-. auto.
  - destruct (process_vision_info self messages) as [decoded|]; [|discriminate].
    destruct (torch_save_failure self decoded cache_file) as [[e created]|];
      [discriminate|].
    injection H as -> <-. simpl. by rewrite lookup_insert_eq.
Qed.
End CacheFacts.

(** X12. The cache file is named after the stem of the video path and the
    request's parameters, not after the path: once the frames of one video
    are cached, a turn on another path with the same stem, under the same
    configuration and whatever the question, is served the first video's
    frames from the cache and decodes nothing. *)
Theorem frame_cache_shared_by_stem
    {Img Frame VK PixRow SPG IGrid P RD KV KT GK : Type}
    (self : Driver.collaborators Img Frame VK PixRow SPG IGrid P RD KV KT GK)
    (w w1 : Driver.world Img Frame VK PixRow SPG P RD KV)
    (video_path video_path' question question' : string)
    (video_content video_content' : dict value)
    (inputs : Driver.payload Img Frame VK) :
  Driver.video_content_of (Driver.w_config w) video_path = Ok video_content ->
  Driver.video_content_of (Driver.w_config w) video_path' = Ok video_content' ->
  Driver.path_stem self video_path = Driver.path_stem self video_path' ->
  Driver.extract_frames self (Driver.messages_of video_content question) w
    = (Ok inputs, w1) ->
  exists w2 : Driver.world Img Frame VK PixRow SPG P RD KV,
    Driver.extract_frames self (Driver.messages_of video_content' question') w1
      = (Ok inputs, w2) /\
    decode_calls (Driver.w_trace w2) = decode_calls (Driver.w_trace w1) /\
    Driver.w_files w2 = Driver.w_files w1.
Proof.
  intros Hvc Hvc' Hstem Hfirst.
  apply extract_frames_Ok_inv in Hfirst
    as (cache_dir & cache_file & Hpaths & Hcfg & Hfile).
  destruct (video_content_of_shape _ _ _ Hvc) as (tail & -> & Hshape).
  rewrite Hshape in Hvc'. injection Hvc' as <-.
  assert (Hpaths' :
            Driver.cache_paths_of self (Driver.w_config w1)
              (Driver.messages_of
                 (("type"%string, VStr "video")
                  :: ("video"%string, VStr video_path') :: tail) question')
            = Ok (cache_dir, cache_file)).
  { destruct (cache_paths_of_request self (Driver.w_config w)) as [dir Hdir].
    rewrite Hcfg, <- Hpaths.
    rewrite (Hdir _ _ question' _ (Hshape video_path')).
    rewrite (Hdir _ _ question _ (Hshape video_path)).
    by rewrite Hstem. }
  rewrite extract_frames_run, Hpaths', Hfile.
  eexists. split; [reflexivity|]. simpl.
  rewrite !decode_calls_snoc. simpl. split; [lia|reflexivity].
Qed.

Lemma frame_cache_shared_by_stem_witness :
  let cfg := Scenario.config_small in
  let cat : dict value :=
    [("type", VStr "video"); ("video", VStr "/videos/cat.mp4");
     ("max_pixels", VNum (PInt 151200)); ("nframes", VNum (PInt 4))]%string in
  let other : dict value :=
    [("type", VStr "video"); ("video", VStr "/elsewhere/cat.mkv");
     ("max_pixels", VNum (PInt 151200)); ("nframes", VNum (PInt 4))]%string in
  let first := Driver.extract_frames PathFixture.model
                 (Driver.messages_of cat "what?") (Fixture.fresh cfg) in
  let second := Driver.extract_frames PathFixture.model
                  (Driver.messages_of other "who?") first.2 in
  second.1 = first.1 /\
  decode_calls (Driver.w_trace second.2) = 1%nat.
Proof.
  intros cfg cat other first second.
  assert (Hfirst : first = (Ok {| Driver.image_inputs := None;
                                  Driver.video_inputs := [[tt; tt; tt; tt]];
                                  Driver.video_kwargs := tt |}, first.2))
    by (vm_compute; reflexivity).
  destruct (frame_cache_shared_by_stem PathFixture.model (Fixture.fresh cfg)
              first.2 "/videos/cat.mp4" "/elsewhere/cat.mkv" "what?" "who?"
              cat other _ eq_refl eq_refl eq_refl Hfirst)
    as (w2 & Hsecond & Hdecodes & _).
  subst second. rewrite Hsecond. split; [by rewrite Hfirst|].
  simpl. rewrite Hdecodes. vm_compute. reflexivity.
Defined.

(** X13. The frame-extraction path writes at most one file, the cache
    file of the request, and never the shared configuration: every other
    file is left as it was, and so are all files on a hit and when no
    cache file can be named. On a miss, a run that returns leaves the
    decoded frames in the cache file; a decode that raises writes nothing;
    a [torch.save] that raises leaves the files as they were or a
    truncated cache file behind, and never a loadable one. *)
Theorem extract_frames_writes_one_file
    {Img Frame VK PixRow SPG IGrid P RD KV KT GK : Type}
    (self : Driver.collaborators Img Frame VK PixRow SPG IGrid P RD KV KT GK)
    (messages : list Driver.message)
    (w w1 : Driver.world Img Frame VK PixRow SPG P RD KV)
    (r : result (Driver.payload Img Frame VK)) :
  Driver.extract_frames self messages w = (r, w1) ->
  Driver.w_config w1 = Driver.w_config w /\
  match Driver.cache_paths_of self (Driver.w_config w) messages with
  | Raise _ => Driver.w_files w1 = Driver.w_files w
  | Ok (_, cache_file) =>
      (forall path : string, path <> cache_file ->
         Driver.w_files w1 !! path = Driver.w_files w !! path) /\
      (is_Some (Driver.w_files w !! cache_file) ->
       Driver.w_files w1 = Driver.w_files w) /\
      (Driver.w_files w !! cache_file = None ->
       match r with
       | Ok inputs =>
           Driver.w_files w1 = <[cache_file := Driver.Saved inputs]> (Driver.w_files w)
       | Raise e =>
           match Driver.process_vision_info self messages with
           | Raise _ => Driver.w_files w1 = Driver.w_files w
           | Ok decoded =>
               exists created : bool,
                 Driver.torch_save_failure self decoded cache_file
                   = Some (e, created) /\
                 Driver.w_files w1 =
                   if created
                   then <[cache_file := Driver.Truncated]> (Driver.w_files w)
                   else Driver.w_files w
           end
       end)
  end.
Proof.
  intros H. rewrite extract_frames_run in H.
  destruct (Driver.cache_paths_of self (Driver.w_config w) messages)
    as [[cache_dir cache_file]|e] eqn:Hpaths.
  - destruct (Driver.w_files w !! cache_file) as [found|] eqn:Hfile.
    + injection H as <- <-. simpl. split; [reflexivity|].
      split_and!; [done|done|discriminate].
    + destruct (Driver.process_vision_info self messages) as [decoded|e].
      * destruct (Driver.torch_save_failure self decoded cache_file)
          as [[e created]|] eqn:Hsave; injection H as <- <-; simpl.
        -- split; [reflexivity|]. split_and!.
           ++ intros path Hne. destruct created; [|reflexivity].
              by rewrite lookup_insert_ne.
           ++ by intros [? [=]].
           ++ intros _. by exists created.
        -- split; [reflexivity|]. split_and!.
           ++ intros path Hne. by rewrite lookup_insert_ne.
           ++ by intros [? [=]].
           ++ done.
      * injection H as <- <-. simpl. split; [reflexivity|].
        split_and!; done.
  - injection H as <- <-. split; reflexivity.
Qed.

Lemma extract_frames_writes_one_file_witness :
  let messages :=
    Driver.messages_of
      [("type", VStr "video"); ("video", VStr "/videos/cat.mp4");
       ("nframes", VNum (PInt 4))]%string "what?" in
  let self :=
    FailingFixture.model None (Some (FailingFixture.disk_full, true)) in
  let run := Driver.extract_frames self messages
               (Fixture.fresh Scenario.config_small) in
  run.1 = Raise FailingFixture.disk_full /\
  forall path : string,
    Driver.w_files run.2 !! path = None \/
    Driver.w_files run.2 !! path = Some Driver.Truncated.
Proof.
  intros messages self run.
  assert (Hrun : run = (Raise FailingFixture.disk_full, run.2))
    by (vm_compute; reflexivity).
  pose proof (extract_frames_writes_one_file self messages
                (Fixture.fresh Scenario.config_small) run.2 _ Hrun)
    as [_ Hfiles].
  split; [by rewrite Hrun|]. intros path.
  destruct (Driver.cache_paths_of self _ messages) as [[cache_dir cache_file]|e].
  - destruct Hfiles as (_ & _ & Hmiss).
    specialize (Hmiss (lookup_empty cache_file)).
    destruct (Driver.process_vision_info self messages) as [decoded|e].
    + destruct Hmiss as ([] & _ & ->).
      * destruct (decide (path = cache_file)) as [->|Hne].
        -- right. apply lookup_insert_eq.
        -- left. by rewrite lookup_insert_ne.
      * left. apply lookup_empty.
    + rewrite Hmiss. left. apply lookup_empty.
  - rewrite Hfiles. left. apply lookup_empty.
Defined.

(** ** The prefill loop: how the prompt is cut *)

Section SliceFacts.
Context {A : Type}.

Lemma slice_self_length (a b : nat) (l : list A) :
  Driver.slice a (a + length (Driver.slice a b l)) l = Driver.slice a b l.
Proof.
  unfold Driver.slice.
  replace (a + length (take (b - a) (drop a l)) - a)%nat
    with (length (take (b - a) (drop a l))) by lia.
  rewrite length_take.
  destruct (Nat.min_spec (b - a) (length (drop a l))) as [[Hlt ->]|[Hge ->]].
  - reflexivity.
  - by rewrite !take_ge by lia.
Qed.

Lemma slice_app (a b c : nat) (l : list A) :
  (a <= b <= c)%nat ->
  Driver.slice a b l ++ Driver.slice b c l = Driver.slice a c l.
Proof.
  intros [Hab Hbc]. unfold Driver.slice.
  replace (drop b l) with (drop (b - a) (drop a l))
    by (rewrite drop_drop; f_equal; lia).
  replace (c - a)%nat with ((b - a) + (c - b))%nat by lia.
  by rewrite take_take_drop.
Qed.

Lemma slice_from_zero (b : nat) (l : list A) :
  Driver.slice 0 b l ++ drop b l = l.
Proof. unfold Driver.slice. rewrite Nat.sub_0_r, drop_0. apply take_drop. Qed.
End SliceFacts.

Lemma arange_shift_app (a b c : nat) :
  (a <= b <= c)%nat ->
  ((fun k => k + Z.of_nat a) <$> CachePos.arange (b - a))
  ++ ((fun k => k + Z.of_nat b) <$> CachePos.arange (c - b))
  = (fun k => k + Z.of_nat a) <$> CachePos.arange (c - a).
Proof.
  intros [Hab Hbc]. rewrite <- !drop_arange.
  replace (drop b (CachePos.arange c))
    with (drop (b - a) (drop a (CachePos.arange c)))
    by (rewrite drop_drop; f_equal; lia).
  replace (drop a (CachePos.arange b))
    with (take (b - a) (drop a (CachePos.arange c))).
  - apply take_drop.
  - rewrite take_drop_commute. f_equal.
    + unfold CachePos.arange. rewrite <- fmap_take. f_equal.
      rewrite take_seq. f_equal. lia.
Qed.

Section LoopFacts.
Import Driver DriverSpec TraceSpec.
Context {Img Frame VK PixRow SPG IGrid P RD KV KT GK : Type}.
Variable self : collaborators Img Frame VK PixRow SPG IGrid P RD KV KT GK.
Abbreviation world := (Driver.world Img Frame VK PixRow SPG P RD KV).
Abbreviation M := (@Driver.M Img Frame VK PixRow SPG P RD KV).

Lemma M_bind_Ok_inv {A B} (m : M A) (f : A -> M B) (w w' : world) (b : B) :
  (m ≫= f) w = (Ok b, w') ->
  exists a w1, m w = (Ok a, w1) /\ f a w1 = (Ok b, w').
Proof.
  intros H. apply M_bind_inv in H as [(e & _ & [=])|H]. exact H.
Qed.


Lemma lift_Ok_inv {A} (r : result A) (w w1 : world) (a : A) :
  lift r w = (Ok a, w1) -> r = Ok a /\ w1 = w.
Proof. by intros [= -> <-]. Qed.

Lemma after_calls_nil (w : world) : after_calls w [] = w.
Proof. destruct w. unfold after_calls. simpl. by rewrite app_nil_r. Qed.

Lemma after_calls_cons (w : world) call calls :
  after_calls (after_calls w [call]) calls = after_calls w (call :: calls).
Proof. unfold after_calls. simpl. by rewrite <- app_assoc. Qed.

(** One iteration that returns: the call it made and the new pointer. *)
Lemma prefill_group_Ok whole position_ids gr i pixels past_key_values past_len
    (w w' : world) st' :
  prefill_group self whole position_ids gr i pixels (past_key_values, past_len) w
    = (Ok st', w') ->
  exists stop call,
    let ids := slice past_len stop (input_ids whole) in
    w' = after_calls w [call] /\
    st'.2 = (past_len + length ids)%nat /\
    g_input_ids call = ids /\
    g_cache_position call =
      (fun k => k + Z.of_nat past_len) <$> CachePos.arange (length ids) /\
    g_pixel_values_videos call = pixels /\
    g_use_cache call = true /\
    g_past_key_values call =
      (if adaptive_local_attention (w_config w) then Some past_key_values else None).
Proof.
  unfold prefill_group. intros H.
  apply M_bind_Ok_inv in H as (grid_i & w1 & Hgrid & H).
  apply lift_Ok_inv in Hgrid as [_ ->].
  apply M_bind_Ok_inv in H as (stop & w1 & Hstop & H).
  apply lift_Ok_inv in Hstop as [_ ->].
  cbv zeta in H.
  apply M_bind_Ok_inv in H as (cfg & w1 & Hcfg & H).
  injection Hcfg as <- <-.
  apply M_bind_Ok_inv in H as ([] & w1 & Hemit & H).
  injection Hemit as <-.
  apply M_bind_Ok_inv in H as (out & w1 & Hout & H).
  apply lift_Ok_inv in Hout as [_ ->].
  match type of H with
  | context [EForward _ ?c] => set (call := c) in *
  end.
  exists stop, call. cbv zeta.
  assert (Hw : w' = after_calls w [call] /\
               st'.2 = (past_len + length (slice past_len stop (input_ids whole)))%nat).
  { destruct (adaptive_local_attention (w_config w)).
    - injection H as <- <-. split; reflexivity.
    - destruct (cache_is_falsy self past_key_values).
      + injection H as <- <-. split; reflexivity.
      + apply M_bind_Ok_inv in H as (merged & w1 & Hmerged & H).
        apply lift_Ok_inv in Hmerged as [_ ->].
        injection H as <- <-. split; reflexivity. }
  destruct Hw as [-> ->]. repeat split; reflexivity.
Qed.

(** The loop, when it returns: one call per pixel group, on consecutive
    slices of the prompt. *)
Lemma prefill_loop_Ok whole position_ids gr pixel_groups :
  forall i past_key_values past_len (w w' : world) st',
    prefill_loop self whole position_ids gr i pixel_groups
      (past_key_values, past_len) w = (Ok st', w') ->
    exists calls,
      w' = after_calls w calls /\
      g_pixel_values_videos <$> calls = pixel_groups /\
      (past_len <= st'.2)%nat /\
      concat (g_input_ids <$> calls) = slice past_len st'.2 (input_ids whole) /\
      concat (g_cache_position <$> calls) =
        ((fun k => k + Z.of_nat past_len) <$> CachePos.arange (st'.2 - past_len)) /\
      Forall (fun call => g_use_cache call = true) calls /\
      (adaptive_local_attention (w_config w) = false ->
       Forall (fun call => g_past_key_values call = None) calls) /\
      (adaptive_local_attention (w_config w) = true ->
       Forall (fun call => is_Some (g_past_key_values call)) calls).
Proof.
  induction pixel_groups as [|pixels rest IH];
    intros i past_key_values past_len w w' st' H; simpl in H.
  - injection H as <- <-. exists []. simpl.
    rewrite after_calls_nil, Nat.sub_diag. unfold slice.
    rewrite Nat.sub_diag. repeat split; auto.
  - apply M_bind_Ok_inv in H as ([pkv1 pl1] & w1 & Hgroup & H).
    apply prefill_group_Ok in Hgroup
      as (stop & call & -> & Hpl1 & Hids & Hpos & Hpix & Huse & Hpast).
    simpl in Hpl1.
    apply IH in H
      as (calls & -> & Hpixs & Hle & Hidss & Hposs & Huses & Hpasts & Hgiven).
    exists (call :: calls). simpl.
    assert (Hle1 : (past_len <= pl1)%nat) by lia.
    split; [apply after_calls_cons|].
    split; [by rewrite <- Hpix, <- Hpixs|].
    split; [lia|].
    split.
    { rewrite Hids. change (list_fmap _ _ g_input_ids calls) with (g_input_ids <$> calls).
      rewrite Hidss. rewrite <- (slice_self_length past_len stop), <- Hpl1.
      apply slice_app. lia. }
    split.
    { rewrite Hpos.
      change (list_fmap _ _ g_cache_position calls) with (g_cache_position <$> calls).
      rewrite Hposs.
      replace (length (slice past_len stop (input_ids whole)))
        with (pl1 - past_len)%nat by lia.
      apply arange_shift_app. lia. }
    split; [by constructor|].
    split; intros Hadaptive; constructor.
    + by rewrite Hpast, Hadaptive.
    + by apply Hpasts.
    + rewrite Hpast, Hadaptive. eauto.
    + by apply Hgiven.
Qed.
End LoopFacts.

Section TurnFacts.
Import Driver DriverSpec TraceSpec.
Context {Img Frame VK PixRow SPG IGrid P RD KV KT GK : Type}.
Variable self : collaborators Img Frame VK PixRow SPG IGrid P RD KV KT GK.
Abbreviation world := (Driver.world Img Frame VK PixRow SPG P RD KV).

Lemma fed_ids_app (t1 t2 : list (event PixRow SPG P KV)) :
  fed_ids (t1 ++ t2) = fed_ids t1 ++ fed_ids t2.
Proof.
  induction t1 as [|[] t1 IH]; simpl; rewrite ?IH, ?app_assoc; reflexivity.
Qed.

Lemma fed_positions_app (t1 t2 : list (event PixRow SPG P KV)) :
  fed_positions (t1 ++ t2) = fed_positions t1 ++ fed_positions t2.
Proof.
  induction t1 as [|[] t1 IH]; simpl; rewrite ?IH, ?app_assoc; reflexivity.
Qed.

Lemma forward_calls_app (t1 t2 : list (event PixRow SPG P KV)) :
  forward_calls (t1 ++ t2) = forward_calls t1 ++ forward_calls t2.
Proof.
  induction t1 as [|[] t1 IH]; simpl; rewrite ?IH; reflexivity.
Qed.

Lemma fed_ids_forward cfg (calls : list (group_inputs PixRow SPG P KV)) :
  fed_ids (EForward cfg <$> calls) = concat (g_input_ids <$> calls).
Proof.
  induction calls as [|c calls IH]; simpl; [reflexivity|]. f_equal. exact IH.
Qed.

Lemma fed_positions_forward cfg (calls : list (group_inputs PixRow SPG P KV)) :
  fed_positions (EForward cfg <$> calls) = concat (g_cache_position <$> calls).
Proof.
  induction calls as [|c calls IH]; simpl; [reflexivity|]. f_equal. exact IH.
Qed.

Lemma forward_calls_forward cfg (calls : list (group_inputs PixRow SPG P KV)) :
  forward_calls (EForward cfg <$> calls) = calls.
Proof.
  induction calls as [|c calls IH]; simpl; [reflexivity|]. f_equal. exact IH.
Qed.

(** The frame-extraction path calls the model on nothing. *)
Lemma extract_frames_trace messages (w w0 : world) r :
  extract_frames self messages w = (r, w0) ->
  exists evs,
    w_trace w0 = w_trace w ++ evs /\
    fed_ids evs = [] /\ fed_positions evs = [] /\ forward_calls evs = [].
Proof.
  intros H. rewrite extract_frames_run in H.
  destruct (cache_paths_of self (w_config w) messages)
    as [[cache_dir cache_file]|e].
  - destruct (w_files w !! cache_file).
    + injection H as <- <-. simpl.
      exists [EMkdir cache_dir; ELoad cache_file].
      by rewrite <- app_assoc.
    + destruct (process_vision_info self messages) as [decoded|e].
      * destruct (torch_save_failure self decoded cache_file) as [[e created]|];
          injection H as <- <-; simpl.
        -- exists [EMkdir cache_dir; EDecode messages].
           by rewrite <- !app_assoc.
        -- exists [EMkdir cache_dir; EDecode messages; ESave cache_file].
           by rewrite <- !app_assoc.
      * injection H as <- <-. simpl.
        exists [EMkdir cache_dir; EDecode messages].
        by rewrite <- !app_assoc.
  - injection H as <- <-. exists []. by rewrite app_nil_r.
Qed.

(** The prefill, when it returns. *)
Lemma prefill_Ok_inv messages (w w1 : world) whole past_key_values past_len :
  prefill self messages w = (Ok (whole, past_key_values, past_len), w1) ->
  exists text inputs w0 gr calls,
    apply_chat_template self messages = Ok text /\
    extract_frames self messages w = (Ok inputs, w0) /\
    processor self text inputs = Ok whole /\
    split_groups self (w_config w) (video_inputs inputs) whole
      (count_token (video_token_id self) (input_ids whole)) = Ok gr /\
    w_trace w1 = w_trace w0 ++ (EForward (w_config w) <$> calls) /\
    w_config w1 = w_config w /\
    w_files w1 = w_files w0 /\
    g_pixel_values_videos <$> calls = pixel_values_videos_groups gr /\
    concat (g_input_ids <$> calls) = slice 0 past_len (input_ids whole) /\
    concat (g_cache_position <$> calls) = CachePos.arange past_len /\
    Forall (fun call => g_use_cache call = true) calls /\
    (adaptive_local_attention (w_config w) = false ->
     Forall (fun call => g_past_key_values call = None) calls) /\
    (adaptive_local_attention (w_config w) = true ->
     Forall (fun call => is_Some (g_past_key_values call)) calls).
Proof.
  unfold prefill. intros H.
  apply M_bind_Ok_inv in H as (text & w' & Htext & H).
  apply lift_Ok_inv in Htext as [Htext ->].
  apply M_bind_Ok_inv in H as (inputs & w0 & Hextract & H).
  pose proof (extract_frames_Ok_inv self _ _ _ _ Hextract)
    as (cache_dir & cache_file & _ & Hcfg0 & _).
  apply M_bind_Ok_inv in H as (whole' & w' & Hwhole & H).
  apply lift_Ok_inv in Hwhole as [Hwhole ->].
  cbv zeta in H.
  apply M_bind_Ok_inv in H as (last_idx & w' & Hlast & H).
  apply lift_Ok_inv in Hlast as [Hlast ->].
  apply M_bind_Ok_inv in H as ([position_ids rope_deltas] & w' & Hrope & H).
  apply lift_Ok_inv in Hrope as [Hrope ->].
  apply M_bind_Ok_inv in H as ([] & w' & Hset & H).
  injection Hset as <-.
  apply M_bind_Ok_inv in H as (cfg & w' & Hcfg & H).
  injection Hcfg as <- <-. simpl in H.
  apply M_bind_Ok_inv in H as (gr & w' & Hgr & H).
  apply lift_Ok_inv in Hgr as [Hgr ->].
  apply M_bind_Ok_inv in H as ([pkv' pl'] & w' & Hloop & H).
  injection H as -> -> -> ->.
  apply prefill_loop_Ok in Hloop
    as (calls & -> & Hpix & _ & Hids & Hpos & Huse & Hpast & Hgiven).
  simpl in *. rewrite Hcfg0 in *.
  exists text, inputs, w0, gr, calls.
  rewrite Nat.sub_0_r in Hpos.
  split_and!; try done.
  rewrite Hpos. rewrite <- (list_fmap_id (CachePos.arange past_len)) at 2.
  apply list_fmap_ext. intros i x _. simpl. lia.
Qed.
End TurnFacts.

(** X14. On a turn that returns, the model is fed every token of the
    prompt exactly once and in order: the slices of the prefill calls
    followed by the slice of the generation call make up the processor's
    [input_ids], and the cache positions passed along with them count
    0, 1, 2, ... up to the length of the prompt, whatever the token counts
    of the groups are. *)
Theorem every_token_fed_once
    {Img Frame VK PixRow SPG IGrid P RD KV KT GK : Type}
    (self : Driver.collaborators Img Frame VK PixRow SPG IGrid P RD KV KT GK)
    (messages : list Driver.message) (generation_kwargs : GK)
    (w w' : Driver.world Img Frame VK PixRow SPG P RD KV)
    (output_text : list string) :
  Driver.chat_lvu_model self messages generation_kwargs w = (Ok output_text, w') ->
  exists (text : string) (inputs : Driver.payload Img Frame VK)
         (whole : Driver.whole_inputs PixRow SPG IGrid)
         (evs : list (Driver.event PixRow SPG P KV)),
    Driver.apply_chat_template self messages = Ok text /\
    Driver.processor self text inputs = Ok whole /\
    Driver.w_trace w' = Driver.w_trace w ++ evs /\
    TraceSpec.fed_ids evs = Driver.input_ids whole /\
    TraceSpec.fed_positions evs =
      CachePos.arange (length (Driver.input_ids whole)).
Proof.
  intros Hchat. rewrite chat_lvu_model_run in Hchat.
  destruct (Driver.prefill self messages w)
    as [[[[whole past_key_values] past_len]|e] w1] eqn:Hpre; [|discriminate].
  apply prefill_Ok_inv in Hpre
    as (text & inputs & w0 & gr & calls & Htext & Hextract & Hwhole & _
        & Htrace & _ & _ & _ & Hids & Hpos & _).
  apply extract_frames_trace in Hextract as (evs0 & Htrace0 & Hids0 & Hpos0 & _).
  rewrite final_generation_run in Hchat.
  destruct (past_len <? length (Driver.input_ids whole))%nat eqn:Hlt;
    [|discriminate].
  apply Nat.ltb_lt in Hlt. cbv zeta in Hchat.
  destruct (Driver.generate self _ _ generation_kwargs) as [generated|e];
    [|discriminate].
  injection Hchat as _ <-.
  exists text, inputs, whole.
  eexists (evs0 ++ (Driver.EForward (Driver.w_config w) <$> calls) ++ [_]).
  split; [exact Htext|]. split; [exact Hwhole|].
  split.
  { simpl. rewrite Htrace, Htrace0. by rewrite <- !app_assoc. }
  rewrite !fed_ids_app, !fed_positions_app, Hids0, Hpos0.
  rewrite fed_ids_forward, fed_positions_forward, Hids, Hpos. simpl.
  rewrite !app_nil_r. split.
  - apply slice_from_zero.
  - rewrite length_drop.
    pose proof (arange_shift_app 0 past_len
                  (length (Driver.input_ids whole)) ltac:(lia)) as Happ.
    rewrite !Nat.sub_0_r in Happ.
    assert (Hid : forall l : list Z, (fun k => k + Z.of_nat 0) <$> l = l).
    { intros l. rewrite <- (list_fmap_id l) at 2.
      apply list_fmap_ext. intros i x _. simpl. lia. }
    rewrite !Hid in Happ. exact Happ.
Qed.

Lemma every_token_fed_once_witness :
  let run := Driver.run_lvu_model (Fixture.model 2 6 [5; 6]) "what?"
               "/videos/cat.mp4" tt (Fixture.fresh Scenario.config_small) in
  run.1 = Ok ["17"%string] /\
  exists evs,
    Driver.w_trace run.2 = [] ++ evs /\
    TraceSpec.fed_positions evs = [0; 1; 2; 3; 4; 5; 6; 7; 8; 9].
Proof.
  intros run.
  assert (Hrun : run = (Ok ["17"%string], run.2)) by (vm_compute; reflexivity).
  split; [by rewrite Hrun|].
  unfold run in Hrun at 1. rewrite run_lvu_model_unfold in Hrun.
  simpl Driver.video_content_of in Hrun.
  destruct (every_token_fed_once _ _ _ _ _ _ Hrun)
    as (text & inputs & whole & evs & _ & _ & Htrace & Hids & Hpos).
  exists evs. split; [exact Htrace|].
  rewrite Hpos, <- Hids.
  simpl in Htrace. rewrite <- Htrace. vm_compute. reflexivity.
Defined.

(** ** Splitting into groups *)

Section SplitFacts.
Context {A : Type}.

Lemma concat_chunks (size : nat) :
  (0 < size)%nat ->
  forall (fuel : nat) (l : list A),
    (length l <= fuel)%nat -> concat (Driver.chunks fuel size l) = l.
Proof.
  intros Hsize. induction fuel as [|fuel IH]; intros l Hlen.
  - destruct l; [reflexivity|simpl in Hlen; lia].
  - destruct l as [|x l]; [reflexivity|].
    change (Driver.chunks (S fuel) size (x :: l))
      with (take size (x :: l) :: Driver.chunks fuel size (drop size (x :: l))).
    simpl concat. rewrite IH; [apply take_drop|].
    rewrite length_drop. simpl in *. lia.
Qed.

Lemma chunks_sizes (size : nat) :
  (0 < size)%nat ->
  forall (fuel : nat) (l : list A),
    Forall (fun c => (0 < length c <= size)%nat) (Driver.chunks fuel size l).
Proof.
  intros Hsize. induction fuel as [|fuel IH]; intros l.
  - constructor.
  - destruct l as [|x l]; [constructor|].
    change (Driver.chunks (S fuel) size (x :: l))
      with (take size (x :: l) :: Driver.chunks fuel size (drop size (x :: l))).
    constructor; [|apply IH].
    rewrite length_take. simpl. lia.
Qed.

(** The first chunk of a list at least [size] long has [size] elements. *)
Lemma chunks_first (size : nat) (l : list A) :
  (0 < size <= length l)%nat ->
  exists rest, Driver.chunks (length l) size l = take size l :: rest /\
               length (take size l) = size.
Proof.
  intros [Hsize Hlen]. destruct l as [|x l]; [simpl in Hlen; lia|].
  eexists. split; [reflexivity|]. rewrite length_take. lia.
Qed.

Lemma split_Ok_inv (size : nat) (l : list A) (cs : list (list A)) :
  Driver.split size l = Ok cs ->
  concat cs = l /\
  Forall (fun c => (length c <= size)%nat) cs /\
  (l <> [] -> (0 < size)%nat /\ Forall (fun c => c <> []) cs).
Proof.
  intros H. destruct (decide (length l = 0)%nat) as [Hnil|Hcons].
  - apply length_zero_iff_nil in Hnil as ->. injection H as <-.
    split; [reflexivity|].
    split; [constructor; [simpl; lia|constructor]|]. done.
  - assert (Hsize : (0 < size)%nat).
    { destruct size; [|lia]. destruct l; [done|discriminate]. }
    assert (Hcs : cs = Driver.chunks (length l) size l).
    { destruct l; [done|]. destruct size; [lia|]. unfold Driver.split in H.
      congruence. }
    subst cs.
    split; [apply concat_chunks; lia|].
    pose proof (chunks_sizes size Hsize (length l) l) as Hs.
    split.
    + eapply Forall_impl; [exact Hs|]. simpl. intros c Hc. lia.
    + intros _. split; [lia|].
      eapply Forall_impl; [exact Hs|]. simpl. intros c Hc ->. simpl in Hc. lia.
Qed.
End SplitFacts.

Lemma mapM_length {A B} (f : A -> result B) (l : list A) (l' : list B) :
  Driver.mapM f l = Ok l' -> length l' = length l.
Proof.
  revert l'. induction l as [|x l IH]; intros l' H; simpl in H.
  - by injection H as <-.
  - bind_inv H. bind_inv H. injection H as <-. simpl. f_equal. by apply IH.
Qed.

Lemma sumZ_len_concat {A} (ls : list (list A)) :
  Driver.sumZ (Driver.len <$> ls) = Driver.len (concat ls).
Proof.
  induction ls as [|l ls IH]; [reflexivity|].
  change (Driver.sumZ (Driver.len <$> l :: ls))
    with (Driver.len l + Driver.sumZ (Driver.len <$> ls)).
  rewrite IH. unfold Driver.len. simpl. rewrite length_app. lia.
Qed.

Section GroupFacts.
Import Driver.
Context {Img Frame VK PixRow SPG IGrid P RD KV KT GK : Type}.
Variable self : collaborators Img Frame VK PixRow SPG IGrid P RD KV KT GK.

(** The groups partition the video and the pixel rows. *)
Lemma split_groups_Ok_inv lvu_config video_inputs whole n_video_tokens gr :
  split_groups self lvu_config video_inputs whole n_video_tokens = Ok gr ->
  exists video,
    video_inputs = [video] /\
    concat (video_groups gr) = video /\
    concat (pixel_values_videos_groups gr) = pixel_values_videos whole /\
    length (video_groups_tokens gr) = length (video_groups gr) /\
    length (video_groups_grid_thw gr) = length (video_groups gr).
Proof.
  unfold split_groups. intros H. bind_inv H.
  apply py_assert_Ok_inv in Ha. apply Nat.leb_le in Ha.
  assert (Hsingle : forall gr,
            single_group video_inputs whole n_video_tokens = Ok gr ->
            exists video,
              video_inputs = [video] /\
              concat (video_groups gr) = video /\
              concat (pixel_values_videos_groups gr) = pixel_values_videos whole /\
              length (video_groups_tokens gr) = length (video_groups gr) /\
              length (video_groups_grid_thw gr) = length (video_groups gr)).
  { intros gr' Hs. unfold single_group, index in Hs.
    destruct video_inputs as [|video [|]]; simpl in *; try discriminate; try lia.
    injection Hs as <-. exists video. simpl. by rewrite !app_nil_r. }
  destruct (video_group_size lvu_config) as [g|]; [|by apply Hsingle].
  destruct (0 <? g); [|by apply Hsingle].
  unfold split_by_size, index in H.
  destruct video_inputs as [|video [|]]; simpl in *; try discriminate; try lia.
  bind_inv H. bind_inv H. bind_inv H. bind_inv H.
  destruct a3 as [[t h] wd]. bind_inv H. bind_inv H. bind_inv H.
  injection H as <-. simpl.
  exists video. split; [reflexivity|].
  apply split_Ok_inv in Ha0 as (Hvideo & _).
  split; [exact Hvideo|].
  split.
  { match goal with
    | Hpix : (if ?z <? 0 then _ else _) = Ok _ |- _ =>
        destruct (z <? 0); [discriminate|];
        by apply split_Ok_inv in Hpix as (? & _)
    end. }
  split; eapply mapM_length; eassumption.
Qed.
End GroupFacts.

Section GroupedFacts.
Import Driver.
Context {Img Frame VK PixRow SPG IGrid P RD KV KT GK : Type}.
Variable self : collaborators Img Frame VK PixRow SPG IGrid P RD KV KT GK.

(** With a positive group size, every group is non-empty, even and at
    most the group size long. *)
Lemma split_by_size_groups g video_inputs whole n_video_tokens gr :
  0 < g ->
  split_by_size self g video_inputs whole n_video_tokens = Ok gr ->
  Forall (fun group : list Frame =>
            0 < len group <= g /\ len group mod 2 = 0) (video_groups gr).
Proof.
  intros Hg H. unfold split_by_size in H.
  bind_inv H. bind_inv H. bind_inv H. bind_inv H.
  assert (Hgroups : video_groups gr = a0).
  { bind_inv H. destruct a3 as [[t h] wd]. do 3 bind_inv H. by injection H as <-. }
  rewrite Hgroups. clear H Hgroups.
  apply py_assert_Ok_inv in Ha1.
  assert (Hvideo : a <> []).
  { intros ->. injection Ha0 as <-. discriminate. }
  apply split_Ok_inv in Ha0 as (Hconcat & Hsizes & Hnonempty).
  destruct (Hnonempty Hvideo) as [_ Hne].
  rewrite forallb_forall in Ha1.
  apply Forall_forall. intros group Hin.
  rewrite Forall_forall in Hsizes, Hne.
  specialize (Hsizes group Hin). specialize (Hne group Hin).
  specialize (Ha1 group (proj1 (list_elem_of_In _ _) Hin)).
  apply Z.eqb_eq in Ha1. unfold len in *.
  destruct group; [done|]. simpl in *. lia.
Qed.
End GroupedFacts.

(** X15. When the groups are formed, they partition the sampled frames
    and the pixel rows: the groups, in order, make up the one video, their
    frame counts sum to its frame count, the pixel groups make up
    [pixel_values_videos], and there is one token count and one grid per
    group of frames. With a positive group size every group is non-empty,
    has an even number of frames and at most the group size. *)
Theorem groups_partition_the_video
    {Img Frame VK PixRow SPG IGrid P RD KV KT GK : Type}
    (self : Driver.collaborators Img Frame VK PixRow SPG IGrid P RD KV KT GK)
    (lvu_config : LVUConfig) (video_inputs : list (list Frame))
    (whole : Driver.whole_inputs PixRow SPG IGrid) (n_video_tokens : Z)
    (gr : Driver.groups Frame PixRow) :
  Driver.split_groups self lvu_config video_inputs whole n_video_tokens = Ok gr ->
  exists video : list Frame,
    video_inputs = [video] /\
    concat (Driver.video_groups gr) = video /\
    Driver.sumZ (Driver.len <$> Driver.video_groups gr) = Driver.len video /\
    concat (Driver.pixel_values_videos_groups gr) = Driver.pixel_values_videos whole /\
    length (Driver.video_groups_tokens gr) = length (Driver.video_groups gr) /\
    length (Driver.video_groups_grid_thw gr) = length (Driver.video_groups gr) /\
    forall g : Z,
      video_group_size lvu_config = Some g -> 0 < g ->
      Forall (fun group : list Frame =>
                0 < Driver.len group <= g /\ Driver.len group mod 2 = 0)
             (Driver.video_groups gr).
Proof.
  intros H.
  destruct (split_groups_Ok_inv self _ _ _ _ _ H)
    as (video & Hvi & Hframes & Hpix & Htok & Hgrid).
  exists video. split; [exact Hvi|]. split; [exact Hframes|].
  split; [by rewrite sumZ_len_concat, Hframes|].
  split; [exact Hpix|]. split; [exact Htok|]. split; [exact Hgrid|].
  intros g Hg Hpos. unfold Driver.split_groups in H. bind_inv H.
  rewrite Hg, (proj2 (Z.ltb_lt _ _) Hpos) in H.
  eapply split_by_size_groups; eassumption.
Qed.

Lemma groups_partition_the_video_witness :
  exists gr : Driver.groups unit unit,
    Driver.split_groups (Fixture.model 20 36 [5; 6]) Scenario.config_30_by_22
      [Scenario.video_30] Scenario.whole_30 2700 = Ok gr /\
    Driver.len <$> Driver.video_groups gr = [22; 8] /\
    Driver.sumZ (Driver.len <$> Driver.video_groups gr) = 30.
Proof.
  destruct (Driver.split_groups (Fixture.model 20 36 [5; 6])
              Scenario.config_30_by_22 [Scenario.video_30] Scenario.whole_30 2700)
    as [gr|e] eqn:Hgr; [|vm_compute in Hgr; discriminate].
  exists gr. split; [reflexivity|].
  destruct (groups_partition_the_video _ _ _ _ _ _ Hgr)
    as (video & Hvi & _ & Hsum & _).
  injection Hvi as <-.
  split; [|exact Hsum].
  vm_compute in Hgr. injection Hgr as <-. vm_compute. reflexivity.
Defined.

(** X16. An odd group size is refused: when the video has at least that
    many frames, the first group has an odd number of them and the
    assertion on the groups fails, before any token count is computed. *)
Theorem odd_group_size_is_refused
    {Img Frame VK PixRow SPG IGrid P RD KV KT GK : Type}
    (self : Driver.collaborators Img Frame VK PixRow SPG IGrid P RD KV KT GK)
    (lvu_config : LVUConfig) (video : list Frame)
    (whole : Driver.whole_inputs PixRow SPG IGrid) (n_video_tokens g : Z) :
  video_group_size lvu_config = Some g ->
  0 < g <= Driver.len video ->
  Z.odd g = true ->
  Driver.split_groups self lvu_config [video] whole n_video_tokens =
    Raise (AssertionError "The video group size should be even.").
Proof.
  intros Hg [Hpos Hlen] Hodd.
  unfold Driver.split_groups. simpl.
  rewrite Hg, (proj2 (Z.ltb_lt _ _) Hpos).
  unfold Driver.split_by_size. simpl.
  unfold Driver.len in Hlen.
  destruct (chunks_first (Z.to_nat g) video ltac:(lia)) as (rest & Hchunks & Hfirst).
  assert (Hsplit : Driver.split (Z.to_nat g) video
                   = Ok (take (Z.to_nat g) video :: rest)).
  { unfold Driver.split. destruct video; [simpl in Hlen; lia|].
    destruct (Z.to_nat g) eqn:Hn; [lia|]. by rewrite <- Hchunks. }
  assert (Hlen1 : Driver.len (take (Z.to_nat g) video) = g)
    by (unfold Driver.len; rewrite Hfirst; lia).
  rewrite Hsplit. simpl. rewrite !Hlen1.
  rewrite Zodd_mod in Hodd. apply Z.eqb_eq in Hodd. rewrite Hodd. reflexivity.
Qed.

Lemma odd_group_size_is_refused_witness :
  Driver.split_groups (Fixture.model 20 36 [5; 6])
    (Fixture.with_frames None (Some (PInt 30)) (Some 15) Fixture.base_config)
    [Scenario.video_30] Scenario.whole_30 2700 =
  Raise (AssertionError "The video group size should be even.").
Proof.
  apply (odd_group_size_is_refused (Fixture.model 20 36 [5; 6])
           (Fixture.with_frames None (Some (PInt 30)) (Some 15) Fixture.base_config)
           Scenario.video_30 Scenario.whole_30 2700 15).
  - reflexivity.
  - split; [reflexivity|]. vm_compute. discriminate.
  - reflexivity.
Defined.

(** ** What the prefill calls carry *)

(** X17. When the prefill returns, the model has been called exactly
    once per pixel group, in order, the i-th call on the rows of the i-th
    group and on nothing else: the calls are as many as the pixel groups
    the splitting formed, their rows are those groups, and so every pixel
    row of the video has been handed over exactly once; the token ids of
    these calls are the first [past_len] tokens of the prompt. *)
Theorem every_pixel_row_fed_once
    {Img Frame VK PixRow SPG IGrid P RD KV KT GK : Type}
    (self : Driver.collaborators Img Frame VK PixRow SPG IGrid P RD KV KT GK)
    (messages : list Driver.message)
    (w w1 : Driver.world Img Frame VK PixRow SPG P RD KV)
    (whole : Driver.whole_inputs PixRow SPG IGrid)
    (past_key_values : option KV) (past_len : nat) :
  Driver.prefill self messages w = (Ok (whole, past_key_values, past_len), w1) ->
  exists (evs : list (Driver.event PixRow SPG P KV))
         (inputs : Driver.payload Img Frame VK)
         (w0 : Driver.world Img Frame VK PixRow SPG P RD KV)
         (gr : Driver.groups Frame PixRow),
    Driver.extract_frames self messages w = (Ok inputs, w0) /\
    Driver.split_groups self (Driver.w_config w) (Driver.video_inputs inputs)
      whole (Driver.count_token (Driver.video_token_id self)
               (Driver.input_ids whole)) = Ok gr /\
    Driver.w_trace w1 = Driver.w_trace w ++ evs /\
    length (TraceSpec.forward_calls evs)
      = length (Driver.pixel_values_videos_groups gr) /\
    Driver.g_pixel_values_videos <$> TraceSpec.forward_calls evs
      = Driver.pixel_values_videos_groups gr /\
    concat (Driver.g_pixel_values_videos <$> TraceSpec.forward_calls evs)
      = Driver.pixel_values_videos whole /\
    TraceSpec.fed_ids evs = take past_len (Driver.input_ids whole).
Proof.
  intros Hpre.
  apply prefill_Ok_inv in Hpre
    as (text & inputs & w0 & gr & calls & _ & Hextract & _ & Hgr
        & Htrace & _ & _ & Hpix & Hids & _).
  pose proof (extract_frames_trace _ _ _ _ _ Hextract)
    as (evs0 & Htrace0 & Hids0 & _ & Hcalls0).
  pose proof (split_groups_Ok_inv _ _ _ _ _ _ Hgr) as (video & _ & _ & Hrows & _).
  exists (evs0 ++ (Driver.EForward (Driver.w_config w) <$> calls)), inputs, w0, gr.
  split; [exact Hextract|]. split; [exact Hgr|].
  split; [by rewrite Htrace, Htrace0, <- app_assoc|].
  rewrite forward_calls_app, fed_ids_app, Hcalls0, Hids0.
  rewrite forward_calls_forward, fed_ids_forward. simpl.
  rewrite Hpix, Hrows, Hids.
  split; [by rewrite <- Hpix, length_fmap|].
  split; [reflexivity|]. split; [reflexivity|].
  unfold Driver.slice. by rewrite Nat.sub_0_r, drop_0.
Qed.

Lemma every_pixel_row_fed_once_witness :
  let messages :=
    Driver.messages_of
      [("type", VStr "video"); ("video", VStr "/videos/cat.mp4");
       ("nframes", VNum (PInt 4))]%string "what?" in
  let run := Driver.prefill (Fixture.model 2 6 [5; 6]) messages
               (Fixture.fresh Scenario.config_small) in
  exists evs,
    Driver.w_trace run.2 = [] ++ evs /\
    length (TraceSpec.forward_calls evs) = 2%nat /\
    length (concat (Driver.g_pixel_values_videos <$> TraceSpec.forward_calls evs))
      = 24%nat.
Proof.
  intros messages run.
  destruct run as [[[[whole pkv] past_len]|e] w1] eqn:Hrun;
    [|vm_compute in Hrun; discriminate].
  destruct (every_pixel_row_fed_once _ _ _ _ _ _ _ Hrun)
    as (evs & inputs & w0 & gr & Hextract & Hgr & Htrace & Hlen & _ & Hrows & _).
  exists evs. split; [exact Htrace|].
  assert (Hinputs : inputs = {| Driver.image_inputs := None;
                                Driver.video_inputs := [[tt; tt; tt; tt]];
                                Driver.video_kwargs := tt |}).
  { vm_compute in Hextract. by injection Hextract as <- _. }
  assert (Hwhole : whole = {|
            Driver.input_ids :=
              [1; 2] ++ replicate 6 Fixture.video_token ++ [5; 6];
            Driver.attention_mask := replicate 10 1;
            Driver.pixel_values_videos := replicate 24 tt;
            Driver.video_grid_thw := [(2, 2, 6)];
            Driver.second_per_grid_ts := tt;
            Driver.image_grid_thw := None |}).
  { vm_compute in Hrun. by injection Hrun as <- _ _ _. }
  subst inputs whole. rewrite Hlen, Hrows.
  vm_compute in Hgr. injection Hgr as <-. split; reflexivity.
Defined.

(** X18. Under one configuration the prefill calls are all alike: every
    call asks for the cache ([use_cache]); without adaptive local
    attention no call is given [past_key_values], so each group is encoded
    on its own, and with it every call is. *)
Theorem prefill_calls_cache_policy
    {Img Frame VK PixRow SPG IGrid P RD KV KT GK : Type}
    (self : Driver.collaborators Img Frame VK PixRow SPG IGrid P RD KV KT GK)
    (messages : list Driver.message)
    (w w1 : Driver.world Img Frame VK PixRow SPG P RD KV)
    (whole : Driver.whole_inputs PixRow SPG IGrid)
    (past_key_values : option KV) (past_len : nat) :
  Driver.prefill self messages w = (Ok (whole, past_key_values, past_len), w1) ->
  exists (evs : list (Driver.event PixRow SPG P KV)),
    Driver.w_trace w1 = Driver.w_trace w ++ evs /\
    Forall (fun call =>
              Driver.g_use_cache call = true /\
              (if adaptive_local_attention (Driver.w_config w)
               then is_Some (Driver.g_past_key_values call)
               else Driver.g_past_key_values call = None))
           (TraceSpec.forward_calls evs).
Proof.
  intros Hpre.
  apply prefill_Ok_inv in Hpre
    as (text & inputs & w0 & gr & calls & _ & Hextract & _ & _
        & Htrace & _ & _ & _ & _ & _ & Huse & Habsent & Hgiven).
  apply extract_frames_trace in Hextract as (evs0 & Htrace0 & _ & _ & Hcalls0).
  exists (evs0 ++ (Driver.EForward (Driver.w_config w) <$> calls)).
  split; [by rewrite Htrace, Htrace0, <- app_assoc|].
  rewrite forward_calls_app, Hcalls0, forward_calls_forward. simpl.
  destruct (adaptive_local_attention (Driver.w_config w)).
  - specialize (Hgiven eq_refl).
    rewrite Forall_forall in Huse, Hgiven |- *. auto.
  - specialize (Habsent eq_refl).
    rewrite Forall_forall in Huse, Habsent |- *. auto.
Qed.

Lemma prefill_calls_cache_policy_witness :
  let messages :=
    Driver.messages_of
      [("type", VStr "video"); ("video", VStr "/videos/cat.mp4");
       ("nframes", VNum (PInt 4))]%string "what?" in
  let run := Driver.prefill (Fixture.model 2 6 [5; 6]) messages
               (Fixture.fresh Scenario.config_small) in
  exists evs,
    Driver.w_trace run.2 = [] ++ evs /\
    Forall (fun call => is_Some (Driver.g_past_key_values call))
           (TraceSpec.forward_calls evs).
Proof.
  intros messages run.
  destruct run as [[[[whole pkv] past_len]|e] w1] eqn:Hrun;
    [|vm_compute in Hrun; discriminate].
  destruct (prefill_calls_cache_policy _ _ _ _ _ _ _ Hrun)
    as (evs & Htrace & Hcalls).
  exists evs. split; [exact Htrace|].
  eapply Forall_impl; [exact Hcalls|]. simpl. intros call [_ Hgiven].
  exact Hgiven.
Defined.

(** ** The answer *)

(** X19. The answer is decoded from the first generated sequence alone,
    with the prompt slice cut off its front: when [model.generate] returns
    the generation input followed by new tokens, exactly the new tokens
    are decoded, and further sequences are ignored. *)
Theorem answer_is_the_generated_suffix
    {Img Frame VK PixRow SPG IGrid P RD KV KT GK : Type}
    (self : Driver.collaborators Img Frame VK PixRow SPG IGrid P RD KV KT GK)
    (whole : Driver.whole_inputs PixRow SPG IGrid)
    (past_key_values : option KV) (past_len : nat) (generation_kwargs : GK)
    (w : Driver.world Img Frame VK PixRow SPG P RD KV)
    (new : list Z) (more : list (list Z)) :
  (past_len < length (Driver.input_ids whole))%nat ->
  Driver.generate self
    (set_enable (do_top_k_for_query (Driver.w_config w)) (Driver.w_config w))
    (Driver.final_inputs_of whole past_key_values past_len) generation_kwargs
    = Ok ((drop past_len (Driver.input_ids whole) ++ new) :: more) ->
  (Driver.final_generation self whole past_key_values past_len
     generation_kwargs w).1
  = Driver.batch_decode self [new].
Proof.
  intros Hlt Hgen. rewrite final_generation_run.
  rewrite (proj2 (Nat.ltb_lt _ _) Hlt). cbv zeta.
  unfold DriverSpec.toggled at 1. simpl Driver.w_config.
  rewrite Hgen. simpl. by rewrite drop_app_length.
Qed.

Lemma answer_is_the_generated_suffix_witness :
  (Driver.final_generation (Fixture.model 20 36 [5; 6]) Scenario.whole_30
     None 2702 tt (Fixture.fresh Scenario.config_small)).1
  = Ok ["17"%string].
Proof.
  rewrite (answer_is_the_generated_suffix (Fixture.model 20 36 [5; 6])
             Scenario.whole_30 None 2702 tt (Fixture.fresh Scenario.config_small)
             [8; 9] []).
  - reflexivity.
  - apply Nat.ltb_lt. vm_compute. reflexivity.
  - vm_compute. reflexivity.
Defined.

(** ** A prompt without video tokens *)

Lemma last_index_from_None (tok : Z) (ids : list Z) :
  tok ∉ ids -> forall i, Driver.last_index_from tok ids i = None.
Proof.
  induction ids as [|x ids IH]; intros Hnot i; simpl; [reflexivity|].
  rewrite IH by (intros Hin; apply Hnot; by right).
  destruct (Z.eqb_spec x tok) as [->|]; [|reflexivity].
  exfalso. apply Hnot. by left.
Qed.

(** X20. If the processor's [input_ids] hold no video token, the turn
    stops with an [IndexError] right after the frames are extracted: the
    model is called on nothing. *)
Theorem prompt_without_video_token
    {Img Frame VK PixRow SPG IGrid P RD KV KT GK : Type}
    (self : Driver.collaborators Img Frame VK PixRow SPG IGrid P RD KV KT GK)
    (messages : list Driver.message) (generation_kwargs : GK)
    (w w0 : Driver.world Img Frame VK PixRow SPG P RD KV)
    (text : string) (inputs : Driver.payload Img Frame VK)
    (whole : Driver.whole_inputs PixRow SPG IGrid) :
  Driver.apply_chat_template self messages = Ok text ->
  Driver.extract_frames self messages w = (Ok inputs, w0) ->
  Driver.processor self text inputs = Ok whole ->
  Driver.video_token_id self ∉ Driver.input_ids whole ->
  Driver.chat_lvu_model self messages generation_kwargs w
    = (Raise IndexError, w0).
Proof.
  intros Htext Hextract Hwhole Hnot.
  rewrite chat_lvu_model_run. unfold Driver.prefill.
  rewrite !M_bind_run. unfold Driver.lift at 1. rewrite Htext.
  rewrite !M_bind_run, Hextract.
  rewrite !M_bind_run. unfold Driver.lift at 1. rewrite Hwhole.
  cbv zeta. rewrite !M_bind_run. unfold Driver.lift at 1.
  unfold Driver.last_token_index. by rewrite last_index_from_None.
Qed.

Lemma prompt_without_video_token_witness :
  let messages :=
    Driver.messages_of
      [("type", VStr "video"); ("video", VStr "/videos/cat.mp4");
       ("nframes", VNum (PInt 4))]%string "what?" in
  let run := Driver.chat_lvu_model (Fixture.model 0 0 [5; 6]) messages tt
               (Fixture.fresh Scenario.config_small) in
  run.1 = Raise IndexError /\
  TraceSpec.forward_calls (Driver.w_trace run.2) = [].
Proof.
  intros messages run.
  pose (first := Driver.extract_frames (Fixture.model 0 0 [5; 6]) messages
                   (Fixture.fresh Scenario.config_small)).
  assert (Hfirst : first = (Ok {| Driver.image_inputs := None;
                                  Driver.video_inputs := [[tt; tt; tt; tt]];
                                  Driver.video_kwargs := tt |}, first.2))
    by (vm_compute; reflexivity).
  assert (Hrun : run = (Raise IndexError, first.2)).
  { apply (prompt_without_video_token (Fixture.model 0 0 [5; 6]) messages tt
             (Fixture.fresh Scenario.config_small) first.2 "<prompt>"
             {| Driver.image_inputs := None;
                Driver.video_inputs := [[tt; tt; tt; tt]];
                Driver.video_kwargs := tt |}
             {| Driver.input_ids := [1; 2; 5; 6];
                Driver.attention_mask := [1; 1; 1; 1];
                Driver.pixel_values_videos := [];
                Driver.video_grid_thw := [(2, 0, 0)];
                Driver.second_per_grid_ts := tt;
                Driver.image_grid_thw := None |}).
    - reflexivity.
    - exact Hfirst.
    - reflexivity.
    - vm_compute. intros Hin. repeat (inversion Hin as [|? ? ? Hin']; subst; clear Hin; rename Hin' into Hin). }
  rewrite Hrun. split; [reflexivity|]. vm_compute. reflexivity.
Defined.

(** ** More or fewer than one vision entry *)

(** X21. A conversation whose messages hold no image or video entry, or
    more than one, is refused by the assertion at the top of the
    frame-extraction path, before anything is decoded, created or traced:
    the turn raises and leaves the world as it was. *)
Theorem one_vision_entry_or_nothing
    {Img Frame VK PixRow SPG IGrid P RD KV KT GK : Type}
    (self : Driver.collaborators Img Frame VK PixRow SPG IGrid P RD KV KT GK)
    (messages : list Driver.message) (generation_kwargs : GK)
    (w : Driver.world Img Frame VK PixRow SPG P RD KV)
    (text : string) (vision_info : list (dict value)) :
  Driver.apply_chat_template self messages = Ok text ->
  Driver.extract_vision_info messages = Ok vision_info ->
  length vision_info <> 1%nat ->
  Driver.chat_lvu_model self messages generation_kwargs w =
    (Raise (AssertionError "Only one video is supported for now."), w).
Proof.
  intros Htext Hinfo Hlen.
  rewrite chat_lvu_model_run. unfold Driver.prefill.
  rewrite !M_bind_run. unfold Driver.lift at 1. rewrite Htext.
  rewrite !M_bind_run, extract_frames_run.
  unfold Driver.cache_paths_of. rewrite Hinfo. simpl.
  by rewrite (proj2 (Nat.eqb_neq _ _) Hlen).
Qed.

Lemma one_vision_entry_or_nothing_witness :
  let video (path : string) : dict value :=
    [("type", VStr "video"); ("video", VStr path)]%string in
  let messages :=
    [{| Driver.msg_role := "user";
        Driver.msg_content :=
          Driver.CParts [video "/videos/cat.mp4"; video "/videos/dog.mp4"] |}] in
  Driver.chat_lvu_model (Fixture.model 2 6 [5; 6]) messages tt
    (Fixture.fresh Scenario.config_small) =
  (Raise (AssertionError "Only one video is supported for now."),
   Fixture.fresh Scenario.config_small).
Proof.
  intros video messages.
  apply (one_vision_entry_or_nothing (Fixture.model 2 6 [5; 6]) messages tt
           (Fixture.fresh Scenario.config_small) "<prompt>"
           [video "/videos/cat.mp4"; video "/videos/dog.mp4"]).
  - reflexivity.
  - reflexivity.
  - simpl. lia.
Defined.

(** ** The configuration after a turn, whatever its outcome *)

(** X22. Whatever a turn does, it leaves the shared configuration as it
    found it, with one exception: when [model.generate] itself raises, the
    enable flag is left at the do-top-k-for-query value, since nothing
    guards the statement that puts it back. *)
Theorem configuration_after_any_turn
    {Img Frame VK PixRow SPG IGrid P RD KV KT GK : Type}
    (self : Driver.collaborators Img Frame VK PixRow SPG IGrid P RD KV KT GK)
    (messages : list Driver.message) (generation_kwargs : GK)
    (w w' : Driver.world Img Frame VK PixRow SPG P RD KV)
    (r : result (list string)) :
  Driver.chat_lvu_model self messages generation_kwargs w = (r, w') ->
  let cfg := Driver.w_config w in
  Driver.w_config w' = cfg \/
  exists (e : exn) (final : Driver.final_inputs KV),
    r = Raise e /\
    Driver.generate self (set_enable (do_top_k_for_query cfg) cfg) final
      generation_kwargs = Raise e /\
    Driver.w_config w' = set_enable (do_top_k_for_query cfg) cfg.
Proof.
  intros Hchat cfg. rewrite chat_lvu_model_run in Hchat.
  destruct (Driver.prefill self messages w)
    as [[[[whole past_key_values] past_len]|e] w1] eqn:Hpre.
  - pose proof (quiet_prefill self messages _ _ _ Hpre) as [Hcfg _].
    fold cfg in Hcfg.
    rewrite final_generation_run in Hchat.
    destruct (past_len <? length (Driver.input_ids whole))%nat.
    + cbv zeta in Hchat.
      destruct (Driver.generate self
                  (Driver.w_config (DriverSpec.toggled
                     (Driver.final_inputs_of whole past_key_values past_len) w1))
                  (Driver.final_inputs_of whole past_key_values past_len)
                  generation_kwargs) as [generated|e] eqn:Hgen.
      * injection Hchat as _ <-. left. exact Hcfg.
      * injection Hchat as <- <-. right.
        exists e, (Driver.final_inputs_of whole past_key_values past_len).
        simpl in *. rewrite Hcfg in *. auto.
    + injection Hchat as _ <-. left. exact Hcfg.
  - pose proof (quiet_prefill self messages _ _ _ Hpre) as [Hcfg _].
    injection Hchat as _ <-. left. exact Hcfg.
Qed.

Lemma configuration_after_any_turn_witness :
  let run := Driver.run_lvu_model (Fixture.model 2 6 []) "what?"
               "/videos/cat.mp4" tt (Fixture.fresh Scenario.config_small) in
  is_ok run.1 = false /\ Driver.w_config run.2 = Scenario.config_small.
Proof.
  intros run. split; [vm_compute; reflexivity|].
  destruct run as [r w'] eqn:Hrun.
  unfold run in Hrun. rewrite run_lvu_model_unfold in Hrun.
  simpl Driver.video_content_of in Hrun.
  destruct (configuration_after_any_turn _ _ _ _ _ _ Hrun)
    as [Hcfg|(e & final & _ & Hgen & _)].
  - exact Hcfg.
  - discriminate Hgen.
Defined.

(** ** The files after a turn *)

Section FilesFacts.
Import Driver DriverSpec TraceSpec.
Context {Img Frame VK PixRow SPG IGrid P RD KV KT GK : Type}.
Variable self : collaborators Img Frame VK PixRow SPG IGrid P RD KV KT GK.
Abbreviation world := (Driver.world Img Frame VK PixRow SPG P RD KV).
Abbreviation M := (@Driver.M Img Frame VK PixRow SPG P RD KV).
Abbreviation keeps := (@TraceSpec.keeps_files Img Frame VK PixRow SPG P RD KV _).

Lemma keeps_ret {A} (a : A) : keeps (mret a : M A).
Proof. by intros w w' r [= <- <-]. Qed.

Lemma keeps_lift {A} (r : result A) : keeps (lift r : M A).
Proof. by intros w w' r' [= <- <-]. Qed.

Lemma keeps_bind {A B} (m : M A) (f : A -> M B) :
  keeps m -> (forall a, keeps (f a)) -> keeps (m ≫= f).
Proof.
  intros Hm Hf w w' r H.
  apply M_bind_inv in H as [(e & H & _)|(a & w1 & H1 & H2)].
  - eapply Hm, H.
  - apply Hm in H1. apply Hf in H2. congruence.
Qed.

Lemma keeps_get_config : keeps (get_config : M LVUConfig).
Proof. by intros w w' r [= <- <-]. Qed.

Lemma keeps_put_config cfg : keeps (put_config cfg : M unit).
Proof. by intros w w' r [= <- <-]. Qed.

Lemma keeps_emit e : keeps (emit e : M unit).
Proof. by intros w w' r [= <- <-]. Qed.

Lemma keeps_set_rope_deltas rd : keeps (set_rope_deltas rd : M unit).
Proof. by intros w w' r [= <- <-]. Qed.
End FilesFacts.

Create HintDb keeps.
#[local] Hint Resolve keeps_ret keeps_lift keeps_get_config keeps_put_config
  keeps_emit keeps_set_rope_deltas : keeps.

(** Decompose a goal about the files along the binds of the computation. *)
Ltac keeps_steps :=
  repeat first
    [ apply keeps_bind; [|intros ?]
    | progress auto with keeps
    | match goal with
      | |- TraceSpec.keeps_files (let '(_, _) := ?x in _) => destruct x
      | |- TraceSpec.keeps_files (if ?b then _ else _) => destruct b
      end ].

Section FilesTurn.
Import Driver DriverSpec TraceSpec.
Context {Img Frame VK PixRow SPG IGrid P RD KV KT GK : Type}.
Variable self : collaborators Img Frame VK PixRow SPG IGrid P RD KV KT GK.
Abbreviation world := (Driver.world Img Frame VK PixRow SPG P RD KV).

Lemma keeps_prefill_group whole position_ids gr i pixels st :
  keeps_files (prefill_group self whole position_ids gr i pixels st).
Proof. unfold prefill_group. destruct st. keeps_steps. Qed.

Lemma keeps_prefill_loop whole position_ids gr pixel_groups :
  forall i st,
    keeps_files (prefill_loop self whole position_ids gr i pixel_groups st).
Proof.
  induction pixel_groups as [|pixels rest IH]; intros i st; simpl.
  - apply keeps_ret.
  - apply keeps_bind; [apply keeps_prefill_group|]. intros st'. apply IH.
Qed.

Lemma keeps_final_generation whole past_key_values past_len generation_kwargs :
  keeps_files
    (final_generation self whole past_key_values past_len generation_kwargs).
Proof. unfold final_generation. keeps_steps. Qed.

(** What follows a step that keeps the files leaves them as that step
    left them. *)
Lemma bind_files_after {A B} (m : Driver.M A) (k : A -> Driver.M B)
    (w w1 : world) x :
  (forall a, keeps_files (k a)) ->
  (m ≫= k) w = (x, w1) ->
  exists r0 w0, m w = (r0, w0) /\ w_files w1 = w_files w0.
Proof.
  intros Hk H.
  apply M_bind_inv in H as [(e & H & _)|(a & w0 & Hm & H)].
  - eauto.
  - apply Hk in H. eauto.
Qed.

(** Up to the frame extraction and after it, a turn keeps the files. *)
Lemma chat_files messages generation_kwargs (w w' : world) r :
  chat_lvu_model self messages generation_kwargs w = (r, w') ->
  w_files w' = w_files w \/
  exists r0 w0,
    extract_frames self messages w = (r0, w0) /\ w_files w' = w_files w0.
Proof.
  unfold chat_lvu_model. intros H.
  apply bind_files_after in H as (x & w1 & H & ->);
    [|intros [[whole pkv] past_len]; apply keeps_final_generation].
  unfold prefill in H.
  apply M_bind_inv in H as [(e & H & _)|(text & w2 & Htext & H)].
  - left. by injection H as _ <-.
  - injection Htext as _ <-. right.
    apply bind_files_after in H; [exact H|].
    intros inputs. cbv zeta.
    repeat first
      [ apply keeps_prefill_loop
      | apply keeps_bind; [|intros ?]
      | progress auto with keeps
      | match goal with
        | |- keeps_files (let '(_, _) := ?x in _) => destruct x
        end ].
Qed.
End FilesTurn.

(** X23. A whole turn writes at most one file, the cache file of its
    request: every other file is as it was when the turn ends, whatever
    the outcome; and if no cache file can be named for the request (as
    when the messages do not hold exactly one vision entry), no file is
    written at all. *)
Theorem turn_writes_one_file
    {Img Frame VK PixRow SPG IGrid P RD KV KT GK : Type}
    (self : Driver.collaborators Img Frame VK PixRow SPG IGrid P RD KV KT GK)
    (messages : list Driver.message) (generation_kwargs : GK)
    (w w' : Driver.world Img Frame VK PixRow SPG P RD KV)
    (r : result (list string)) :
  Driver.chat_lvu_model self messages generation_kwargs w = (r, w') ->
  match Driver.cache_paths_of self (Driver.w_config w) messages with
  | Ok (_, cache_file) =>
      forall path : string, path <> cache_file ->
        Driver.w_files w' !! path = Driver.w_files w !! path
  | Raise _ => Driver.w_files w' = Driver.w_files w
  end.
Proof.
  intros H. apply chat_files in H as [H|(r0 & w0 & Hextract & H)].
  - rewrite H. by destruct (Driver.cache_paths_of _ _ _) as [[]|].
  - rewrite H. rewrite extract_frames_run in Hextract.
    destruct (Driver.cache_paths_of self (Driver.w_config w) messages)
      as [[cache_dir cache_file]|e].
    + intros path Hne.
      destruct (Driver.w_files w !! cache_file).
      * by injection Hextract as _ <-.
      * destruct (Driver.process_vision_info self messages) as [decoded|e].
        -- destruct (Driver.torch_save_failure self decoded cache_file)
             as [[e []]|]; injection Hextract as _ <-; simpl;
             [|reflexivity|]; by rewrite lookup_insert_ne.
        -- by injection Hextract as _ <-.
    + by injection Hextract as _ <-.
Qed.

Lemma turn_writes_one_file_witness :
  let run := Driver.run_lvu_model (Fixture.model 2 6 [5; 6]) "what?"
               "/videos/cat.mp4" tt (Fixture.fresh Scenario.config_small) in
  Driver.w_files run.2 !! "/videos/cat.mp4"%string = None.
Proof.
  intros run.
  destruct run as [r w'] eqn:Hrun.
  unfold run in Hrun. rewrite run_lvu_model_unfold in Hrun.
  simpl Driver.video_content_of in Hrun.
  pose proof (turn_writes_one_file _ _ _ _ _ _ Hrun) as Hfiles.
  simpl. 
  destruct (Driver.cache_paths_of _ _ _) as [[cache_dir cache_file]|e] eqn:Hpaths;
    [|vm_compute in Hpaths; discriminate].
  rewrite Hfiles; [reflexivity|].
  vm_compute in Hpaths. injection Hpaths as _ <-. discriminate.
Defined.

(** ** The prefill without groups *)

Section UngroupedFacts.
Import Driver DriverSpec TraceSpec.
Context {Img Frame VK PixRow SPG IGrid P RD KV KT GK : Type}.
Variable self : collaborators Img Frame VK PixRow SPG IGrid P RD KV KT GK.
Abbreviation world := (Driver.world Img Frame VK PixRow SPG P RD KV).

Lemma filter_eq_absent (tok : Z) (l : list Z) :
  tok ∉ l -> filter (fun x => x = tok) l = [].
Proof.
  induction l as [|x l IH]; [done|].
  intros [Hx Hl]%not_elem_of_cons.
  rewrite filter_cons_False by congruence. auto.
Qed.

Lemma filter_eq_replicate (tok : Z) (n : nat) :
  filter (fun x => x = tok) (replicate n tok) = replicate n tok.
Proof.
  induction n as [|n IH]; [done|]. simpl.
  rewrite filter_cons_True by done. by f_equal.
Qed.

(** A prompt with one block of [n] video tokens holds [n] of them. *)
Lemma count_token_block (tok : Z) (pre post : list Z) (n : nat) :
  tok ∉ pre -> tok ∉ post ->
  count_token tok (pre ++ replicate n tok ++ post) = Z.of_nat n.
Proof.
  intros Hpre Hpost. unfold count_token.
  rewrite !filter_app, filter_eq_absent, filter_eq_replicate,
    filter_eq_absent by done.
  simpl. by rewrite app_nil_r, length_replicate.
Qed.

(** The block starts where the tokens before it end. *)
Lemma first_index_block (tok : Z) (pre post : list Z) (n : nat) :
  tok ∉ pre ->
  forall i, first_index_from tok (pre ++ replicate (S n) tok ++ post) i
            = Some (i + length pre)%nat.
Proof.
  induction pre as [|x pre IH]; intros Hpre i; simpl.
  - rewrite Z.eqb_refl. f_equal. lia.
  - apply not_elem_of_cons in Hpre as [Hx Hpre].
    destruct (Z.eqb_spec x tok) as [->|_]; [done|].
    rewrite (IH Hpre). f_equal. lia.
Qed.

(** Without a positive group size there is one group, the whole video. *)
Lemma split_groups_ungrouped lvu_config video_inputs
    (whole : whole_inputs PixRow SPG IGrid) n_video_tokens gr :
  match video_group_size lvu_config with
  | Some g => g <= 0
  | None => True
  end ->
  split_groups self lvu_config video_inputs whole n_video_tokens = Ok gr ->
  video_groups_tokens gr = [n_video_tokens] /\
  video_groups_grid_thw gr = [video_grid_thw whole] /\
  pixel_values_videos_groups gr = [pixel_values_videos whole].
Proof.
  unfold split_groups. intros Hsize H.
  apply bind_Ok_inv in H as (u & _ & H).
  assert (Hsingle : single_group video_inputs whole n_video_tokens = Ok gr).
  { destruct (video_group_size lvu_config) as [g|]; [|exact H].
    destruct (Z.ltb_spec 0 g); [lia|exact H]. }
  unfold single_group in Hsingle.
  apply bind_Ok_inv in Hsingle as (video & _ & [= <-]). done.
Qed.

(** The prefill, when it returns, up to its loop. *)
Lemma prefill_Ok_loop messages (w w1 : world) whole past_key_values past_len :
  prefill self messages w = (Ok (whole, past_key_values, past_len), w1) ->
  exists inputs (w0 w0' : world) gr position_ids,
    extract_frames self messages w = (Ok inputs, w0) /\
    w_trace w0' = w_trace w0 /\
    w_config w0' = w_config w /\
    split_groups self (w_config w) (video_inputs inputs) whole
      (count_token (video_token_id self) (input_ids whole)) = Ok gr /\
    prefill_loop self whole position_ids gr 0 (pixel_values_videos_groups gr)
      (None, 0%nat) w0' = (Ok (past_key_values, past_len), w1).
Proof.
  unfold prefill. intros H.
  apply M_bind_Ok_inv in H as (text & w' & Htext & H).
  apply lift_Ok_inv in Htext as [Htext ->].
  apply M_bind_Ok_inv in H as (inputs & w0 & Hextract & H).
  pose proof (extract_frames_Ok_inv self _ _ _ _ Hextract)
    as (cache_dir & cache_file & _ & Hcfg0 & _).
  apply M_bind_Ok_inv in H as (whole' & w' & Hwhole & H).
  apply lift_Ok_inv in Hwhole as [Hwhole ->].
  cbv zeta in H.
  apply M_bind_Ok_inv in H as (last_idx & w' & Hlast & H).
  apply lift_Ok_inv in Hlast as [Hlast ->].
  apply M_bind_Ok_inv in H as ([position_ids rope_deltas] & w' & Hrope & H).
  apply lift_Ok_inv in Hrope as [Hrope ->].
  apply M_bind_Ok_inv in H as ([] & w' & Hset & H).
  injection Hset as <-.
  apply M_bind_Ok_inv in H as (cfg & w' & Hcfg & H).
  injection Hcfg as <- <-. simpl in H.
  apply M_bind_Ok_inv in H as (gr & w' & Hgr & H).
  apply lift_Ok_inv in Hgr as [Hgr ->].
  apply M_bind_Ok_inv in H as ([pkv' pl'] & w' & Hloop & H).
  injection H as -> -> -> ->.
  rewrite Hcfg0 in Hgr.
  match type of Hloop with
  | prefill_loop _ _ _ _ _ _ _ ?w0' = _ =>
      exists inputs, w0, w0', gr, position_ids
  end.
  split_and!; [exact Hextract|reflexivity|exact Hcfg0|exact Hgr|exact Hloop].
Qed.

(** The first iteration from an empty cache, when it returns. *)
Lemma prefill_group_first_Ok whole position_ids gr pixels (w w' : world) st'
    first n grid :
  first_token_index (video_token_id self) (input_ids whole) = Ok first ->
  video_groups_tokens gr = [n] ->
  video_groups_grid_thw gr = [grid] ->
  prefill_group self whole position_ids gr 0 pixels (None, 0%nat) w
    = (Ok st', w') ->
  exists call out,
    let ids := take (first + Z.to_nat n) (input_ids whole) in
    w' = after_calls w [call] /\
    g_input_ids call = ids /\
    g_pixel_values_videos call = pixels /\
    g_video_grid_thw call = grid /\
    forward self (w_config w) call = Ok out /\
    st' = (Some out, length ids).
Proof.
  unfold prefill_group. intros Hfirst Htokens Hgrid H.
  rewrite Hgrid, Htokens, Hfirst in H. simpl in H.
  apply M_bind_Ok_inv in H as (grid_i & w1 & Hg & H).
  injection Hg as <- <-.
  apply M_bind_Ok_inv in H as (stop & w1 & Hstop & H).
  injection Hstop as <- <-.
  apply M_bind_Ok_inv in H as (cfg & w1 & Hcfg & H).
  injection Hcfg as <- <-.
  apply M_bind_Ok_inv in H as ([] & w1 & Hemit & H).
  injection Hemit as <-.
  apply M_bind_Ok_inv in H as (out & w1 & Hout & H).
  apply lift_Ok_inv in Hout as [Hout ->].
  match type of H with
  | context [EForward _ ?c] => set (call := c) in *
  end.
  exists call, out. cbv zeta.
  assert (Hslice : slice 0 (first + Z.to_nat n) (input_ids whole)
                   = take (first + Z.to_nat n) (input_ids whole)).
  { unfold slice. by rewrite Nat.sub_0_r, drop_0. }
  assert (Hst : w' = after_calls w [call] /\
                st' = (Some out,
                       length (slice 0 (first + Z.to_nat n) (input_ids whole)))).
  { destruct (adaptive_local_attention (w_config w)).
    - injection H as <- <-. split; reflexivity.
    - simpl in H. injection H as <- <-. split; reflexivity. }
  destruct Hst as [-> ->]. rewrite <- Hslice.
  split_and!; try reflexivity. exact Hout.
Qed.
End UngroupedFacts.

(** X24. Without a positive group size the prefill is one call to the
    model, from an empty cache, and no rounding is involved: on a prompt
    that holds the video tokens as one block, the call is given all pixel
    rows, the whole grid and the prompt up to the end of the block, its
    cache is the one handed to the generation, and the generation is left
    exactly the tokens after the block. *)
Theorem ungrouped_prefill_covers_video_block
    {Img Frame VK PixRow SPG IGrid P RD KV KT GK : Type}
    (self : Driver.collaborators Img Frame VK PixRow SPG IGrid P RD KV KT GK)
    (messages : list Driver.message)
    (w w1 : Driver.world Img Frame VK PixRow SPG P RD KV)
    (whole : Driver.whole_inputs PixRow SPG IGrid)
    (past_key_values : option KV) (past_len : nat)
    (pre post : list Z) (n : nat) :
  match video_group_size (Driver.w_config w) with
  | Some g => g <= 0
  | None => True
  end ->
  Driver.input_ids whole =
    pre ++ replicate (S n) (Driver.video_token_id self) ++ post ->
  Driver.video_token_id self ∉ pre ->
  Driver.video_token_id self ∉ post ->
  Driver.prefill self messages w = (Ok (whole, past_key_values, past_len), w1) ->
  exists (evs : list (Driver.event PixRow SPG P KV))
         (call : Driver.group_inputs PixRow SPG P KV) (out : KV),
    Driver.w_trace w1 = Driver.w_trace w ++ evs /\
    TraceSpec.forward_calls evs = [call] /\
    Driver.g_input_ids call = pre ++ replicate (S n) (Driver.video_token_id self) /\
    Driver.g_pixel_values_videos call = Driver.pixel_values_videos whole /\
    Driver.g_video_grid_thw call = Driver.video_grid_thw whole /\
    Driver.forward self (Driver.w_config w) call = Ok out /\
    past_key_values = Some out /\
    past_len = (length pre + S n)%nat /\
    Driver.f_input_ids (Driver.final_inputs_of whole past_key_values past_len)
      = post.
Proof.
  intros Hsize Hids Hpre Hpost H.
  apply prefill_Ok_loop in H
    as (inputs & w0 & w0' & gr & position_ids & Hextract & Htrace0' & Hcfg0'
        & Hgr & Hloop).
  apply extract_frames_trace in Hextract as (evs0 & Htrace0 & _ & _ & Hcalls0).
  apply (split_groups_ungrouped _ _ _ _ _ _ Hsize) in Hgr
    as (Htokens & Hgrid & Hpixels).
  rewrite Hpixels in Hloop. simpl in Hloop.
  apply M_bind_Ok_inv in Hloop as (st' & w' & Hgroup & Hret).
  injection Hret as -> ->.
  assert (Hfirst : Driver.first_token_index (Driver.video_token_id self)
                     (Driver.input_ids whole) = Ok (length pre)).
  { unfold Driver.first_token_index.
    by rewrite Hids, (first_index_block _ _ _ _ Hpre). }
  apply (prefill_group_first_Ok _ _ _ _ _ _ _ _ _ _ _ Hfirst Htokens Hgrid)
    in Hgroup as (call & out & -> & Hcall_ids & Hcall_pix & Hcall_grid
                  & Hout & [= -> ->]).
  assert (Htake : take (length pre + Z.to_nat (Driver.count_token
                          (Driver.video_token_id self) (Driver.input_ids whole)))
                    (Driver.input_ids whole)
                  = pre ++ replicate (S n) (Driver.video_token_id self)).
  { rewrite Hids, (count_token_block _ _ _ _ Hpre Hpost), Nat2Z.id.
    rewrite app_assoc. apply take_app_length'.
    by rewrite length_app, length_replicate. }
  rewrite Htake in *.
  exists (evs0 ++ [Driver.EForward (Driver.w_config w0') call]), call, out.
  split_and!; try done.
  - simpl. by rewrite Htrace0', Htrace0, <- app_assoc.
  - by rewrite forward_calls_app, Hcalls0.
  - by rewrite <- Hcfg0'.
  - by rewrite length_app, length_replicate.
  - simpl. rewrite Hids, app_assoc. apply drop_app_length'.
    reflexivity.
Qed.

Lemma ungrouped_prefill_covers_video_block_witness :
  let messages :=
    Driver.messages_of
      [("type", VStr "video"); ("video", VStr "/videos/cat.mp4");
       ("nframes", VNum (PInt 4))]%string "what?" in
  let run := Driver.prefill (Fixture.model 2 6 [5; 6]) messages
               (Fixture.fresh Fixture.base_config) in
  exists whole past_key_values,
    run.1 = Ok (whole, past_key_values, 8%nat) /\
    Driver.f_input_ids (Driver.final_inputs_of whole past_key_values 8) = [5; 6].
Proof.
  intros messages run.
  destruct run as [[[[whole pkv] past_len]|e] w1] eqn:Hrun;
    [|vm_compute in Hrun; discriminate].
  assert (Hids : Driver.input_ids whole =
                 [1; 2] ++ replicate 6 Fixture.video_token ++ [5; 6]).
  { vm_compute in Hrun. injection Hrun as <- _ _ _. reflexivity. }
  assert (Hpre : Fixture.video_token ∉ [1; 2]).
  { rewrite !not_elem_of_cons. split_and!; [discriminate..|apply not_elem_of_nil]. }
  assert (Hpost : Fixture.video_token ∉ [5; 6]).
  { rewrite !not_elem_of_cons. split_and!; [discriminate..|apply not_elem_of_nil]. }
  destruct (ungrouped_prefill_covers_video_block
              (Fixture.model 2 6 [5; 6]) messages
              (Fixture.fresh Fixture.base_config) _ _ _ _ [1; 2] [5; 6] 5%nat
              I Hids Hpre Hpost Hrun)
    as (evs & call & out & _ & _ & _ & _ & _ & _ & _ & -> & Hfinal).
  exists whole, pkv. split; [reflexivity|exact Hfinal].
Defined.

(** ** The cache under adaptive local attention *)

Section AdaptiveFacts.
Import Driver DriverSpec TraceSpec.
Context {Img Frame VK PixRow SPG IGrid P RD KV KT GK : Type}.
Variable self : collaborators Img Frame VK PixRow SPG IGrid P RD KV KT GK.
Abbreviation world := (Driver.world Img Frame VK PixRow SPG P RD KV).

(** One iteration under adaptive local attention, when it returns. *)
Lemma prefill_group_adaptive_Ok whole position_ids gr i pixels
    past_key_values past_len (w w' : world) st' :
  adaptive_local_attention (w_config w) = true ->
  prefill_group self whole position_ids gr i pixels (past_key_values, past_len) w
    = (Ok st', w') ->
  exists call out,
    w' = after_calls w [call] /\
    g_past_key_values call = Some past_key_values /\
    forward self (w_config w) call = Ok out /\
    st'.1 = Some out.
Proof.
  unfold prefill_group. intros Hadaptive H.
  apply M_bind_Ok_inv in H as (grid_i & w1 & Hgrid & H).
  apply lift_Ok_inv in Hgrid as [_ ->].
  apply M_bind_Ok_inv in H as (stop & w1 & Hstop & H).
  apply lift_Ok_inv in Hstop as [_ ->].
  cbv zeta in H.
  apply M_bind_Ok_inv in H as (cfg & w1 & Hcfg & H).
  injection Hcfg as <- <-.
  apply M_bind_Ok_inv in H as ([] & w1 & Hemit & H).
  injection Hemit as <-.
  apply M_bind_Ok_inv in H as (out & w1 & Hout & H).
  apply lift_Ok_inv in Hout as [Hout ->].
  match type of H with
  | context [EForward _ ?c] => set (call := c) in *
  end.
  exists call, out. rewrite Hadaptive in H. injection H as <- <-.
  split_and!; [reflexivity| |exact Hout|reflexivity].
  unfold call. simpl. by rewrite Hadaptive.
Qed.

(** The loop under adaptive local attention: the cache goes from call to
    call. *)
Lemma prefill_loop_adaptive whole position_ids gr pixel_groups :
  forall i past_key_values past_len (w w' : world) past_key_values' past_len',
    adaptive_local_attention (w_config w) = true ->
    prefill_loop self whole position_ids gr i pixel_groups
      (past_key_values, past_len) w = (Ok (past_key_values', past_len'), w') ->
    exists calls,
      w' = after_calls w calls /\
      (calls = [] -> past_key_values' = past_key_values) /\
      (forall c, calls !! 0%nat = Some c ->
                 g_past_key_values c = Some past_key_values) /\
      forall k c, calls !! k = Some c ->
        exists out,
          forward self (w_config w) c = Ok out /\
          match calls !! S k with
          | Some c' => g_past_key_values c' = Some (Some out)
          | None => past_key_values' = Some out
          end.
Proof.
  induction pixel_groups as [|pixels rest IH];
    intros i pkv pl w w' pkv' pl' Hadaptive H; simpl in H.
  - injection H as <- <- <-. exists []. rewrite after_calls_nil.
    split_and!; [done..|]. intros k c Hc. by rewrite lookup_nil in Hc.
  - apply M_bind_Ok_inv in H as ([pkv1 pl1] & w1 & Hgroup & H).
    apply (prefill_group_adaptive_Ok _ _ _ _ _ _ _ _ _ _ Hadaptive) in Hgroup
      as (call & out & -> & Hgiven & Hout & Hst).
    simpl in Hst. subst pkv1.
    apply IH in H as (calls & -> & Hnil & Hhead & Hnext); [|exact Hadaptive].
    exists (call :: calls). rewrite after_calls_cons.
    split_and!; [done|done| |].
    + intros c [= <-]. exact Hgiven.
    + intros [|k] c Hc; simpl in Hc.
      * injection Hc as <-. exists out. split; [exact Hout|]. simpl.
        destruct calls as [|c' calls']; simpl; [by apply Hnil|].
        by apply Hhead.
      * apply Hnext in Hc as (out' & Hout' & Hc). eauto.
Qed.
End AdaptiveFacts.

(** X25. Under adaptive local attention the cache goes from call to call:
    the first prefill call is given no cache, every later call is given
    the cache the model returned for the call before it, and the cache
    returned for the last call is the one handed to the generation. *)
Theorem adaptive_prefill_threads_cache
    {Img Frame VK PixRow SPG IGrid P RD KV KT GK : Type}
    (self : Driver.collaborators Img Frame VK PixRow SPG IGrid P RD KV KT GK)
    (messages : list Driver.message)
    (w w1 : Driver.world Img Frame VK PixRow SPG P RD KV)
    (whole : Driver.whole_inputs PixRow SPG IGrid)
    (past_key_values : option KV) (past_len : nat) :
  adaptive_local_attention (Driver.w_config w) = true ->
  Driver.prefill self messages w = (Ok (whole, past_key_values, past_len), w1) ->
  exists (evs : list (Driver.event PixRow SPG P KV)),
    Driver.w_trace w1 = Driver.w_trace w ++ evs /\
    (forall c, TraceSpec.forward_calls evs !! 0%nat = Some c ->
               Driver.g_past_key_values c = Some None) /\
    forall k c, TraceSpec.forward_calls evs !! k = Some c ->
      exists out : KV,
        Driver.forward self (Driver.w_config w) c = Ok out /\
        match TraceSpec.forward_calls evs !! S k with
        | Some c' => Driver.g_past_key_values c' = Some (Some out)
        | None => past_key_values = Some out
        end.
Proof.
  intros Hadaptive H.
  apply prefill_Ok_loop in H
    as (inputs & w0 & w0' & gr & position_ids & Hextract & Htrace0' & Hcfg0'
        & _ & Hloop).
  apply extract_frames_trace in Hextract as (evs0 & Htrace0 & _ & _ & Hcalls0).
  apply prefill_loop_adaptive in Hloop as (calls & -> & _ & Hhead & Hnext);
    [|by rewrite Hcfg0'].
  exists (evs0 ++ (Driver.EForward (Driver.w_config w0') <$> calls)).
  rewrite forward_calls_app, Hcalls0, forward_calls_forward. simpl.
  rewrite Hcfg0' in Hnext.
  split_and!; [|exact Hhead|exact Hnext].
  by rewrite Htrace0', Htrace0, <- app_assoc.
Qed.

Lemma adaptive_prefill_threads_cache_witness :
  let messages :=
    Driver.messages_of
      [("type", VStr "video"); ("video", VStr "/videos/cat.mp4");
       ("nframes", VNum (PInt 4))]%string "what?" in
  let run := Driver.prefill (Fixture.model 2 6 [5; 6]) messages
               (Fixture.fresh Scenario.config_small) in
  exists evs,
    Driver.w_trace run.2 = [] ++ evs /\
    forall c, TraceSpec.forward_calls evs !! 0%nat = Some c ->
              Driver.g_past_key_values c = Some None.
Proof.
  intros messages run.
  destruct run as [[[[whole pkv] past_len]|e] w1] eqn:Hrun;
    [|vm_compute in Hrun; discriminate].
  destruct (adaptive_prefill_threads_cache (Fixture.model 2 6 [5; 6]) messages
              (Fixture.fresh Scenario.config_small) _ _ _ _ eq_refl Hrun)
    as (evs & Htrace & Hhead & _).
  exists evs. split; [exact Htrace|exact Hhead].
Defined.
